(** * Image manager of the pouch daemon: reference resolution, removal,
      tagging, listing and history reconstruction.

    Shallow embedding of [daemon/mgr/image.go] (the second file of
    [src/apis/server/image_bridge.go]).  Strings are Go byte strings,
    modelled as [string]; [digest.Digest] is a string type; errors are
    values of [error]; a Go function returning [(T, error)] returns
    [Result T]; a method that mutates the manager returns the new
    manager next to its [error]. *)

From Stdlib Require Import String Ascii List Bool ZArith Lia Arith.
From Stdlib Require Import DecimalString DecimalZ.
Import ListNotations.
Local Open Scope list_scope.
Local Open Scope string_scope.

Set Implicit Arguments.

(* ===================================================================== *)
(** ** Errors and results *)
(* ===================================================================== *)

(** Go [error] values met in the file: the sentinels of [errtypes], the
    cache sentinel of the store, [errors.New]/[fmt.Errorf] messages and
    [pkgerrors.Wrap]/[Wrapf], which keep their cause. *)
Inductive error : Type :=
| ErrNotfound
| ErrInvalidParam
| errCtrdImageInfoNotExist
| ErrNew (msg : string)
| ErrWrap (cause : error) (msg : string).

Inductive Result (A : Type) : Type :=
| Ok (a : A)
| Err (e : error).
Arguments Ok {A} a.
Arguments Err {A} e.

Definition bind {A B} (r : Result A) (k : A -> Result B) : Result B :=
  match r with
  | Ok a => k a
  | Err e => Err e
  end.

Declare Scope go_scope.
Delimit Scope go_scope with go.
Notation "x <- c ;; k" := (bind c (fun x => k))
  (at level 61, c at next level, right associativity) : go_scope.
Notation "' pat <- c ;; k" := (bind c (fun x => match x with pat => k end))
  (at level 61, pat pattern, c at next level, right associativity) : go_scope.
Local Open Scope go_scope.

(** [pkgerrors.Cause]: the innermost error of a chain of wraps. *)
Fixpoint Cause (e : error) : error :=
  match e with
  | ErrWrap c _ => Cause c
  | _ => e
  end.

(** Modelled from the spec: [errtypes.IsNotfound] is absent from the
    sources; section 7 makes [NotFound] a class of the taxonomy, which a
    wrapped error keeps. *)
Definition IsNotfound (e : error) : bool :=
  match Cause e with
  | ErrNotfound => true
  | _ => false
  end.

(** Modelled from the spec: the [InvalidParam] class of section 7, for an
    error that is [errtypes.ErrInvalidParam] or wraps it. *)
Definition IsInvalidParam (e : error) : bool :=
  match Cause e with
  | ErrInvalidParam => true
  | _ => false
  end.

(** Go's [append(l, x)]. *)
Definition append {A} (l : list A) (x : A) : list A := (l ++ [x])%list.

(* ===================================================================== *)
(** ** The Go [strings] and [path] functions the file calls *)
(* ===================================================================== *)

Definition slash : ascii := "/"%char.

(** [strings.IndexRune(s, c)] for an ASCII [c]: index of the first
    occurrence, [-1] when there is none. *)
Fixpoint IndexRune (s : string) (c : ascii) : Z :=
  match s with
  | EmptyString => (-1)%Z
  | String a s' =>
      if Ascii.eqb a c then 0%Z
      else let i := IndexRune s' c in
           if (i =? -1)%Z then (-1)%Z else (i + 1)%Z
  end.

Fixpoint ContainsRune (s : string) (c : ascii) : bool :=
  match s with
  | EmptyString => false
  | String a s' => Ascii.eqb a c || ContainsRune s' c
  end.

(** [strings.ContainsAny(s, chars)]. *)
Fixpoint ContainsAny (s chars : string) : bool :=
  match s with
  | EmptyString => false
  | String a s' => ContainsRune chars a || ContainsAny s' chars
  end.

(** [strings.HasPrefix(s, prefix)]. *)
Definition HasPrefix (s prefix : string) : bool := String.prefix prefix s.

(** The slices [s[:i]] and [s[i:]] for [0 <= i <= len(s)]. *)
Definition sliceTo (s : string) (i : Z) : string :=
  String.substring 0 (Z.to_nat i) s.
Definition sliceFrom (s : string) (i : Z) : string :=
  String.substring (Z.to_nat i) (String.length s - Z.to_nat i) s.

(** Elements of a path between slashes, the empty ones included. *)
Fixpoint splitSlash (cur : string) (s : string) : list string :=
  match s with
  | EmptyString => [cur]
  | String a s' =>
      if Ascii.eqb a slash then cur :: splitSlash "" s'
      else splitSlash (cur ++ String a "") s'
  end.

Fixpoint joinSlash (l : list string) : string :=
  match l with
  | [] => ""
  | [x] => x
  | x :: l' => x ++ "/" ++ joinSlash l'
  end.

(** One step of the loop of [path.Clean] on the element [e].  The buffer
    is kept as the number [ups] of leading [..] it cannot cross and the
    stack [out] of real elements written after them, last first. *)
Definition cleanStep (rooted : bool) (st : nat * list string) (e : string)
  : nat * list string :=
  let '(ups, out) := st in
  if String.eqb e "" then st
  else if String.eqb e "." then st
  else if String.eqb e ".." then
    match out with
    | _ :: out' => (ups, out')
    | [] => if rooted then st else (S ups, out)
    end
  else (ups, e :: out).

(** [path.Clean]. *)
Definition path_Clean (p : string) : string :=
  match p with
  | EmptyString => "."
  | String a _ =>
      let rooted := Ascii.eqb a slash in
      let '(ups, out) := fold_left (cleanStep rooted) (splitSlash "" p) (0, []) in
      let body := joinSlash (repeat ".." ups ++ rev out)%list in
      if rooted then "/" ++ body
      else if String.eqb body "" then "." else body
  end.

(** [path.Join]: empty elements are ignored, the rest joined by a slash
    and cleaned; the empty string when every element is empty. *)
Definition path_Join (elem : list string) : string :=
  match filter (fun e => negb (String.eqb e "")) elem with
  | [] => ""
  | l => path_Clean (joinSlash l)
  end.

(** [%q] of [fmt] for a string without bytes to escape: the string
    between double quotes. *)
Definition fmt_q (s : string) : string :=
  let dq := String (Ascii.ascii_of_nat 34) "" in dq ++ s ++ dq.

(* ===================================================================== *)
(** ** References ([pkg/reference]) *)
(* ===================================================================== *)

(** [digest.Digest] is a Go string type. *)
Definition Digest : Type := string.

(** Modelled from the spec: the package [pkg/reference] is absent from
    the sources.  Sections 3 and 4.1: a reference has a locator and an
    optional [:tag] and [@digest] suffix, at most one of each; it is
    name-only without both, Tagged with a tag, Digested with a digest. *)
Record Reference : Type := {
  Name : string;
  Tag : option string;
  RefDigest : option Digest
}.

(** Modelled from the spec: [Named.String()], the locator followed by
    the suffixes, as in the examples [repo:tag] and [repo@sha256:...] of
    section 3. *)
Definition RefString (r : Reference) : string :=
  Name r
  ++ match Tag r with Some t => ":" ++ t | None => "" end
  ++ match RefDigest r with Some d => "@" ++ d | None => "" end.

(** Modelled from the spec: [reference.IsNamedOnly], no tag and no
    digest (section 3). *)
Definition IsNamedOnly (r : Reference) : bool :=
  match Tag r, RefDigest r with
  | None, None => true
  | _, _ => false
  end.

(** Modelled from the spec: the type tests [ref.(reference.Tagged)] and
    [ref.(reference.Digested)], a reference with a tag and a reference
    with a digest (section 4.1). *)
Definition isTagged (r : Reference) : bool :=
  match Tag r with Some _ => true | None => false end.
Definition isDigested (r : Reference) : bool :=
  match RefDigest r with Some _ => true | None => false end.

(** Modelled from the spec: [reference.IsNameTagged], the tag-qualified
    reference of section 4.6. *)
Definition IsNameTagged (r : Reference) : bool := isTagged r.

(** Modelled from the spec: section 4.6 derives [name@manifestDigest]
    from a tag-qualified reference. *)
Definition WithDigest (r : Reference) (d : Digest) : Reference :=
  {| Name := Name r; Tag := None; RefDigest := Some d |}.

(** Modelled from the spec: section 4.5, an untagged name implicitly
    means the default tag. *)
Definition WithDefaultTagIfMissing (r : Reference) : Reference :=
  if IsNamedOnly r
  then {| Name := Name r; Tag := Some "latest"; RefDigest := None |}
  else r.

(** Modelled from the spec: section 4.5, strip any tag when a digest is
    also present (the digest takes precedence). *)
Definition TrimTagForDigest (r : Reference) : Reference :=
  match RefDigest r with
  | Some d => {| Name := Name r; Tag := None; RefDigest := Some d |}
  | None => r
  end.

(** The reading of section 4.8 of the spec, which has the digest suffix
    stripped instead; compared with [TrimTagForDigest] below. *)
Definition StripDigest (r : Reference) : Reference :=
  {| Name := Name r; Tag := Tag r; RefDigest := None |}.

(** Modelled from the spec: [uniqueLocatorReference] is absent from the
    sources; section 4.8: the references do not span more than one
    distinct locator. *)
Definition uniqueLocatorReference (refs : list Reference) : bool :=
  match refs with
  | [] => true
  | r :: rest => forallb (fun r' => String.eqb (Name r') (Name r)) rest
  end.

(* ===================================================================== *)
(** ** Image data *)
(* ===================================================================== *)

(** [time.Time] as an instant in nanoseconds. *)
Definition Time : Type := Z.

Record Descriptor : Type := {
  desc_Digest : Digest;
  desc_Size : Z
}.

Record History : Type := {
  hist_Created : Time;
  hist_CreatedBy : string;
  hist_Author : string;
  hist_Comment : string;
  hist_EmptyLayer : bool
}.

Record RootFS : Type := {
  rootfs_Type : string;
  rootfs_DiffIDs : list Digest
}.

(** [ocispec.Image]; the image config is kept as its fields of interest. *)
Record ociImage : Type := {
  oci_Created : Time;
  oci_Architecture : string;
  oci_OS : string;
  oci_Config : list string;
  oci_RootFS : RootFS;
  oci_History : list History
}.

Record Manifest : Type := {
  man_Layers : list Descriptor
}.

Record CtrdImageInfo : Type := {
  info_ID : Digest;
  info_Size : Z;
  info_OCISpec : ociImage
}.

(** [containerd.Image]: what the handle answers to each call made on it
    ([Name], [Target], [Config], [Size], [RootFS], the content store's
    [Info]) and to the helpers applied to it: [containerdImageToOciImage]
    and [ctrdmetaimages.Manifest] for the default platform. *)
Record Image : Type := {
  img_Name : string;
  img_Target : Descriptor;
  img_Config : Result Descriptor;
  img_Size : Result Z;
  img_RootFS : Result (list Digest);
  img_OciImage : Result ociImage;
  img_Manifest : Result Manifest;
  img_ContentInfo : Digest -> Result Z
}.

Record ImageInfoRootFS : Type := {
  irf_Type : string;
  irf_Layers : list string
}.

(** [types.ImageInfo]. *)
Record ImageInfo : Type := {
  ii_Architecture : string;
  ii_Config : list string;
  ii_CreatedAt : string;
  ii_ID : string;
  ii_Os : string;
  ii_RepoDigests : list string;
  ii_RepoTags : list string;
  ii_RootFS : ImageInfoRootFS;
  ii_Size : Z
}.

(** [types.HistoryResultItem]. *)
Record HistoryResultItem : Type := {
  hri_Created : Z;
  hri_CreatedBy : string;
  hri_Author : string;
  hri_Comment : string;
  hri_EmptyLayer : bool;
  hri_ID : string;
  hri_Size : Z
}.

(** [filters.Args]: the values given for each filter key. *)
Definition Args : Type := list (string * list string).

(** [Args.Get]. *)
Fixpoint filter_Get (filter : Args) (key : string) : list string :=
  match filter with
  | [] => []
  | (k, vs) :: rest => if String.eqb k key then vs else filter_Get rest key
  end.

(** What the manager does besides changing its stores, in program order:
    the mutating calls sent to the containerd client and the events
    published by [LogImageEvent]. *)
Inductive Effect : Type :=
| CallRemoveImage (ref : string)
| CallCreateImageReference (name : string) (target : Descriptor)
| ImageEvent (name ref action : string).

(* ===================================================================== *)
(** ** Collaborators of the manager *)
(* ===================================================================== *)

(** The local reference store [imageStore], whose source is not part of
    the file: the operations the manager calls on it, on a store state
    [S].  A mutating operation returns the new state and its [error]. *)
Class ImageStore (S : Type) : Type := {
  Search : S -> Reference -> Result (Digest * Reference);
  GetPrimaryReference : S -> Reference -> Result Reference;
  GetPrimaryReferences : S -> Digest -> list Reference;
  GetReferences : S -> Digest -> list Reference;
  AddReference : S -> Digest -> Reference -> Reference -> S * option error;
  RemoveReference : S -> Digest -> Reference -> S * option error;
  CacheCtrdImageInfo : S -> Digest -> CtrdImageInfo -> S;
  GetCtrdImageInfo : S -> Digest -> Result CtrdImageInfo;
  ClearCtrdImageInfo : S -> Digest -> S;
  ListCtrdImageInfo : S -> list CtrdImageInfo
}.

(** The interface [ctrd.APIClient], on a state [C] of the remote content
    store: the calls made by the functions embedded here. *)
Class APIClient (C : Type) : Type := {
  client_GetImage : C -> string -> Result Image;
  client_RemoveImage : C -> string -> C * option error;
  client_CreateImageReference : C -> string -> Descriptor -> C * option error
}.

(** Functions of imported packages and of sibling files whose sources are
    not part of the file: [reference.Parse], [addDefaultRegistryIfMissing],
    [Args.Validate] and [filters.FamiliarMatch], [Time.Format] and
    [time.Parse] for [utils.TimeLayout], [getImageInfoConfigFromOciImage],
    and the text [err.Error()] of an error. *)
Class Imports : Type := {
  Error : error -> string;
  Parse : string -> Result Reference;
  addDefaultRegistryIfMissing : string -> string -> string -> string;
  filter_Validate : Args -> (string -> bool) -> option error;
  FamiliarMatch : string -> string -> Result bool;
  time_Format : Time -> string;
  time_Parse : string -> Result Time;
  getImageInfoConfigFromOciImage : ociImage -> list string
}.

(** [acceptedImageFilterTags]. *)
Definition acceptedImageFilterTags (k : string) : bool :=
  String.eqb k "before" || String.eqb k "since" || String.eqb k "reference".

(** [ImageManager]: configuration, client, local store, and the effects
    produced so far. *)
Record ImageManager (S C : Type) : Type := {
  DefaultRegistry : string;
  DefaultNamespace : string;
  RegistryMirrors : list string;
  client : C;
  localStore : S;
  effects : list Effect
}.

Section Manager.
Context {S C : Type} {store : ImageStore S} {api : APIClient C} {imp : Imports}.

Local Abbreviation Mgr := (ImageManager S C).

Definition withStore (mgr : Mgr) (s : S) : Mgr :=
  {| DefaultRegistry := DefaultRegistry mgr;
     DefaultNamespace := DefaultNamespace mgr;
     RegistryMirrors := RegistryMirrors mgr;
     client := client mgr;
     localStore := s;
     effects := effects mgr |}.

Definition withClient (mgr : Mgr) (c : C) (ev : Effect) : Mgr :=
  {| DefaultRegistry := DefaultRegistry mgr;
     DefaultNamespace := DefaultNamespace mgr;
     RegistryMirrors := RegistryMirrors mgr;
     client := c;
     localStore := localStore mgr;
     effects := append (effects mgr) ev |}.

(** [mgr.LogImageEvent(ctx, name, ref, action)]. *)
Definition LogImageEvent (mgr : Mgr) (name ref action : string) : Mgr :=
  {| DefaultRegistry := DefaultRegistry mgr;
     DefaultNamespace := DefaultNamespace mgr;
     RegistryMirrors := RegistryMirrors mgr;
     client := client mgr;
     localStore := localStore mgr;
     effects := append (effects mgr) (ImageEvent name ref action) |}.

(** [mgr.client.RemoveImage(ctx, ref)]. *)
Definition clientRemoveImage (mgr : Mgr) (ref : string) : Mgr * option error :=
  let '(c, err) := client_RemoveImage (client mgr) ref in
  (withClient mgr c (CallRemoveImage ref), err).

(** [mgr.client.CreateImageReference(ctx, img)]. *)
Definition clientCreateImageReference (mgr : Mgr) (name : string) (target : Descriptor)
  : Mgr * option error :=
  let '(c, err) := client_CreateImageReference (client mgr) name target in
  (withClient mgr c (CallCreateImageReference name target), err).

(** [mgr.localStore.RemoveReference(id, ref)]. *)
Definition storeRemoveReference (mgr : Mgr) (id : Digest) (ref : Reference)
  : Mgr * option error :=
  let '(s, err) := RemoveReference (localStore mgr) id ref in
  (withStore mgr s, err).

(* --------------------------------------------------------------------- *)
(** *** Candidate reference expansion *)

(** The test [idx != -1 && strings.ContainsAny(ref[:idx], ".:")] that
    decides whether [ref] starts with a registry domain. *)
Definition hasDomain (ref : string) : bool :=
  let idx := IndexRune ref slash in
  negb (idx =? -1)%Z && ContainsAny (sliceTo ref idx) ".:".

(** [ImageManager.LookupImageReferences]. *)
Definition LookupImageReferences (mgr : Mgr) (ref : string) : list string :=
  let idx := IndexRune ref slash in
  let '(registry, remainder) :=
    if negb (idx =? -1)%Z && ContainsAny (sliceTo ref idx) ".:"
    then (sliceTo ref idx, sliceFrom ref (idx + 1))
    else ("", ref) in
  let fullRefs : list string := [] in
  let '(fullRefs, registry) :=
    if String.eqb registry ""
    then (fold_left (fun acc reg => append acc (path_Join [reg; ref]))
                    (RegistryMirrors mgr) fullRefs,
          DefaultRegistry mgr)
    else (fullRefs, registry) in
  let remainder :=
    if String.eqb registry (DefaultRegistry mgr) && negb (ContainsAny remainder "/")
    then DefaultNamespace mgr ++ "/" ++ remainder
    else remainder in
  append fullRefs (registry ++ "/" ++ remainder).

(* --------------------------------------------------------------------- *)
(** *** Reference resolution *)

(** [ImageManager.CheckReference]: image ID, actual reference and primary
    reference of [idOrRef]. *)
Definition CheckReference (mgr : Mgr) (idOrRef : string)
  : Result (Digest * Reference * Reference) :=
  namedRef <- Parse idOrRef ;;
  ' (actualID, actualRef) <-
    match Search (localStore mgr) namedRef with
    | Ok found => Ok found
    | Err err =>
        if negb (IsNotfound err) then Err err
        else
          let newIDOrRef :=
            addDefaultRegistryIfMissing idOrRef (DefaultRegistry mgr) (DefaultNamespace mgr) in
          if String.eqb newIDOrRef idOrRef then Err err
          else
            namedRef <- Parse newIDOrRef ;;
            Search (localStore mgr) namedRef
    end ;;
  if IsNamedOnly actualRef || HasPrefix actualID (RefString actualRef)
  then
    match GetPrimaryReferences (localStore mgr) actualID with
    | [] => Err ErrNotfound
    | primaryRef :: _ => Ok (actualID, actualRef, primaryRef)
    end
  else
    primaryRef <- GetPrimaryReference (localStore mgr) actualRef ;;
    Ok (actualID, actualRef, primaryRef).

(** [ImageManager.ListReferences]. *)
Definition ListReferences (mgr : Mgr) (imageID : Digest)
  : list Reference * option error :=
  (GetPrimaryReferences (localStore mgr) imageID, None).

(** [ImageManager.fetchContainerdImage]. *)
Definition fetchContainerdImage (mgr : Mgr) (idOrRef : string) : Result Image :=
  ' (_, _, ref) <- CheckReference mgr idOrRef ;;
  client_GetImage (client mgr) (RefString ref).

(* --------------------------------------------------------------------- *)
(** *** Removal *)

(** The loop of the identity branch of [RemoveImage] over the primary
    references read before it starts. *)
Fixpoint removePrimaryReferences (mgr : Mgr) (id : Digest) (refs : list Reference)
  : Mgr * option error :=
  match refs with
  | [] => (mgr, None)
  | ref :: rest =>
      let '(mgr1, err) := clientRemoveImage mgr (RefString ref) in
      match err with
      | Some e => (mgr1, Some e)
      | None =>
          let '(mgr2, err) := storeRemoveReference mgr1 id ref in
          match err with
          | Some e => (mgr2, Some e)
          | None => removePrimaryReferences mgr2 id rest
          end
      end
  end.

(** The test that selects the branch removing every primary reference:
    the reference is an ID (name only) or a digest ID. *)
Definition byIdentity (id : Digest) (namedRef : Reference) : bool :=
  IsNamedOnly namedRef || HasPrefix id (RefString namedRef).

(** The body of [RemoveImage] after the reference is resolved and the
    cleanup is deferred. *)
Definition removeResolved (mgr : Mgr) (idOrRef : string) (force : bool)
  (id : Digest) (namedRef primaryRef : Reference) : Mgr * option error :=
  if IsNamedOnly namedRef || HasPrefix id (RefString namedRef)
  then
    if negb force && negb (uniqueLocatorReference (GetReferences (localStore mgr) id))
    then (mgr, Some (ErrNew ("Unable to remove the image " ++ fmt_q idOrRef
                             ++ " (must force) - image has serveral references")))
    else removePrimaryReferences mgr id (GetPrimaryReferences (localStore mgr) id)
  else
    let namedRef := TrimTagForDigest namedRef in
    if String.eqb (RefString primaryRef) (RefString namedRef)
    then
      let '(mgr1, err) := storeRemoveReference mgr id primaryRef in
      match err with
      | Some e => (mgr1, Some e)
      | None => clientRemoveImage mgr1 (RefString primaryRef)
      end
    else
      let mgr1 := LogImageEvent mgr (RefString namedRef) (RefString namedRef) "untag" in
      storeRemoveReference mgr1 id namedRef.

(** The deferred function of [RemoveImage]. *)
Definition clearIfNoPrimary (mgr : Mgr) (id : Digest) : Mgr :=
  if (Z.of_nat (length (GetPrimaryReferences (localStore mgr) id)) =? 0)%Z
  then withStore mgr (ClearCtrdImageInfo (localStore mgr) id)
  else mgr.

(** [ImageManager.RemoveImage]. *)
Definition RemoveImage (mgr : Mgr) (idOrRef : string) (force : bool)
  : Mgr * option error :=
  match CheckReference mgr idOrRef with
  | Err err => (mgr, Some err)
  | Ok (id, namedRef, primaryRef) =>
      let '(mgr1, err) := removeResolved mgr idOrRef force id namedRef primaryRef in
      (clearIfNoPrimary mgr1 id, err)
  end.

(* --------------------------------------------------------------------- *)
(** *** Tagging *)

(** [parseTagReference]. *)
Definition parseTagReference (targetTag : string) : Result Reference :=
  match Parse targetTag with
  | Err err => Err (ErrWrap ErrInvalidParam (Error err))
  | Ok ref => Ok (WithDefaultTagIfMissing ref)
  end.

(** [ImageManager.validateTagReference]. *)
Definition validateTagReference (mgr : Mgr) (ref : Reference) : option error :=
  if isDigested ref
  then Some (ErrWrap ErrInvalidParam
               ("target tag reference (" ++ RefString ref
                ++ ") cannot contains any digest information"))
  else
    match GetPrimaryReference (localStore mgr) ref with
    | Err _ => None
    | Ok pRef =>
        if String.eqb (RefString pRef) (RefString ref)
        then Some (ErrWrap ErrInvalidParam
                     ("the tag reference (" ++ RefString ref
                      ++ ") has been used as reference"))
        else None
    end.

(** [ImageManager.addReferenceIntoStore]. *)
Definition addReferenceIntoStore (mgr : Mgr) (id : Digest) (ref : Reference) (dig : Digest)
  : Mgr * option error :=
  let '(s1, err) := AddReference (localStore mgr) id ref ref in
  match err with
  | Some e => (withStore mgr s1, Some e)
  | None =>
      if IsNameTagged ref
      then
        let digRef := WithDigest ref dig in
        match Search s1 digRef with
        | Err err =>
            if IsNotfound err
            then let '(s2, err2) := AddReference s1 id ref digRef in
                 (withStore mgr s2, err2)
            else (withStore mgr s1, None)
        | Ok _ => (withStore mgr s1, None)
        end
      else (withStore mgr s1, None)
  end.

(** [ImageManager.StoreImageReference]. *)
Definition StoreImageReference (mgr : Mgr) (img : Image) : Mgr * option error :=
  match img_Config img with
  | Err e => (mgr, Some e)
  | Ok imgCfg =>
  match Parse (img_Name img) with
  | Err e => (mgr, Some e)
  | Ok namedRef =>
  match img_Size img with
  | Err e => (mgr, Some e)
  | Ok size =>
  match img_OciImage img with
  | Err e => (mgr, Some e)
  | Ok ociImg =>
      let '(mgr1, err) :=
        addReferenceIntoStore mgr (desc_Digest imgCfg) namedRef
                              (desc_Digest (img_Target img)) in
      match err with
      | Some e => (mgr1, Some e)
      | None =>
          (withStore mgr1
             (CacheCtrdImageInfo (localStore mgr1) (desc_Digest imgCfg)
                {| info_ID := desc_Digest imgCfg;
                   info_Size := size;
                   info_OCISpec := ociImg |}),
           None)
      end
  end end end end.

(** The steps of [AddTag] that follow the validation of the target. *)
Definition addValidatedTag (mgr : Mgr) (sourceImage : string) (tagRef : Reference)
  : Mgr * option error :=
  match fetchContainerdImage mgr sourceImage with
  | Err e => (mgr, Some e)
  | Ok ctrdImg =>
  match img_Config ctrdImg with
  | Err e => (mgr, Some e)
  | Ok cfg =>
      let '(mgr1, err) :=
        addReferenceIntoStore mgr (desc_Digest cfg) tagRef
                              (desc_Digest (img_Target ctrdImg)) in
      match err with
      | Some e => (mgr1, Some e)
      | None => clientCreateImageReference mgr1 (RefString tagRef) (img_Target ctrdImg)
      end
  end end.

(** [ImageManager.AddTag]. *)
Definition AddTag (mgr : Mgr) (sourceImage targetTag : string) : Mgr * option error :=
  let targetTag :=
    addDefaultRegistryIfMissing targetTag (DefaultRegistry mgr) (DefaultNamespace mgr) in
  match parseTagReference targetTag with
  | Err e => (mgr, Some e)
  | Ok tagRef =>
  match validateTagReference mgr tagRef with
  | Some e => (mgr, Some e)
  | None => addValidatedTag mgr sourceImage tagRef
  end end.

(* --------------------------------------------------------------------- *)
(** *** History *)

(** [ImageManager.getManifest]. *)
Definition getManifest (img : Image) : Result Manifest :=
  manifest <- img_Manifest img ;;
  diffIDs <- img_RootFS img ;;
  if negb (length (man_Layers manifest) =? length diffIDs)%nat
  then Err (ErrNew "mismatched image rootfs and manifest layers")
  else Ok manifest.

Definition zeroHistory : History :=
  {| hist_Created := 0%Z; hist_CreatedBy := ""; hist_Author := "";
     hist_Comment := ""; hist_EmptyLayer := false |}.

Definition zeroItem : HistoryResultItem :=
  {| hri_Created := 0%Z; hri_CreatedBy := ""; hri_Author := ""; hri_Comment := "";
     hri_EmptyLayer := false; hri_ID := ""; hri_Size := 0%Z |}.

Definition zeroDescriptor : Descriptor := {| desc_Digest := ""; desc_Size := 0%Z |}.

(** [history[i] = item] on a slice of fixed length. *)
Fixpoint setIndex (history : list HistoryResultItem) (i : nat) (item : HistoryResultItem)
  : list HistoryResultItem :=
  match history, i with
  | [], _ => []
  | _ :: rest, O => item :: rest
  | x :: rest, Datatypes.S i' => x :: setIndex rest i' item
  end.

Definition setID (item : HistoryResultItem) (id : string) : HistoryResultItem :=
  {| hri_Created := hri_Created item; hri_CreatedBy := hri_CreatedBy item;
     hri_Author := hri_Author item; hri_Comment := hri_Comment item;
     hri_EmptyLayer := hri_EmptyLayer item; hri_ID := id; hri_Size := hri_Size item |}.

Definition setSize (item : HistoryResultItem) (size : Z) : HistoryResultItem :=
  {| hri_Created := hri_Created item; hri_CreatedBy := hri_CreatedBy item;
     hri_Author := hri_Author item; hri_Comment := hri_Comment item;
     hri_EmptyLayer := hri_EmptyLayer item; hri_ID := hri_ID item; hri_Size := size |}.

(** The loop [for i := range ociImageHistory] of [ImageHistory], run on
    the indices [todo] still to visit, with the layer pointer [j] and the
    slice [history] filled so far. *)
Fixpoint historyLoop (desc : Descriptor) (ociImageHistory : list History)
  (layers : list Descriptor) (info : Digest -> Result Z)
  (todo : list nat) (j : Z) (history : list HistoryResultItem)
  : Result (Z * list HistoryResultItem) :=
  match todo with
  | [] => Ok (j, history)
  | i :: rest =>
      let lenOciImageHistory := length ociImageHistory in
      let h := nth (lenOciImageHistory - i - 1) ociImageHistory zeroHistory in
      let item :=
        {| hri_Created := hist_Created h;
           hri_CreatedBy := hist_CreatedBy h;
           hri_Author := hist_Author h;
           hri_Comment := hist_Comment h;
           hri_EmptyLayer := hist_EmptyLayer h;
           hri_ID := "<missing>";
           hri_Size := 0%Z |} in
      let item := if (i =? 0)%nat then setID item (desc_Digest desc) else item in
      if negb (hri_EmptyLayer item)
      then
        if (j <? 0)%Z
        then Err (ErrNew "number of manifest layers shouldn't be less than number of non-empty layer in history info")
        else
          size <- info (desc_Digest (nth (Z.to_nat j) layers zeroDescriptor)) ;;
          historyLoop desc ociImageHistory layers info rest (j - 1)%Z
                      (setIndex history i (setSize item size))
      else
        historyLoop desc ociImageHistory layers info rest j (setIndex history i item)
  end.

(** The part of [ImageHistory] that follows the fetches: from the config
    descriptor, the history of the OCI image, the layers of the manifest
    and the content store's [Info]. *)
Definition reconstructHistory (desc : Descriptor) (ociImageHistory : list History)
  (layers : list Descriptor) (info : Digest -> Result Z)
  : Result (list HistoryResultItem) :=
  let lenOciImageHistory := length ociImageHistory in
  let history := repeat zeroItem lenOciImageHistory in
  let j := (Z.of_nat (length layers) - 1)%Z in
  ' (j, history) <-
    historyLoop desc ociImageHistory layers info (seq 0 lenOciImageHistory) j history ;;
  if negb (j =? -1)%Z
  then Err (ErrNew "number of manifest layers shouldn't be greater than number of non-empty layer in history info")
  else Ok history.

(** [ImageManager.ImageHistory]. *)
Definition ImageHistory (mgr : Mgr) (idOrRef : string) : Result (list HistoryResultItem) :=
  img <- fetchContainerdImage mgr idOrRef ;;
  desc <- img_Config img ;;
  ociImg <- img_OciImage img ;;
  manifest <- getManifest img ;;
  reconstructHistory desc (oci_History ociImg) (man_Layers manifest) (img_ContentInfo img).

(* --------------------------------------------------------------------- *)
(** *** Listing *)

(** Modelled from the spec: the type test
    [ref.(reference.CanonicalDigested)], a digested reference whose
    digest has the expected format (section 4.1), which [Parse] checks. *)
Definition isCanonicalDigested (r : Reference) : bool := isDigested r.

(** The loop of [containerdImageToImageInfo] over the references of the
    image: the type switch puts a Tagged reference in [repoTags], and
    otherwise a CanonicalDigested one in [repoDigests]. *)
Fixpoint splitReferences (refs : list Reference) (repoTags repoDigests : list string)
  : list string * list string :=
  match refs with
  | [] => (repoTags, repoDigests)
  | ref :: rest =>
      if isTagged ref
      then splitReferences rest (append repoTags (RefString ref)) repoDigests
      else if isCanonicalDigested ref
      then splitReferences rest repoTags (append repoDigests (RefString ref))
      else splitReferences rest repoTags repoDigests
  end.

(** [ImageManager.containerdImageToImageInfo]. *)
Definition containerdImageToImageInfo (mgr : Mgr) (id : Digest) : Result ImageInfo :=
  match GetCtrdImageInfo (localStore mgr) id with
  | Err err =>
      match err with
      | errCtrdImageInfoNotExist =>
          Err (ErrWrap ErrNotfound
                 ("failed to get ctrd image info from cache by imageID: " ++ id))
      | _ => Err err
      end
  | Ok ctrdImageInfo =>
      let ociImg := info_OCISpec ctrdImageInfo in
      let '(repoTags, repoDigests) :=
        splitReferences (GetReferences (localStore mgr) (info_ID ctrdImageInfo)) [] [] in
      Ok {| ii_Architecture := oci_Architecture ociImg;
            ii_Config := getImageInfoConfigFromOciImage ociImg;
            ii_CreatedAt := time_Format (oci_Created ociImg);
            ii_ID := info_ID ctrdImageInfo;
            ii_Os := oci_OS ociImg;
            ii_RepoDigests := repoDigests;
            ii_RepoTags := repoTags;
            ii_RootFS := {| irf_Type := rootfs_Type (oci_RootFS ociImg);
                            irf_Layers := rootfs_DiffIDs (oci_RootFS ociImg) |};
            ii_Size := info_Size ctrdImageInfo |}
  end.

(** [ImageManager.GetImage]. *)
Definition GetImage (mgr : Mgr) (idOrRef : string) : Result ImageInfo :=
  ' (id, _, _) <- CheckReference mgr idOrRef ;;
  containerdImageToImageInfo mgr id.

(** The inner loop of [filterReference]: whether some pattern matches
    [ref], the patterns tried in order up to the first match. *)
Fixpoint matchPatterns (filter : list string) (ref : string) : Result bool :=
  match filter with
  | [] => Ok false
  | pattern :: rest =>
      found <- FamiliarMatch pattern ref ;;
      if found then Ok true else matchPatterns rest ref
  end.

(** The outer loop of [filterReference]. *)
Fixpoint filterLoop (filter : list string) (refs : list string) (filteredRefs : list string)
  : Result (list string) :=
  match refs with
  | [] => Ok filteredRefs
  | ref :: rest =>
      found <- matchPatterns filter ref ;;
      filterLoop filter rest (if found then append filteredRefs ref else filteredRefs)
  end.

(** [filterReference]. *)
Definition filterReference (filter ref : list string) : Result (list string) :=
  if (length filter =? 0)%nat then Ok ref
  else filterLoop filter ref [].

Definition setRepoDigests (i : ImageInfo) (l : list string) : ImageInfo :=
  {| ii_Architecture := ii_Architecture i; ii_Config := ii_Config i;
     ii_CreatedAt := ii_CreatedAt i; ii_ID := ii_ID i; ii_Os := ii_Os i;
     ii_RepoDigests := l; ii_RepoTags := ii_RepoTags i;
     ii_RootFS := ii_RootFS i; ii_Size := ii_Size i |}.

Definition setRepoTags (i : ImageInfo) (l : list string) : ImageInfo :=
  {| ii_Architecture := ii_Architecture i; ii_Config := ii_Config i;
     ii_CreatedAt := ii_CreatedAt i; ii_ID := ii_ID i; ii_Os := ii_Os i;
     ii_RepoDigests := ii_RepoDigests i; ii_RepoTags := l;
     ii_RootFS := ii_RootFS i; ii_Size := ii_Size i |}.

(** [Time.Equal], [Time.After] and [Time.Before] on instants. *)
Definition time_Equal (t u : Time) : bool := (t =? u)%Z.
Definition time_After (t u : Time) : bool := (t >? u)%Z.
Definition time_Before (t u : Time) : bool := (t <? u)%Z.

Definition isSome {A} (o : option A) : bool :=
  match o with Some _ => true | None => false end.

(** The loop [for _, img := range ctrdImageInfos] of [ListImages]. *)
Fixpoint listLoop (mgr : Mgr) (beforeFilter sinceFilter : option ImageInfo)
  (beforeTime sinceTime : Time) (referenceFilter : list string)
  (ctrdImageInfos : list CtrdImageInfo) (imgInfos : list ImageInfo)
  : Result (list ImageInfo) :=
  match ctrdImageInfos with
  | [] => Ok imgInfos
  | img :: rest =>
      let continue := listLoop mgr beforeFilter sinceFilter beforeTime sinceTime
                               referenceFilter rest in
      let created := oci_Created (info_OCISpec img) in
      if isSome beforeFilter
         && (time_Equal created beforeTime || time_After created beforeTime)
      then continue imgInfos
      else if isSome sinceFilter
              && (time_Equal created sinceTime || time_Before created sinceTime)
      then continue imgInfos
      else
        match containerdImageToImageInfo mgr (info_ID img) with
        | Err _ => continue imgInfos
        | Ok imgInfo =>
            if (length referenceFilter =? 0)%nat
            then continue (append imgInfos imgInfo)
            else
              match filterReference referenceFilter (ii_RepoDigests imgInfo) with
              | Err err => Err err
              | Ok repoDigests =>
                  let imgInfo := setRepoDigests imgInfo repoDigests in
                  match filterReference referenceFilter (ii_RepoTags imgInfo) with
                  | Err err => Err err
                  | Ok repoTags =>
                      let imgInfo := setRepoTags imgInfo repoTags in
                      if (0 <? length (ii_RepoTags imgInfo))%nat
                         || (0 <? length (ii_RepoDigests imgInfo))%nat
                      then continue (append imgInfos imgInfo)
                      else continue imgInfos
                  end
              end
        end
  end.

(** The resolution of a [before] or [since] filter in [ListImages]: the
    image of the first value and its creation time, nothing for no value. *)
Definition resolveTimeFilter (mgr : Mgr) (images : list string)
  : Result (option ImageInfo * Time) :=
  match images with
  | [] => Ok (None, 0%Z)
  | image :: _ =>
      info <- GetImage mgr image ;;
      t <- time_Parse (ii_CreatedAt info) ;;
      Ok (Some info, t)
  end.

(** [ImageManager.ListImages]. *)
Definition ListImages (mgr : Mgr) (filter : Args) : Result (list ImageInfo) :=
  match filter_Validate filter acceptedImageFilterTags with
  | Some err => Err err
  | None =>
      let beforeImages := filter_Get filter "before" in
      let sinceImages := filter_Get filter "since" in
      let referenceFilter := filter_Get filter "reference" in
      if (1 <? length beforeImages)%nat
      then Err (ErrWrap ErrInvalidParam "can't use before filter more than one")
      else if (1 <? length sinceImages)%nat
      then Err (ErrWrap ErrInvalidParam "can't use since filter more than one")
      else
        let ctrdImageInfos := ListCtrdImageInfo (localStore mgr) in
        ' (beforeFilter, beforeTime) <- resolveTimeFilter mgr beforeImages ;;
        ' (sinceFilter, sinceTime) <- resolveTimeFilter mgr sinceImages ;;
        listLoop mgr beforeFilter sinceFilter beforeTime sinceTime referenceFilter
                 ctrdImageInfos []
  end.

End Manager.

(* ===================================================================== *)
(** ** Pulling, loading at start-up, and the removal handler *)
(* ===================================================================== *)

(** The calls of [ctrd.APIClient] made by [PullImage] and
    [updateLocalStore].  The credentials and the progress that the client
    itself writes to the stream are left to the client. *)
Class ImagePuller (C : Type) : Type := {
  client_PullImage : C -> string -> list string -> C * Result Image;
  client_ListImages : C -> Result (list Image)
}.

(** [mgr.Container]: the fields the removal handler reads. *)
Record Container : Type := {
  ctr_ID : string;
  ctr_Name : string;
  ctr_Image : string
}.

(** [ContainerMgr.List] with the option [All] and a filter function, on
    a state [K] of the container manager. *)
Class ContainerMgr (K : Type) : Type := {
  container_List : K -> (Container -> bool) -> Result (list Container)
}.

(** What [PullImage] does with its JSON stream and its cancel function,
    in program order, with the call to the client between them. *)
Inductive PullOp : Type :=
| CallPullImage (target : string) (fullRefs : list string)
| WriteObject (code : Z) (message : string)
| StreamClose
| StreamWait
| Cancel
| PostPull (name : string).

(** A call either returns or panics. *)
Inductive Outcome (A : Type) : Type :=
| Returned (a : A)
| Panicked (msg : string).
Arguments Returned {A} a.
Arguments Panicked {A} msg.

(** [strings.Index(s, ":")] as an option. *)
Fixpoint indexColon (s : string) : option nat :=
  match s with
  | EmptyString => None
  | String a s' =>
      if Ascii.eqb a ":"%char then Some 0
      else match indexColon s' with
           | Some i => Some (Datatypes.S i)
           | None => None
           end
  end.

(** [Digest.Hex()] of go-digest: the text after the first colon; the
    call panics on a digest without colon. *)
Definition digest_Hex (d : Digest) : Outcome string :=
  match indexColon d with
  | Some i => Returned (String.substring (Datatypes.S i) (String.length d - Datatypes.S i) d)
  | None => Panicked ("no ':' separator in digest " ++ fmt_q d)
  end.

Section Daemon.
Context {S C K : Type} {store : ImageStore S} {api : APIClient C}
        {puller : ImagePuller C} {ctrs : ContainerMgr K} {imp : Imports}.

Local Abbreviation Mgr := (ImageManager S C).

(** The manager after a call to the client that is not among the
    effects recorded in it. *)
Definition setClient (mgr : Mgr) (c : C) : Mgr :=
  {| DefaultRegistry := DefaultRegistry mgr;
     DefaultNamespace := DefaultNamespace mgr;
     RegistryMirrors := RegistryMirrors mgr;
     client := c;
     localStore := localStore mgr;
     effects := effects mgr |}.

(** The closure [closeStream] of [PullImage]. *)
Definition closeStream : list PullOp := [StreamClose; StreamWait; Cancel].

(** The closure [writeStream] of [PullImage]: the error is sent to the
    client with the code of an internal server error, then the stream is
    closed. *)
Definition writeStream (err : error) : list PullOp :=
  (WriteObject 500 (Error err) :: closeStream)%list.

(** [ImageManager.PullImage], with the plugin field of the manager as the
    argument [imagePlugin], [None] for a nil plugin. *)
Definition PullImage (mgr : Mgr) (imagePlugin : option (Image -> option error))
  (ref : string) : Mgr * list PullOp * option error :=
  match Parse ref with
  | Err err => (mgr, [], Some err)
  | Ok namedRef =>
      let fullRefs := LookupImageReferences mgr ref in
      let namedRef := TrimTagForDigest (WithDefaultTagIfMissing namedRef) in
      let '(c, pulled) := client_PullImage (client mgr) (RefString namedRef) fullRefs in
      let mgr := setClient mgr c in
      let ops := [CallPullImage (RefString namedRef) fullRefs] in
      match pulled with
      | Err err => (mgr, (ops ++ writeStream err)%list, Some err)
      | Ok img =>
          let ops := (ops ++ closeStream)%list in
          let afterPlugin :=
            match imagePlugin with
            | Some postPull =>
                (append ops (PostPull (img_Name img)), postPull img)
            | None => (ops, None)
            end in
          match snd afterPlugin with
          | Some err => (mgr, fst afterPlugin, Some err)
          | None =>
              let mgr := LogImageEvent mgr (img_Name img) (RefString namedRef) "pull" in
              let '(mgr, err) := StoreImageReference mgr img in
              (mgr, fst afterPlugin, err)
          end
      end
  end.

(** The loop of [updateLocalStore]: a failure to store one image is
    logged and the loop goes on. *)
Fixpoint storeImageReferences (mgr : Mgr) (imgs : list Image) : Mgr :=
  match imgs with
  | [] => mgr
  | img :: rest => storeImageReferences (fst (StoreImageReference mgr img)) rest
  end.

(** [ImageManager.updateLocalStore]. *)
Definition updateLocalStore (mgr : Mgr) : Mgr * option error :=
  match client_ListImages (client mgr) with
  | Err err => (mgr, Some err)
  | Ok imgs => (storeImageReferences mgr imgs, None)
  end.

(** The closure [isImageIDPrefix] of the handler [removeImage]. *)
Definition isImageIDPrefix (imageID name : string) : Outcome bool :=
  if HasPrefix imageID name then Returned true
  else match digest_Hex imageID with
       | Returned hex => Returned (HasPrefix hex name)
       | Panicked msg => Panicked msg
       end.

(** The test [len(refs) == 1 || isImageIDPrefix(image.ID, name)]. *)
Definition checksContainers (refs : list Reference) (imageID name : string) : Outcome bool :=
  if (length refs =? 1)%nat then Returned true
  else isImageIDPrefix imageID name.

(** [Server.removeImage], for the image [name] of the route and the
    value [isForce] of the query; it returns the status written on
    success.  The metrics are not part of the model. *)
Definition server_removeImage (mgr : Mgr) (k : K) (name : string) (isForce : bool)
  : Outcome (Mgr * Result Z) :=
  match GetImage mgr name with
  | Err err => Returned (mgr, Err err)
  | Ok image =>
      match ListReferences mgr (ii_ID image) with
      | (_, Some err) => Returned (mgr, Err err)
      | (refs, None) =>
          let remove :=
            match RemoveImage mgr name isForce with
            | (mgr', Some err) => Returned (mgr', Err err)
            | (mgr', None) => Returned (mgr', Ok 204%Z)
            end in
          match checksContainers refs (ii_ID image) name with
          | Panicked msg => Panicked msg
          | Returned false => remove
          | Returned true =>
              match container_List k (fun c => String.eqb (ctr_Image c) (ii_ID image)) with
              | Err err => Returned (mgr, Err err)
              | Ok containers =>
                  match containers with
                  | c0 :: _ =>
                      if negb isForce
                      then Returned
                             (mgr,
                              Err (ErrNew ("Unable to remove the image " ++ fmt_q (ii_ID image)
                                           ++ " (must force) - container (" ++ ctr_ID c0
                                           ++ ", " ++ ctr_Name c0
                                           ++ ") is using this image")))
                      else remove
                  | [] => remove
                  end
              end
          end
      end
  end.

End Daemon.

(* ===================================================================== *)
(** ** The local reference store, after section 4.3 of the spec *)
(* ===================================================================== *)

Module LocalStore.

(** Modelled from the spec: the exact match of section 4.3; references
    are compared by their string form, as the manager does. *)
Definition ref_eqb (a b : Reference) : bool := String.eqb (RefString a) (RefString b).

(** Modelled from the spec: one registration
    [addReference(id, candidateRef, storedRef)] of section 4.3. *)
Record entry : Type := {
  ent_id : Digest;
  ent_candidate : Reference;
  ent_ref : Reference
}.

(** Modelled from the spec: the type [imageStore] and its methods are
    absent from the sources.  Section 4.3: an index from references to
    image digests, each reference flagged primary or searchable, and a
    metadata cache by digest.  Registrations are kept in the order they
    were made. *)
Record imageStore : Type := {
  refs : list entry;
  infos : list (Digest * CtrdImageInfo)
}.

Definition empty : imageStore := {| refs := []; infos := [] |}.

(** Modelled from the spec: a registration is primary when the candidate
    is the stored reference itself, searchable otherwise (section 4.3). *)
Definition isPrimary (e : entry) : bool := ref_eqb (ent_candidate e) (ent_ref e).

Definition lookupRef (s : imageStore) (r : Reference) : option entry :=
  find (fun e => ref_eqb (ent_ref e) r) (refs s).

(** Modelled from the spec: [search(ref)], exact-match reverse lookup. *)
Definition search (s : imageStore) (r : Reference) : Result (Digest * Reference) :=
  match lookupRef s r with
  | Some e => Ok (ent_id e, ent_ref e)
  | None => Err ErrNotfound
  end.

(** Modelled from the spec: [getPrimaryReference(ref)], the primary
    reference sharing the id of an exact reference: itself when it is
    primary, the candidate it was derived from when it is searchable. *)
Definition getPrimaryReference (s : imageStore) (r : Reference) : Result Reference :=
  match lookupRef s r with
  | Some e => Ok (ent_candidate e)
  | None => Err ErrNotfound
  end.

(** Modelled from the spec: [getPrimaryReferences(id)] and
    [getReferences(id)], all references of a kind for an id. *)
Definition getPrimaryReferences (s : imageStore) (id : Digest) : list Reference :=
  map ent_ref (filter (fun e => String.eqb (ent_id e) id && isPrimary e) (refs s)).

Definition getReferences (s : imageStore) (id : Digest) : list Reference :=
  map ent_ref (filter (fun e => String.eqb (ent_id e) id) (refs s)).

(** Modelled from the spec: [addReference(id, candidateRef, storedRef)]
    registers [storedRef] under [id] and fails if [storedRef] already maps
    to a different id; registering it again under the same id replaces
    the registration. *)
Definition addReference (s : imageStore) (id : Digest) (candidate stored : Reference)
  : imageStore * option error :=
  match lookupRef s stored with
  | Some e =>
      if String.eqb (ent_id e) id
      then ({| refs := append (filter (fun e' => negb (ref_eqb (ent_ref e') stored)) (refs s))
                              {| ent_id := id; ent_candidate := candidate; ent_ref := stored |};
               infos := infos s |}, None)
      else (s, Some (ErrNew ("reference " ++ RefString stored
                             ++ " is used by a different image")))
  | None =>
      ({| refs := append (refs s)
                         {| ent_id := id; ent_candidate := candidate; ent_ref := stored |};
          infos := infos s |}, None)
  end.

(** Modelled from the spec: [removeReference(id, ref)] deletes the
    mapping and is a no-op if it is absent; the cache is left to the
    caller. *)
Definition removeReference (s : imageStore) (id : Digest) (r : Reference)
  : imageStore * option error :=
  ({| refs := filter (fun e => negb (String.eqb (ent_id e) id && ref_eqb (ent_ref e) r))
                     (refs s);
      infos := infos s |}, None).

(** Modelled from the spec: [evictMetadata(id)]. *)
Definition evictMetadata (s : imageStore) (id : Digest) : imageStore :=
  {| refs := refs s;
     infos := filter (fun p => negb (String.eqb (fst p) id)) (infos s) |}.

(** Modelled from the spec: [cacheMetadata(id, info)]. *)
Definition cacheMetadata (s : imageStore) (id : Digest) (info : CtrdImageInfo) : imageStore :=
  {| refs := refs s;
     infos := append (infos (evictMetadata s id)) (id, info) |}.

(** Modelled from the spec: [getMetadata(id)], the entry or not found. *)
Definition getMetadata (s : imageStore) (id : Digest) : Result CtrdImageInfo :=
  match find (fun p => String.eqb (fst p) id) (infos s) with
  | Some p => Ok (snd p)
  | None => Err errCtrdImageInfoNotExist
  end.

(** Modelled from the spec: [listMetadata()], all entries. *)
Definition listMetadata (s : imageStore) : list CtrdImageInfo := map snd (infos s).

#[global] Instance imageStore_ops : ImageStore imageStore := {|
  Search := search;
  GetPrimaryReference := getPrimaryReference;
  GetPrimaryReferences := getPrimaryReferences;
  GetReferences := getReferences;
  AddReference := addReference;
  RemoveReference := removeReference;
  CacheCtrdImageInfo := cacheMetadata;
  GetCtrdImageInfo := getMetadata;
  ClearCtrdImageInfo := evictMetadata;
  ListCtrdImageInfo := listMetadata
|}.

(** No reference is registered twice. *)
Definition uniqueRefs (s : imageStore) : Prop :=
  NoDup (map (fun e => RefString (ent_ref e)) (refs s)).

End LocalStore.

(** The store of section 4.3 with the lookup by ID that the resolution
    of section 4.4 counts on: [CheckReference] searches the input as it
    is first, because it may be an ID or a short ID (lines 858-860), and
    takes a match that is name-only or a prefix of the digest for an ID
    (lines 884-887). *)
Module IDStore.

(** Modelled from the spec: the store of section 4.3 together with the
    digests of the images it holds references for, most recent first. *)
Record idStore : Type := {
  base : LocalStore.imageStore;
  ids : list Digest
}.

(** Modelled from the spec: the store before any registration. *)
Definition empty : idStore := {| base := LocalStore.empty; ids := [] |}.

(** Modelled from the spec: a reference is an ID or short ID of a
    digest (sections 3 and 4.4) when its string is a prefix of the
    digest, or of the digest without its algorithm. *)
Definition isIDOf (r : Reference) (id : Digest) : bool :=
  HasPrefix id (RefString r) || HasPrefix id ("sha256:" ++ RefString r).

(** Modelled from the spec: the store takes the reference for an ID or
    short ID of one of its images. *)
Definition asID (s : idStore) (r : Reference) : bool := existsb (isIDOf r) (ids s).

(** Modelled from the spec: [search(ref)] of section 4.3, with the input
    of section 4.4 that is an ID or short ID of an image of the store
    resolved to its digest, the reference itself being the match; the
    exact match otherwise. *)
Definition search (s : idStore) (r : Reference) : Result (Digest * Reference) :=
  match find (isIDOf r) (ids s) with
  | Some id => Ok (id, r)
  | None => LocalStore.search (base s) r
  end.

(** Modelled from the spec: a registration that succeeds makes the
    digest one of the store. *)
Definition addReference (s : idStore) (id : Digest) (candidate stored : Reference)
  : idStore * option error :=
  let out := LocalStore.addReference (base s) id candidate stored in
  ({| base := fst out;
      ids := match snd out with
             | None => if existsb (String.eqb id) (ids s) then ids s else id :: ids s
             | Some _ => ids s
             end |},
   snd out).

(** Modelled from the spec: a digest stays one of the store as long as
    a reference is registered for it. *)
Definition removeReference (s : idStore) (id : Digest) (r : Reference)
  : idStore * option error :=
  let out := LocalStore.removeReference (base s) id r in
  ({| base := fst out;
      ids := filter (fun d => existsb (fun e => String.eqb (LocalStore.ent_id e) d)
                                      (LocalStore.refs (fst out)))
                    (ids s) |},
   snd out).

#[global] Instance idStore_ops : ImageStore idStore := {|
  Search := search;
  GetPrimaryReference := fun s => LocalStore.getPrimaryReference (base s);
  GetPrimaryReferences := fun s => LocalStore.getPrimaryReferences (base s);
  GetReferences := fun s => LocalStore.getReferences (base s);
  AddReference := addReference;
  RemoveReference := removeReference;
  CacheCtrdImageInfo := fun s id info =>
    {| base := LocalStore.cacheMetadata (base s) id info; ids := ids s |};
  GetCtrdImageInfo := fun s => LocalStore.getMetadata (base s);
  ClearCtrdImageInfo := fun s id =>
    {| base := LocalStore.evictMetadata (base s) id; ids := ids s |};
  ListCtrdImageInfo := fun s => LocalStore.listMetadata (base s)
|}.

End IDStore.

(** What the manager relies on when it leaves the cache to its deferred
    cleanup: removing a reference does not touch the metadata cache, and
    clearing the entry of a digest removes that entry and nothing else. *)
Class ImageStoreLaws (S : Type) {store : ImageStore S} : Prop := {
  RemoveReference_cache : forall s id r d,
    GetCtrdImageInfo (fst (RemoveReference s id r)) d = GetCtrdImageInfo s d;
  Clear_cache_same : forall s id,
    GetCtrdImageInfo (ClearCtrdImageInfo s id) id = Err errCtrdImageInfoNotExist;
  Clear_cache_other : forall s id d, d <> id ->
    GetCtrdImageInfo (ClearCtrdImageInfo s id) d = GetCtrdImageInfo s d;
  Clear_refs : forall s id d,
    GetPrimaryReferences (ClearCtrdImageInfo s id) d = GetPrimaryReferences s d
}.

(** What the manager relies on when it removes a reference: a removal
    that succeeds takes the reference out of the primary references of
    the digest and leaves the others. *)
Class ImageStoreRemovalLaws (S : Type) {store : ImageStore S} : Prop := {
  RemoveReference_primaries : forall s id r s',
    RemoveReference s id r = (s', None) ->
    GetPrimaryReferences s' id
    = filter (fun r' => negb (String.eqb (RefString r') (RefString r)))
             (GetPrimaryReferences s id)
}.

(** What the manager relies on when it resolves a reference it has just
    registered.  A store may take a reference for an ID or a short ID of
    one of its images and answer [Search] from the digests it holds:
    [asID s r] tells that the store [s] does so for [r], and the laws on
    [Search] are for the references it does not, which are found by what
    was registered.  A registration that succeeds makes the reference
    found, under its digest and with its candidate as primary reference,
    and leaves the answers for the other references as they were;
    caching metadata makes it found and leaves the references alone.  A
    reference that is not taken for an ID after a registration or after
    caching was not taken for one before. *)
Class ImageStoreIndexLaws (S : Type) {store : ImageStore S} (asID : S -> Reference -> bool)
  : Prop := {
  AddReference_search : forall s id candidate r s',
    AddReference s id candidate r = (s', None) ->
    asID s' r = false -> Search s' r = Ok (id, r);
  AddReference_primary : forall s id candidate r s',
    AddReference s id candidate r = (s', None) -> GetPrimaryReference s' r = Ok candidate;
  AddReference_other_search : forall s id candidate r r',
    RefString r' <> RefString r ->
    asID (fst (AddReference s id candidate r)) r' = false ->
    Search (fst (AddReference s id candidate r)) r' = Search s r';
  AddReference_other_primary : forall s id candidate r r',
    RefString r' <> RefString r ->
    GetPrimaryReference (fst (AddReference s id candidate r)) r' = GetPrimaryReference s r';
  AddReference_asID : forall s id candidate r r',
    asID (fst (AddReference s id candidate r)) r' = false -> asID s r' = false;
  Cache_get : forall s id info,
    GetCtrdImageInfo (CacheCtrdImageInfo s id info) id = Ok info;
  Cache_search : forall s id info r,
    asID (CacheCtrdImageInfo s id info) r = false ->
    Search (CacheCtrdImageInfo s id info) r = Search s r;
  Cache_primary : forall s id info r,
    GetPrimaryReference (CacheCtrdImageInfo s id info) r = GetPrimaryReference s r;
  Cache_asID : forall s id info r,
    asID (CacheCtrdImageInfo s id info) r = false -> asID s r = false
}.

(* ===================================================================== *)
(** ** A daemon to run the manager on *)
(* ===================================================================== *)

Module Sample.

(** Modelled from the spec: the remote content client of section 6, with
    the records of the content store's metadata kept by image name:
    [getImage] finds a record, [removeImage] deletes one and
    [createImageReference] adds a name for a target already present. *)
Definition remote : Type := list Image.

Definition remoteGet (c : remote) (name : string) : Result Image :=
  match find (fun i => String.eqb (img_Name i) name) c with
  | Some i => Ok i
  | None => Err (ErrNew ("image " ++ name ++ ": not found"))
  end.

Definition remoteRemove (c : remote) (name : string) : remote * option error :=
  match find (fun i => String.eqb (img_Name i) name) c with
  | Some _ => (filter (fun i => negb (String.eqb (img_Name i) name)) c, None)
  | None => (c, Some (ErrNew ("image " ++ name ++ ": not found")))
  end.

Definition rename (i : Image) (name : string) : Image :=
  {| img_Name := name; img_Target := img_Target i; img_Config := img_Config i;
     img_Size := img_Size i; img_RootFS := img_RootFS i;
     img_OciImage := img_OciImage i; img_Manifest := img_Manifest i;
     img_ContentInfo := img_ContentInfo i |}.

Definition remoteCreate (c : remote) (name : string) (target : Descriptor)
  : remote * option error :=
  match find (fun i => String.eqb (img_Name i) name) c with
  | Some _ => (c, Some (ErrNew ("image " ++ name ++ ": already exists")))
  | None =>
      match find (fun i => String.eqb (desc_Digest (img_Target i)) (desc_Digest target)) c with
      | Some i => (append c (rename i name), None)
      | None => (c, Some (ErrNew ("target of " ++ name ++ ": not found")))
      end
  end.

Definition client_ops : APIClient remote := {|
  client_GetImage := remoteGet;
  client_RemoveImage := remoteRemove;
  client_CreateImageReference := remoteCreate
|}.

(** The text before the first [c] of [s] and, when there is one, the
    text after it. *)
Fixpoint cut (c : ascii) (s : string) : string * option string :=
  match s with
  | EmptyString => ("", None)
  | String a s' =>
      if Ascii.eqb a c then ("", Some s')
      else let '(h, t) := cut c s' in (String a h, t)
  end.

Definition nonEmpty (o : option string) : bool :=
  match o with
  | Some s => negb (String.eqb s "")
  | None => true
  end.

(** Modelled from the spec: [reference.Parse] of section 4.1, which
    recognises an optional [@digest] suffix and an optional [:tag] suffix
    of the last path element; of the syntax checks, only that the name
    and a suffix that is present are not empty. *)
Definition parse (s : string) : Result Reference :=
  let '(named, dig) := cut "@"%char s in
  let elems := splitSlash "" named in
  let '(base, tag) := cut ":"%char (last elems "") in
  let name := joinSlash (removelast elems ++ [base])%list in
  if negb (String.eqb name "") && nonEmpty tag && nonEmpty dig
  then Ok {| Name := name; Tag := tag; RefDigest := dig |}
  else Err (ErrNew "invalid reference").

(** Modelled from the spec: [addDefaultRegistryIfMissing], the final
    candidate of the expansion of section 4.2: the default registry for a
    reference without domain, and the default namespace for a remainder
    without slash in the default registry. *)
Definition qualify (ref defaultRegistry defaultNamespace : string) : string :=
  let idx := IndexRune ref slash in
  let '(registry, remainder) :=
    if negb (idx =? -1)%Z && ContainsAny (sliceTo ref idx) ".:"
    then (sliceTo ref idx, sliceFrom ref (idx + 1))
    else (defaultRegistry, ref) in
  let remainder :=
    if String.eqb registry defaultRegistry && negb (ContainsAny remainder "/")
    then defaultNamespace ++ "/" ++ remainder
    else remainder in
  registry ++ "/" ++ remainder.

(** Modelled from the spec: [Args.Validate], which accepts a filter set
    restricted to the accepted keys. *)
Fixpoint validate (filter : Args) (accepted : string -> bool) : option error :=
  match filter with
  | [] => None
  | (k, _) :: rest =>
      if accepted k then validate rest accepted
      else Some (ErrNew ("Invalid filter '" ++ k ++ "'"))
  end.

(** Modelled from the spec: the glob-style patterns of section 4.9,
    with [*] for any run of bytes other than a slash. *)
Fixpoint glob (pattern : string) : string -> bool :=
  match pattern with
  | EmptyString => fun s => String.eqb s ""
  | String p pattern' =>
      if Ascii.eqb p "*"%char
      then fix star (s : string) : bool :=
             glob pattern' s
             || match s with
                | EmptyString => false
                | String a s' => negb (Ascii.eqb a slash) && star s'
                end
      else fun s =>
             match s with
             | EmptyString => false
             | String a s' => Ascii.eqb a p && glob pattern' s'
             end
  end.

(** Modelled from the spec: [filters.FamiliarMatch], the glob-style match
    of section 4.9, tried on the name and on its part after the last
    slash. *)
Definition familiar (pattern ref : string) : bool :=
  glob pattern ref || glob pattern (last (splitSlash "" ref) "").

Definition familiarMatch (pattern ref : string) : Result bool :=
  Ok (familiar pattern ref).

(** Modelled from the spec: [utils.TimeLayout] is absent from the
    sources; the creation time is written in a layout that [time_parse]
    reads back, here the instant in decimal. *)
Definition time_format (t : Time) : string := NilEmpty.string_of_int (Z.to_int t).

Definition time_parse (s : string) : Result Time :=
  match NilEmpty.int_of_string s with
  | Some d => Ok (Z.of_int d)
  | None => Err (ErrNew "cannot parse time")
  end.

(** Modelled from the spec: the texts of the sentinels of [errtypes] are
    absent from the sources; a wrapped error prints its message before
    the text of its cause. *)
Fixpoint errorText (e : error) : string :=
  match e with
  | ErrNotfound => "not found"
  | ErrInvalidParam => "invalid param"
  | errCtrdImageInfoNotExist => "image info not exist in cache"
  | ErrNew msg => msg
  | ErrWrap cause msg => msg ++ ": " ++ errorText cause
  end.

Definition imports : Imports := {|
  Error := errorText;
  Parse := parse;
  addDefaultRegistryIfMissing := qualify;
  filter_Validate := validate;
  FamiliarMatch := familiarMatch;
  time_Format := time_format;
  time_Parse := time_parse;
  getImageInfoConfigFromOciImage := oci_Config
|}.

#[export] Existing Instance client_ops.
#[export] Existing Instance imports.

Definition daemon (c : remote) (s : LocalStore.imageStore)
  : ImageManager LocalStore.imageStore remote :=
  {| DefaultRegistry := "reg.example";
     DefaultNamespace := "library";
     RegistryMirrors := ["m1"; "m2"];
     client := c;
     localStore := s;
     effects := [] |}.

Definition mkRef (name : string) (tag dig : option string) : Reference :=
  {| Name := name; Tag := tag; RefDigest := dig |}.

Definition mkHistory (created : Time) (by_ : string) (emptyLayer : bool) : History :=
  {| hist_Created := created; hist_CreatedBy := by_; hist_Author := "";
     hist_Comment := ""; hist_EmptyLayer := emptyLayer |}.

Definition mkLayer (d : Digest) (size : Z) : Descriptor :=
  {| desc_Digest := d; desc_Size := size |}.

(** An image pulled under [name] with config digest [id], manifest digest
    [target], creation time [created], the given history and layers. *)
Definition mkImage (name : string) (id target : Digest) (created : Time)
  (history : list History) (layers : list Descriptor) : Image :=
  {| img_Name := name;
     img_Target := mkLayer target 0%Z;
     img_Config := Ok (mkLayer id 0%Z);
     img_Size := Ok (fold_right (fun l acc => (desc_Size l + acc)%Z) 0%Z layers);
     img_RootFS := Ok (map desc_Digest layers);
     img_OciImage :=
       Ok {| oci_Created := created; oci_Architecture := "amd64"; oci_OS := "linux";
             oci_Config := [];
             oci_RootFS := {| rootfs_Type := "layers";
                              rootfs_DiffIDs := map desc_Digest layers |};
             oci_History := history |};
     img_Manifest := Ok {| man_Layers := layers |};
     img_ContentInfo := fun d =>
       match find (fun l => String.eqb (desc_Digest l) d) layers with
       | Some l => Ok (desc_Size l)
       | None => Err ErrNotfound
       end |}.

(** The daemon after it has loaded the images of the content store, as
    [updateLocalStore] does with [StoreImageReference]. *)
Definition boot (c : remote) : ImageManager LocalStore.imageStore remote :=
  fold_left (fun mgr img => fst (StoreImageReference mgr img)) c (daemon c LocalStore.empty).

(** The content store of the examples: three images pulled by tag and one
    pulled by digest. *)
Definition busybox : Image :=
  mkImage "reg.example/library/busybox:latest" "sha256:b1" "sha256:mb" 100%Z
          [mkHistory 10%Z "ADD rootfs" false; mkHistory 20%Z "ENV PATH" true;
           mkHistory 30%Z "RUN install" false]
          [mkLayer "sha256:l0" 10%Z; mkLayer "sha256:l1" 20%Z].

Definition ubuntu : Image :=
  mkImage "reg.example/library/ubuntu:16.04" "sha256:u1" "sha256:mu" 200%Z
          [mkHistory 40%Z "ADD rootfs" false] [mkLayer "sha256:l2" 30%Z].

Definition alpine : Image :=
  mkImage "reg.example/library/alpine:latest" "sha256:a1" "sha256:ma" 300%Z
          [mkHistory 50%Z "ADD rootfs" false] [mkLayer "sha256:l3" 5%Z].

Definition redis : Image :=
  mkImage "reg.example/library/redis@sha256:mr" "sha256:r1" "sha256:mr" 400%Z
          [mkHistory 60%Z "ADD rootfs" false] [mkLayer "sha256:l4" 50%Z].

Definition content : remote := [busybox; ubuntu; alpine; redis].

Definition booted : ImageManager LocalStore.imageStore remote := boot content.

(** The daemon with one more name for the busybox image: a searchable
    reference in another registry. *)
Definition aliased : ImageManager LocalStore.imageStore remote :=
  withStore booted
    (fst (AddReference (localStore booted) "sha256:b1"
            (mkRef "reg.example/library/busybox" (Some "latest") None)
            (mkRef "localhost:5000/busybox" None None))).

(** The daemon with a searchable reference with a tag, in another
    registry, for the busybox image. *)
Definition mirrored : ImageManager LocalStore.imageStore remote :=
  withStore booted
    (fst (AddReference (localStore booted) "sha256:b1"
            (mkRef "reg.example/library/busybox" (Some "latest") None)
            (mkRef "localhost:5000/busybox" (Some "latest") None))).

(** Images whose manifest and history disagree on the number of layers. *)
Definition shortManifest : Image :=
  mkImage "reg.example/library/short:1" "sha256:s1" "sha256:ms" 500%Z
          [mkHistory 1%Z "ADD rootfs" false; mkHistory 2%Z "RUN build" false]
          [mkLayer "sha256:l5" 7%Z].

Definition longManifest : Image :=
  mkImage "reg.example/library/long:1" "sha256:g1" "sha256:mg" 600%Z
          [mkHistory 1%Z "ADD rootfs" false; mkHistory 2%Z "ENV PATH" true]
          [mkLayer "sha256:l6" 7%Z; mkLayer "sha256:l7" 8%Z; mkLayer "sha256:l8" 9%Z].

(** The size the content store of an image gives for a digest. *)
Definition sizeIn (img : Image) (d : Digest) : Z :=
  match img_ContentInfo img d with
  | Ok size => size
  | Err _ => 0%Z
  end.

End Sample.

(* ===================================================================== *)
(** ** Statements of the spec that the code is compared with *)
(* ===================================================================== *)

Section Statements.
Context {S C : Type} {store : ImageStore S} {api : APIClient C} {imp : Imports}.

Local Abbreviation Mgr := (ImageManager S C).

(** Step 3 of section 4.4: the answer of the resolution on a hit with
    digest [id] and matched reference [m]. *)
Definition primaryOnHit (mgr : Mgr) (id : Digest) (m : Reference)
  (answer : Result (Digest * Reference * Reference)) : Prop :=
  if IsNamedOnly m || HasPrefix id (RefString m)
  then match hd_error (GetPrimaryReferences (localStore mgr) id) with
       | Some p => answer = Ok (id, m, p)
       | None => answer = Err ErrNotfound
       end
  else match GetPrimaryReference (localStore mgr) m with
       | Ok p => answer = Ok (id, m, p)
       | Err e => answer = Err e
       end.

(** [RemoveImage] refuses: it returns an error and has done nothing. *)
Definition refused (mgr : Mgr) (idOrRef : string) (force : bool) : Prop :=
  exists e, snd (RemoveImage mgr idOrRef force) = Some e
            /\ effects (fst (RemoveImage mgr idOrRef force)) = effects mgr.

(** Section 4.8, identity removal, as the spec words its safety check:
    without force the removal is refused exactly when the primary
    references span more than one locator. *)
Definition refusedByPrimaryLocators (mgr : Mgr) (idOrRef : string) : Prop :=
  forall id namedRef primaryRef,
    CheckReference mgr idOrRef = Ok (id, namedRef, primaryRef) ->
    byIdentity id namedRef = true ->
    (refused mgr idOrRef false
     <-> uniqueLocatorReference (GetPrimaryReferences (localStore mgr) id) = false).

(** Section 4.8, named removal, as the spec words it: the digest suffix
    is stripped first, and a stripped reference that is not the primary
    reference is untagged without a call to the remote store. *)
Definition untagsStrippedDigest (mgr : Mgr) (idOrRef : string) (force : bool) : Prop :=
  forall id namedRef primaryRef,
    CheckReference mgr idOrRef = Ok (id, namedRef, primaryRef) ->
    byIdentity id namedRef = false ->
    let stripped := StripDigest namedRef in
    RefString stripped <> RefString primaryRef ->
    effects (fst (RemoveImage mgr idOrRef force))
    = append (effects mgr) (ImageEvent (RefString stripped) (RefString stripped) "untag").

(** Removing the references [refs] in sequence, from the remote store
    in the state [c] and from the local index in the state [s], meets no
    failure: each reference is removed by both without error, in the
    states that the removals before it have left. *)
Fixpoint succeeded (c : C) (s : S) (id : Digest) (refs : list Reference) : Prop :=
  match refs with
  | [] => True
  | r :: rest =>
      snd (client_RemoveImage c (RefString r)) = None
      /\ snd (RemoveReference s id r) = None
      /\ succeeded (fst (client_RemoveImage c (RefString r))) (fst (RemoveReference s id r))
                   id rest
  end.

(** The references of [refs] are all removed, from the remote store and
    from the local index, between [mgr] and [mgr']: every removal has
    succeeded, and nothing else was done. *)
Definition removedAll (mgr : Mgr) (id : Digest) (refs : list Reference) (mgr' : Mgr) : Prop :=
  effects mgr' = (effects mgr ++ map (fun r => CallRemoveImage (RefString r)) refs)%list
  /\ client mgr' = fold_left (fun c r => fst (client_RemoveImage c (RefString r))) refs (client mgr)
  /\ localStore mgr' = fold_left (fun s r => fst (RemoveReference s id r)) refs (localStore mgr)
  /\ succeeded (client mgr) (localStore mgr) id refs.

(** The removal of [refs] in sequence stopped at [r] with the error [e]:
    the references before [r] are removed, each without failure, then
    either the remote store refused [r], or it removed [r] and the local
    index refused it; the references after [r] are not touched. *)
Definition stoppedAt (mgr : Mgr) (id : Digest) (refs : list Reference) (mgr' : Mgr)
  (e : error) : Prop :=
  exists before r rest mid,
    refs = (before ++ r :: rest)%list
    /\ removedAll mgr id before mid
    /\ effects mgr' = append (effects mid) (CallRemoveImage (RefString r))
    /\ client mgr' = fst (client_RemoveImage (client mid) (RefString r))
    /\ ((snd (client_RemoveImage (client mid) (RefString r)) = Some e
         /\ localStore mgr' = localStore mid)
        \/ (snd (client_RemoveImage (client mid) (RefString r)) = None
            /\ RemoveReference (localStore mid) id r = (localStore mgr', Some e))).

(** The two integrity errors of the history reconstruction. *)
Definition tooFewLayers : error :=
  ErrNew "number of manifest layers shouldn't be less than number of non-empty layer in history info".
Definition tooManyLayers : error :=
  ErrNew "number of manifest layers shouldn't be greater than number of non-empty layer in history info".

(** The item reported at index [i] for the history entry [h], with size
    [sz]: only index 0 has the config digest as ID. *)
Definition itemOf (desc : Descriptor) (h : History) (i : nat) (sz : Z) : HistoryResultItem :=
  {| hri_Created := hist_Created h;
     hri_CreatedBy := hist_CreatedBy h;
     hri_Author := hist_Author h;
     hri_Comment := hist_Comment h;
     hri_EmptyLayer := hist_EmptyLayer h;
     hri_ID := if (i =? 0)%nat then desc_Digest desc else "<missing>";
     hri_Size := sz |}.

(** The entries of the history with a layer of their own. *)
Definition nonEmptyLayers (history : list History) : list History :=
  filter (fun h => negb (hist_EmptyLayer h)) history.

(** Section 4.10: the item reported at index [i], top-most first.  The
    layer pointer starts at the last layer and has gone down by one for
    each entry with a layer met before [i]. *)
Definition layerPointer (history : list History) (layers : list Descriptor) (i : nat) : Z :=
  (Z.of_nat (length layers) - 1
   - Z.of_nat (length (nonEmptyLayers (firstn i (rev history)))))%Z.

Definition expectedItem (desc : Descriptor) (history : list History)
  (layers : list Descriptor) (size : Digest -> Z) (i : nat) : HistoryResultItem :=
  let h := nth i (rev history) zeroHistory in
  itemOf desc h i
    (if hist_EmptyLayer h then 0%Z
     else size (desc_Digest
                  (nth (Z.to_nat (layerPointer history layers i)) layers zeroDescriptor))).

(** Section 4.9: an entry created strictly after the [since] time and
    strictly before the [before] time, for the bounds that are given. *)
Definition strictlyBetween (sinceTime beforeTime : option Time) (img : CtrdImageInfo) : bool :=
  let created := oci_Created (info_OCISpec img) in
  match beforeTime with Some tb => (created <? tb)%Z | None => true end
  && match sinceTime with Some ts => (ts <? created)%Z | None => true end.

(** Section 4.9: the names of [names] that match some pattern. *)
Definition matching (matches : string -> string -> bool) (patterns names : list string)
  : list string :=
  filter (fun name => existsb (fun pattern => matches pattern name) patterns) names.

(** Section 4.9: what is reported for an entry under a non-empty
    reference filter: the entry with its tag and digest lists narrowed
    to the matching names, and nothing when no name is left. *)
Definition narrowed (matches : string -> string -> bool) (patterns : list string)
  (info : ImageInfo) : list ImageInfo :=
  let tags := matching matches patterns (ii_RepoTags info) in
  let digests := matching matches patterns (ii_RepoDigests info) in
  match tags, digests with
  | [], [] => []
  | _, _ => [setRepoTags (setRepoDigests info digests) tags]
  end.

(** The bound that a resolved [before] or [since] filter puts on the
    creation time: none when the filter is absent. *)
Definition timeBound (resolved : option ImageInfo * Time) : option Time :=
  match fst resolved with
  | Some _ => Some (snd resolved)
  | None => None
  end.

(** What the listing reports for a cached entry under the reference
    patterns [patterns]: nothing for an entry that cannot be converted,
    the converted entry without patterns, and else the entry narrowed. *)
Definition reported (mgr : Mgr) (matches : string -> string -> bool)
  (patterns : list string) (img : CtrdImageInfo) : list ImageInfo :=
  match containerdImageToImageInfo mgr (info_ID img) with
  | Err _ => []
  | Ok info =>
      match patterns with
      | [] => [info]
      | _ => narrowed matches patterns info
      end
  end.

End Statements.

(* ===================================================================== *)
(** ** Further statements *)
(* ===================================================================== *)

Section MoreStatements.
Context {S C : Type} {store : ImageStore S} {api : APIClient C} {imp : Imports}.

Local Abbreviation Mgr := (ImageManager S C).

(** What a removal resolved to the digest [id] and the matched reference
    [m] may do besides changing the local store: ask the remote store to
    remove a primary reference, one of the digest for a removal by
    identity and the one of [m] otherwise, or publish the untag event of
    a removal by name. *)
Definition removalEffect (mgr : Mgr) (id : Digest) (m : Reference) (ev : Effect) : Prop :=
  match ev with
  | CallRemoveImage r =>
      exists q, r = RefString q
                /\ (if byIdentity id m
                    then In q (GetPrimaryReferences (localStore mgr) id)
                    else GetPrimaryReference (localStore mgr) m = Ok q)
  | ImageEvent name r action =>
      byIdentity id m = false
      /\ name = RefString (TrimTagForDigest m) /\ r = name /\ action = "untag"
  | CallCreateImageReference _ _ => False
  end.

(** The sizes reported for the entries of a history that have a layer,
    in the order of the items. *)
Definition layerSizes (items : list HistoryResultItem) : list Z :=
  map hri_Size (filter (fun item => negb (hri_EmptyLayer item)) items).

(** A name is matched by a pattern of the filter: [FamiliarMatch] finds
    it, without error. *)
Definition matchedBy (filter : list string) (name : string) : bool :=
  existsb (fun pattern => match FamiliarMatch pattern name with
                          | Ok true => true
                          | _ => false
                          end) filter.

(** How often a stream is closed, and how often the context of a pull
    is cancelled, in a run of [PullImage]. *)
Definition closes (ops : list PullOp) : nat :=
  length (List.filter (fun op => match op with StreamClose => true | _ => false end) ops).

Definition cancels (ops : list PullOp) : nat :=
  length (List.filter (fun op => match op with Cancel => true | _ => false end) ops).

(** The plugin, when there is one, returns no error for the image. *)
Definition pluginAccepts (imagePlugin : option (Image -> option error)) (img : Image) : bool :=
  match imagePlugin with
  | Some postPull => match postPull img with None => true | Some _ => false end
  | None => true
  end.

(** The answer of the handler that hands the request over to
    [RemoveImage]. *)
Definition handedOver (mgr : Mgr) (name : string) (isForce : bool) : Mgr * Result Z :=
  (fst (RemoveImage mgr name isForce),
   match snd (RemoveImage mgr name isForce) with
   | Some err => Err err
   | None => Ok 204%Z
   end).

End MoreStatements.

(** A registry to pull from and containers, for the sample daemon. *)
Module SampleDaemon.
Import Sample.

(** An image of the registry that the content store does not hold yet. *)
Definition nginx : Image :=
  Sample.mkImage "reg.example/library/nginx:latest" "sha256:n1" "sha256:mn" 700%Z
                 [Sample.mkHistory 70%Z "ADD rootfs" false] [Sample.mkLayer "sha256:l9" 40%Z].

Definition upstream : list Image := [nginx].

(** Modelled from the spec: [pull] of section 6, which returns the handle
    of the image pulled under the target name; here the image is taken
    from [upstream], under the first name there that starts with one
    of the candidates, and added to the content store. *)
Definition pull (c : Sample.remote) (target : string) (fullRefs : list string)
  : Sample.remote * Result Image :=
  match find (fun i => existsb (HasPrefix (img_Name i)) fullRefs) upstream with
  | Some i => (append c i, Ok i)
  | None => (c, Err (ErrNew ("pull " ++ target ++ ": not found")))
  end.

(** Modelled from the spec: [listImages] of section 6, the handles of
    the images of the content store. *)
Definition puller_ops : ImagePuller Sample.remote := {|
  client_PullImage := pull;
  client_ListImages := fun c => Ok c
|}.

(** Modelled from the spec: the container manager is an external
    collaborator; its list with a filter function returns the containers
    that the function accepts. *)
Definition container_ops : ContainerMgr (list Container) := {|
  container_List := fun k accept => Ok (List.filter accept k)
|}.

#[export] Existing Instance puller_ops.
#[export] Existing Instance container_ops.

(** A container that runs the ubuntu image and one that runs the
    busybox image. *)
Definition running : list Container :=
  [{| ctr_ID := "c1"; ctr_Name := "web"; ctr_Image := "sha256:u1" |};
   {| ctr_ID := "c2"; ctr_Name := "db"; ctr_Image := "sha256:b1" |}].

(** The sample daemon after the busybox image was given a second name. *)
Definition tagged : ImageManager LocalStore.imageStore Sample.remote :=
  fst (AddTag Sample.booted "busybox:latest" "mybox:v1").

(** An image whose root filesystem has lost a diff ID, and a daemon
    that has loaded it. *)
Definition truncated : Image :=
  {| img_Name := "reg.example/library/truncated:1";
     img_Target := img_Target Sample.busybox;
     img_Config := img_Config Sample.busybox;
     img_Size := img_Size Sample.busybox;
     img_RootFS := Ok ["sha256:l0"];
     img_OciImage := img_OciImage Sample.busybox;
     img_Manifest := img_Manifest Sample.busybox;
     img_ContentInfo := img_ContentInfo Sample.busybox |}.

Definition damaged : ImageManager LocalStore.imageStore Sample.remote :=
  Sample.boot [truncated].

(** The sample daemon on the store that resolves IDs. *)
Definition daemonID (c : remote) (s : IDStore.idStore)
  : ImageManager IDStore.idStore remote :=
  {| DefaultRegistry := "reg.example";
     DefaultNamespace := "library";
     RegistryMirrors := ["m1"; "m2"];
     client := c;
     localStore := s;
     effects := [] |}.

(** That daemon after it has loaded the images of the content store. *)
Definition bootedID : ImageManager IDStore.idStore remote :=
  fold_left (fun mgr img => fst (StoreImageReference mgr img)) content
            (daemonID content IDStore.empty).

(** That daemon after the busybox image was given a second name, and
    when the content store has lost that second name. *)
Definition taggedID : ImageManager IDStore.idStore remote :=
  fst (AddTag bootedID "busybox:latest" "mybox:v1").

Definition halfGone : ImageManager IDStore.idStore remote :=
  daemonID content (localStore taggedID).

(** A plugin that refuses every image. *)
Definition refusing (img : Image) : option error := Some (ErrNew "refused by plugin").

End SampleDaemon.

(* ===================================================================== *)
(** ** Properties of the manager, for any store and any client *)
(* ===================================================================== *)

Section Facts.
Context {S C : Type} {store : ImageStore S} {api : APIClient C} {imp : Imports}.

Local Abbreviation Mgr := (ImageManager S C).

(* --------------------------------------------------------------------- *)
(** *** Candidate expansion *)

Lemma fold_left_append {A B} (f : A -> B) (l : list A) (acc : list B) :
  fold_left (fun acc x => append acc (f x)) l acc = (acc ++ map f l)%list.
Proof.
  revert acc. induction l as [|x l IH]; intros acc; simpl.
  - now rewrite app_nil_r.
  - rewrite IH. unfold append. now rewrite <- app_assoc.
Qed.

Lemma ContainsAny_nonempty (s chars : string) : ContainsAny s chars = true -> s <> "".
Proof. destruct s; simpl; congruence. Qed.

(** Without registry domain: the mirrors in order, then the default
    registry. *)
Lemma LookupImageReferences_without_domain (mgr : Mgr) (ref : string) :
  hasDomain ref = false ->
  LookupImageReferences mgr ref
  = (map (fun reg => path_Join [reg; ref]) (RegistryMirrors mgr)
     ++ [(DefaultRegistry mgr ++ "/"
          ++ (if ContainsAny ref "/" then ref
              else DefaultNamespace mgr ++ "/" ++ ref))%string])%list.
Proof.
  intros Hdom. unfold hasDomain in Hdom. unfold LookupImageReferences.
  rewrite Hdom. cbn -[path_Join append].
  rewrite fold_left_append, String.eqb_refl. cbn -[path_Join].
  unfold append. now destruct (ContainsAny ref "/").
Qed.

(** With a registry domain there is no mirror candidate: the single
    candidate is in that registry, with the default namespace when the
    registry is the default one and the remainder has no slash. *)
Lemma LookupImageReferences_with_domain (mgr : Mgr) (ref : string) :
  hasDomain ref = true ->
  let idx := IndexRune ref slash in
  let registry := sliceTo ref idx in
  let remainder := sliceFrom ref (idx + 1) in
  LookupImageReferences mgr ref
  = [registry ++ "/"
     ++ (if String.eqb registry (DefaultRegistry mgr) && negb (ContainsAny remainder "/")
         then DefaultNamespace mgr ++ "/" ++ remainder else remainder)].
Proof.
  intros Hdom idx registry remainder.
  unfold hasDomain in Hdom. unfold LookupImageReferences.
  fold idx. fold idx in Hdom. rewrite Hdom. fold registry remainder.
  apply andb_prop in Hdom. destruct Hdom as [_ Hany].
  apply ContainsAny_nonempty, String.eqb_neq in Hany. fold registry in Hany.
  rewrite Hany. reflexivity.
Qed.

(** C3.  For a reference without registry domain, the candidates are one
    per configured mirror, in configured order, followed by a single
    candidate in the default registry.  In that candidate, and in the
    single candidate of a reference with a registry domain, the
    remainder gets the default namespace in front whenever the registry
    is the default one and the remainder has no slash. *)
Theorem LookupImageReferences_mirrors_then_default (mgr : Mgr) (ref : string) :
  (hasDomain ref = false ->
   LookupImageReferences mgr ref
   = (map (fun reg => path_Join [reg; ref]) (RegistryMirrors mgr)
      ++ [(DefaultRegistry mgr ++ "/"
           ++ (if ContainsAny ref "/" then ref
               else DefaultNamespace mgr ++ "/" ++ ref))%string])%list)
  /\ (hasDomain ref = true ->
      let registry := sliceTo ref (IndexRune ref slash) in
      let remainder := sliceFrom ref (IndexRune ref slash + 1) in
      LookupImageReferences mgr ref
      = [registry ++ "/"
         ++ (if String.eqb registry (DefaultRegistry mgr)
                && negb (ContainsAny remainder "/")
             then DefaultNamespace mgr ++ "/" ++ remainder else remainder)]).
Proof.
  split.
  - apply LookupImageReferences_without_domain.
  - intros Hdom. now apply LookupImageReferences_with_domain.
Qed.

(* --------------------------------------------------------------------- *)
(** *** Reference resolution *)

Lemma primaryOnHit_tail (mgr : Mgr) (id : Digest) (m : Reference) :
  primaryOnHit mgr id m
    (if IsNamedOnly m || HasPrefix id (RefString m)
     then match GetPrimaryReferences (localStore mgr) id with
          | [] => Err ErrNotfound
          | primaryRef :: _ => Ok (id, m, primaryRef)
          end
     else primaryRef <- GetPrimaryReference (localStore mgr) m ;; Ok (id, m, primaryRef)).
Proof.
  unfold primaryOnHit.
  destruct (IsNamedOnly m || HasPrefix id (RefString m)).
  - now destruct (GetPrimaryReferences (localStore mgr) id).
  - now destruct (GetPrimaryReference (localStore mgr) m).
Qed.

(** C1.  The resolution searches the store with the parsed input as it
    is.  On a hit the answer is that of [primaryOnHit].  On a not-found
    miss the input is qualified with the default registry and namespace:
    when this does not change the string the not-found error is
    returned, and otherwise the qualified string is parsed and searched,
    with the same answer on a hit and the error of the search on a miss. *)
Theorem CheckReference_two_passes (mgr : Mgr) (idOrRef : string) (namedRef : Reference) :
  Parse idOrRef = Ok namedRef ->
  let s := localStore mgr in
  let qualified :=
    addDefaultRegistryIfMissing idOrRef (DefaultRegistry mgr) (DefaultNamespace mgr) in
  (forall id m, Search s namedRef = Ok (id, m) ->
                primaryOnHit mgr id m (CheckReference mgr idOrRef))
  /\ (forall e, Search s namedRef = Err e -> IsNotfound e = true ->
        (qualified = idOrRef -> CheckReference mgr idOrRef = Err e)
        /\ (qualified <> idOrRef ->
            forall namedRef2, Parse qualified = Ok namedRef2 ->
              (forall id m, Search s namedRef2 = Ok (id, m) ->
                            primaryOnHit mgr id m (CheckReference mgr idOrRef))
              /\ (forall e2, Search s namedRef2 = Err e2 ->
                             CheckReference mgr idOrRef = Err e2))).
Proof.
  intros Hparse s qualified. unfold CheckReference. rewrite Hparse. cbn [bind].
  fold s. fold qualified. split.
  - intros id m Hs. rewrite Hs. cbn [bind]. apply primaryOnHit_tail.
  - intros e Hs Hnf. rewrite Hs, Hnf. cbn [negb]. split.
    + intros Heq. apply String.eqb_eq in Heq. now rewrite Heq.
    + intros Hneq namedRef2 Hp2. apply String.eqb_neq in Hneq.
      rewrite Hneq, Hp2. cbn [bind]. split.
      * intros id m Hs2. rewrite Hs2. cbn [bind]. apply primaryOnHit_tail.
      * intros e2 Hs2. now rewrite Hs2.
Qed.

(** An error of the first search that is not a not-found error is
    returned as it is, without a second pass. *)
Lemma CheckReference_other_error (mgr : Mgr) (idOrRef : string) (namedRef : Reference)
      (e : error) :
  Parse idOrRef = Ok namedRef ->
  Search (localStore mgr) namedRef = Err e -> IsNotfound e = false ->
  CheckReference mgr idOrRef = Err e.
Proof.
  intros Hparse Hs Hnf. unfold CheckReference. rewrite Hparse. cbn [bind].
  now rewrite Hs, Hnf.
Qed.

(** A resolved reference was matched by the store, and its primary
    reference is the one [primaryOnHit] names. *)
Lemma CheckReference_Ok (mgr : Mgr) (idOrRef : string) (id : Digest) (m p : Reference) :
  CheckReference mgr idOrRef = Ok (id, m, p) ->
  if byIdentity id m
  then hd_error (GetPrimaryReferences (localStore mgr) id) = Some p
  else GetPrimaryReference (localStore mgr) m = Ok p.
Proof.
  unfold CheckReference, byIdentity.
  destruct (Parse idOrRef) as [r|]; cbn [bind]; [|discriminate].
  match goal with |- bind ?found _ = _ -> _ => destruct found as [[id' m']|] end;
    cbn [bind]; [|discriminate].
  destruct (IsNamedOnly m' || HasPrefix id' (RefString m')) eqn:Hb.
  - destruct (GetPrimaryReferences (localStore mgr) id') eqn:Hl; [discriminate|].
    intros H; inversion H; subst. now rewrite Hb, Hl.
  - destruct (GetPrimaryReference (localStore mgr) m') eqn:Hg; cbn [bind]; [|discriminate].
    intros H; inversion H; subst. now rewrite Hb.
Qed.

(* --------------------------------------------------------------------- *)
(** *** Listing the references of an image *)

Lemma ListReferences_eq (mgr : Mgr) (imageID : Digest) :
  ListReferences mgr imageID = (GetPrimaryReferences (localStore mgr) imageID, None).
Proof. reflexivity. Qed.

(* --------------------------------------------------------------------- *)
(** *** Tagging *)

Lemma validateTagReference_Some (mgr : Mgr) (ref : Reference) (e : error) :
  validateTagReference mgr ref = Some e -> IsInvalidParam e = true.
Proof.
  unfold validateTagReference.
  destruct (isDigested ref).
  - intros H; inversion H; reflexivity.
  - destruct (GetPrimaryReference (localStore mgr) ref); [|discriminate].
    destruct (String.eqb _ _); [|discriminate].
    intros H; inversion H; reflexivity.
Qed.

(** The two cases in which the validation of a tag target fails. *)
Lemma validateTagReference_cases (mgr : Mgr) (ref : Reference) :
  (exists e, validateTagReference mgr ref = Some e)
  <-> (isDigested ref = true
       \/ exists p, GetPrimaryReference (localStore mgr) ref = Ok p
                    /\ RefString p = RefString ref).
Proof.
  unfold validateTagReference. split.
  - intros [e He]. destruct (isDigested ref); [now left|]. right.
    destruct (GetPrimaryReference (localStore mgr) ref) as [p|]; [|discriminate].
    destruct (String.eqb (RefString p) (RefString ref)) eqn:Heq; [|discriminate].
    exists p. split; [reflexivity|]. now apply String.eqb_eq.
  - intros [Hd|[p [Hp Heq]]].
    + rewrite Hd. eauto.
    + destruct (isDigested ref); [eauto|].
      rewrite Hp. apply String.eqb_eq in Heq. rewrite Heq. eauto.
Qed.

(** C6.  For the target as parsed and default-tagged, the validation of
    [AddTag] fails in exactly two cases, the target carries a digest or
    the store gives the target itself as its primary reference, and then
    [AddTag] fails with an InvalidParam error and changes nothing.  In
    every other case, a target that the store does not know or whose
    primary reference is another reference, the validation passes and
    [AddTag] goes on with the source image. *)
Theorem AddTag_validation (mgr : Mgr) (sourceImage targetTag : string) (tagRef : Reference) :
  parseTagReference
    (addDefaultRegistryIfMissing targetTag (DefaultRegistry mgr) (DefaultNamespace mgr))
  = Ok tagRef ->
  let claimed := exists p, GetPrimaryReference (localStore mgr) tagRef = Ok p
                           /\ RefString p = RefString tagRef in
  ((exists e, validateTagReference mgr tagRef = Some e)
   <-> (isDigested tagRef = true \/ claimed))
  /\ (isDigested tagRef = true \/ claimed ->
      exists e, AddTag mgr sourceImage targetTag = (mgr, Some e)
                /\ IsInvalidParam e = true)
  /\ (~ (isDigested tagRef = true \/ claimed) ->
      validateTagReference mgr tagRef = None
      /\ AddTag mgr sourceImage targetTag = addValidatedTag mgr sourceImage tagRef).
Proof.
  intros Hparse claimed. split; [apply validateTagReference_cases|].
  unfold AddTag. rewrite Hparse. split.
  - intros Hc. apply validateTagReference_cases in Hc. destruct Hc as [e He].
    rewrite He. exists e. split; [reflexivity|].
    now apply validateTagReference_Some in He.
  - intros Hn. destruct (validateTagReference mgr tagRef) as [e|] eqn:He.
    + exfalso. apply Hn. apply validateTagReference_cases. eauto.
    + now split.
Qed.

End Facts.

(* ===================================================================== *)
(** ** Removal *)
(* ===================================================================== *)

Section RemovalFacts.
Context {S C : Type} {store : ImageStore S} {api : APIClient C} {imp : Imports}.

Local Abbreviation Mgr := (ImageManager S C).

Lemma removedAll_nil (mgr : Mgr) (id : Digest) : removedAll mgr id [] mgr.
Proof. unfold removedAll; simpl. rewrite app_nil_r. repeat split. Qed.

(** One reference removed from both stores, then the references [refs]. *)
Lemma removedAll_cons (mgr mgr' : Mgr) (id : Digest) (r : Reference)
      (refs : list Reference) c s :
  client_RemoveImage (client mgr) (RefString r) = (c, None) ->
  RemoveReference (localStore mgr) id r = (s, None) ->
  removedAll (withStore (withClient mgr c (CallRemoveImage (RefString r))) s) id refs mgr' ->
  removedAll mgr id (r :: refs) mgr'.
Proof.
  intros Hc Hs (He & Hcl & Hst & Hok). unfold removedAll. simpl in *.
  rewrite Hc, Hs. simpl. repeat split; try assumption.
  rewrite He. unfold append. now rewrite <- app_assoc.
Qed.

(** The loop of the identity branch removes the references in sequence,
    from the remote store then from the local index, and stops at the
    first failure, whose error it returns. *)
Lemma removePrimaryReferences_spec (refs : list Reference) (mgr : Mgr) (id : Digest) :
  match snd (removePrimaryReferences mgr id refs) with
  | None => removedAll mgr id refs (fst (removePrimaryReferences mgr id refs))
  | Some e => stoppedAt mgr id refs (fst (removePrimaryReferences mgr id refs)) e
  end.
Proof.
  revert mgr. induction refs as [|r refs IH]; intros mgr.
  - simpl. apply removedAll_nil.
  - simpl. unfold clientRemoveImage.
    destruct (client_RemoveImage (client mgr) (RefString r)) as [c [e|]] eqn:Hc.
    + simpl. exists [], r, refs, mgr. simpl. rewrite Hc. simpl.
      repeat first [apply removedAll_nil | split]; auto.
    + unfold storeRemoveReference. cbn [localStore withClient].
      destruct (RemoveReference (localStore mgr) id r) as [s [e|]] eqn:Hs.
      * simpl. exists [], r, refs, mgr. simpl. rewrite Hc. simpl.
        repeat first [apply removedAll_nil | split]; auto.
      * set (mgr2 := withStore (withClient mgr c (CallRemoveImage (RefString r))) s).
        specialize (IH mgr2).
        destruct (removePrimaryReferences mgr2 id refs) as [mgr' [e|]] eqn:Hr; simpl in *.
        -- destruct IH as (before & r' & rest & mid & Hrefs & Hall & Heff & Hcl & Hfail).
           exists (r :: before), r', rest, mid. subst refs.
           split; [reflexivity|].
           split; [eapply removedAll_cons; eauto|].
           split; [exact Heff|]. split; [exact Hcl|exact Hfail].
        -- eapply removedAll_cons; eauto.
Qed.

Lemma app_not_self {A} (l l' : list A) : l' <> [] -> (l ++ l')%list <> l.
Proof.
  intros Hne Heq. apply Hne. apply (app_inv_head l). now rewrite app_nil_r.
Qed.

(** Removing at least one reference calls the remote store. *)
Lemma removePrimaryReferences_effects (refs : list Reference) (mgr : Mgr) (id : Digest) :
  refs <> [] -> effects (fst (removePrimaryReferences mgr id refs)) <> effects mgr.
Proof.
  intros Hne. pose proof (removePrimaryReferences_spec refs mgr id) as H.
  destruct (snd (removePrimaryReferences mgr id refs)) as [e|].
  - destruct H as (before & r & rest & mid & _ & (Hm & _) & Heff & _).
    rewrite Heff, Hm. unfold append. rewrite <- app_assoc.
    apply app_not_self. now destruct (map _ before).
  - destruct H as (He & _). rewrite He. apply app_not_self.
    destruct refs; [congruence | discriminate].
Qed.

Lemma clearIfNoPrimary_effects (mgr : Mgr) (id : Digest) :
  effects (clearIfNoPrimary mgr id) = effects mgr.
Proof. unfold clearIfNoPrimary. now destruct (_ =? _)%Z. Qed.

Lemma clearIfNoPrimary_client (mgr : Mgr) (id : Digest) :
  client (clearIfNoPrimary mgr id) = client mgr.
Proof. unfold clearIfNoPrimary. now destruct (_ =? _)%Z. Qed.

(** C4, amended.  For an input that names the image by identity, the
    removal is refused, an error returned and nothing done, exactly when
    force is not set and the references of the digest, primary and
    searchable together, do not share one locator.  Otherwise the
    primary references of the digest are removed from the remote store
    and then from the local index, in sequence.  No error is returned
    exactly when every one of these removals has succeeded
    ([removedAll]); else the removals before the first failure have
    succeeded, the error returned is that of the first failure, and
    nothing is done after it ([stoppedAt]). *)
Theorem RemoveImage_by_identity (mgr : Mgr) (idOrRef : string) (force : bool)
        (id : Digest) (namedRef primaryRef : Reference) :
  CheckReference mgr idOrRef = Ok (id, namedRef, primaryRef) ->
  byIdentity id namedRef = true ->
  let primaries := GetPrimaryReferences (localStore mgr) id in
  let blocked :=
    force = false /\ uniqueLocatorReference (GetReferences (localStore mgr) id) = false in
  (refused mgr idOrRef force <-> blocked)
  /\ (~ blocked ->
      exists mgr1,
        fst (RemoveImage mgr idOrRef force) = clearIfNoPrimary mgr1 id
        /\ match snd (RemoveImage mgr idOrRef force) with
           | None => removedAll mgr id primaries mgr1
           | Some e => stoppedAt mgr id primaries mgr1 e
           end).
Proof.
  intros Hcheck Hid primaries blocked.
  pose proof (CheckReference_Ok _ _ Hcheck) as Hprim. rewrite Hid in Hprim.
  assert (Hne : primaries <> []).
  { unfold primaries. destruct (GetPrimaryReferences (localStore mgr) id); discriminate. }
  unfold refused, RemoveImage. rewrite Hcheck. unfold removeResolved.
  unfold byIdentity in Hid. rewrite Hid. fold primaries.
  destruct (negb force && negb (uniqueLocatorReference (GetReferences (localStore mgr) id)))
    eqn:Hb.
  - assert (Hblocked : blocked).
    { apply andb_prop in Hb. destruct Hb as [Hf Hu].
      apply negb_true_iff in Hf, Hu. now split. }
    split.
    + split; [intros _; exact Hblocked|]. intros _. eexists. cbn [fst snd].
      split; [reflexivity|]. apply clearIfNoPrimary_effects.
    + intros Hn. contradiction.
  - assert (Hfree : ~ blocked).
    { intros [Hf Hu]. rewrite Hf, Hu in Hb. discriminate. }
    pose proof (removePrimaryReferences_spec primaries mgr id) as Hspec.
    pose proof (removePrimaryReferences_effects mgr id Hne) as Heff.
    destruct (removePrimaryReferences mgr id primaries) as [mgr1 err]. cbn [fst snd] in *.
    split.
    + split; [|intros H; contradiction].
      intros (e & _ & He). rewrite clearIfNoPrimary_effects in He. contradiction.
    + intros _. exists mgr1. now split.
Qed.

(** C5, amended.  For an input that names a tagged or digested
    reference, the tag is dropped when the reference has a digest, which
    is kept.  When the result is the primary reference it is removed from
    the local index and then from the remote store, which is not called
    if the local removal fails.  Otherwise the untag event is published
    and the reference removed from the local index only: the remote
    store is not called. *)
Theorem RemoveImage_by_name (mgr : Mgr) (idOrRef : string) (force : bool)
        (id : Digest) (namedRef primaryRef : Reference) :
  CheckReference mgr idOrRef = Ok (id, namedRef, primaryRef) ->
  byIdentity id namedRef = false ->
  let r := TrimTagForDigest namedRef in
  let out := RemoveImage mgr idOrRef force in
  (RefString primaryRef = RefString r ->
   let local := RemoveReference (localStore mgr) id primaryRef in
   let remote := client_RemoveImage (client mgr) (RefString primaryRef) in
   match snd local with
   | Some e =>
       out = (clearIfNoPrimary (withStore mgr (fst local)) id, Some e)
   | None =>
       out = (clearIfNoPrimary
                (withClient (withStore mgr (fst local)) (fst remote)
                            (CallRemoveImage (RefString primaryRef))) id,
              snd remote)
   end)
  /\ (RefString primaryRef <> RefString r ->
      let local := RemoveReference (localStore mgr) id r in
      out = (clearIfNoPrimary
               (withStore (LogImageEvent mgr (RefString r) (RefString r) "untag")
                          (fst local)) id,
             snd local)
      /\ effects (fst out)
         = append (effects mgr) (ImageEvent (RefString r) (RefString r) "untag")
      /\ client (fst out) = client mgr).
Proof.
  intros Hcheck Hid r out. unfold out, RemoveImage. rewrite Hcheck.
  unfold removeResolved. unfold byIdentity in Hid. rewrite Hid. fold r. split.
  - intros Heq. apply String.eqb_eq in Heq. rewrite Heq.
    unfold storeRemoveReference, clientRemoveImage.
    destruct (RemoveReference (localStore mgr) id primaryRef) as [s1 [e|]]; cbn [fst snd].
    + reflexivity.
    + cbn [client withStore].
      now destruct (client_RemoveImage (client mgr) (RefString primaryRef)).
  - intros Hneq. apply String.eqb_neq in Hneq. rewrite Hneq.
    unfold storeRemoveReference. cbn [localStore LogImageEvent].
    destruct (RemoveReference (localStore mgr) id r) as [s1 err]. cbn [fst snd].
    split; [reflexivity|].
    now rewrite clearIfNoPrimary_effects, clearIfNoPrimary_client.
Qed.

(* --------------------------------------------------------------------- *)
(** *** The deferred cleanup of the cache *)

Context {laws : @ImageStoreLaws S store}.

Lemma removePrimaryReferences_cache (refs : list Reference) (mgr : Mgr) (id d : Digest) :
  GetCtrdImageInfo (localStore (fst (removePrimaryReferences mgr id refs))) d
  = GetCtrdImageInfo (localStore mgr) d.
Proof.
  revert mgr. induction refs as [|r refs IH]; intros mgr; [reflexivity|].
  simpl. unfold clientRemoveImage.
  destruct (client_RemoveImage (client mgr) (RefString r)) as [c [e|]]; [reflexivity|].
  unfold storeRemoveReference. cbn [localStore withClient].
  pose proof (RemoveReference_cache (localStore mgr) id r d) as Hrm.
  destruct (RemoveReference (localStore mgr) id r) as [s [e|]]; cbn [fst] in Hrm.
  - exact Hrm.
  - rewrite IH. exact Hrm.
Qed.

(** The removal itself leaves the metadata cache as it is. *)
Lemma removeResolved_cache (mgr : Mgr) (idOrRef : string) (force : bool)
      (id : Digest) (namedRef primaryRef : Reference) (d : Digest) :
  GetCtrdImageInfo
    (localStore (fst (removeResolved mgr idOrRef force id namedRef primaryRef))) d
  = GetCtrdImageInfo (localStore mgr) d.
Proof.
  unfold removeResolved.
  destruct (IsNamedOnly namedRef || HasPrefix id (RefString namedRef)).
  - destruct (negb force && _); [reflexivity|]. apply removePrimaryReferences_cache.
  - destruct (String.eqb _ _).
    + unfold storeRemoveReference.
      pose proof (RemoveReference_cache (localStore mgr) id primaryRef d) as Hrm.
      destruct (RemoveReference (localStore mgr) id primaryRef) as [s [e|]];
        cbn [fst] in Hrm; [exact Hrm|].
      unfold clientRemoveImage. cbn [client withStore].
      now destruct (client_RemoveImage (client mgr) (RefString primaryRef)).
    + unfold storeRemoveReference. cbn [localStore LogImageEvent].
      pose proof (RemoveReference_cache (localStore mgr) id (TrimTagForDigest namedRef) d)
        as Hrm.
      now destruct (RemoveReference (localStore mgr) id (TrimTagForDigest namedRef)).
Qed.

(** C7.  After a call of [RemoveImage] that resolved its reference to the
    digest [id], whatever the branch taken and whether or not it
    returned an error: if no primary reference is left for [id], the
    cache has no entry for [id]; and the entry of a digest is the one
    from before the call for every other digest, and for [id] itself when
    a primary reference is left. *)
Theorem RemoveImage_cache_cleanup (mgr : Mgr) (idOrRef : string) (force : bool)
        (id : Digest) (namedRef primaryRef : Reference) :
  CheckReference mgr idOrRef = Ok (id, namedRef, primaryRef) ->
  let mgr' := fst (RemoveImage mgr idOrRef force) in
  (GetPrimaryReferences (localStore mgr') id = [] ->
   GetCtrdImageInfo (localStore mgr') id = Err errCtrdImageInfoNotExist)
  /\ (forall d, d <> id \/ GetPrimaryReferences (localStore mgr') id <> [] ->
                GetCtrdImageInfo (localStore mgr') d = GetCtrdImageInfo (localStore mgr) d).
Proof.
  intros Hcheck mgr'. unfold mgr', RemoveImage. rewrite Hcheck.
  pose proof (fun d => removeResolved_cache mgr idOrRef force id namedRef primaryRef d)
    as Hcache.
  destruct (removeResolved mgr idOrRef force id namedRef primaryRef) as [mgr1 err].
  cbn [fst] in *. unfold clearIfNoPrimary.
  destruct (GetPrimaryReferences (localStore mgr1) id) as [|p ps] eqn:Hp; cbn [length].
  - cbn. split.
    + intros _. apply Clear_cache_same.
    + intros d [Hd|Hleft].
      * rewrite Clear_cache_other by assumption. apply Hcache.
      * rewrite Clear_refs, Hp in Hleft. congruence.
  - cbn. rewrite Hp. split; [discriminate|]. intros d _. apply Hcache.
Qed.

End RemovalFacts.

(* ===================================================================== *)
(** ** History reconstruction *)
(* ===================================================================== *)

Section HistoryFacts.
Context {S C : Type} {store : ImageStore S} {api : APIClient C} {imp : Imports}.

Local Abbreviation Mgr := (ImageManager S C).

Lemma setIndex_app (done pend : list HistoryResultItem) (y x : HistoryResultItem) (a : nat) :
  length done = a ->
  setIndex (done ++ y :: pend) a x = ((done ++ [x]) ++ pend)%list.
Proof.
  intros <-. induction done as [|d done IH]; simpl; [reflexivity|]. now rewrite IH.
Qed.

Lemma skipn_nth {A} (l : list A) (a : nat) (d : A) :
  a < length l -> skipn a l = nth a l d :: skipn (Datatypes.S a) l.
Proof.
  revert a. induction l as [|x l IH]; intros a Ha; simpl in Ha; [lia|].
  destruct a as [|a]; [reflexivity|]. simpl. apply IH. lia.
Qed.

Lemma firstn_nth {A} (l : list A) (a : nat) (d : A) :
  a < length l -> firstn (Datatypes.S a) l = (firstn a l ++ [nth a l d])%list.
Proof.
  revert a. induction l as [|x l IH]; intros a Ha; simpl in Ha; [lia|].
  destruct a as [|a]; [reflexivity|]. simpl. f_equal. apply IH. lia.
Qed.

Lemma nonEmptyLayers_rev (history : list History) :
  length (nonEmptyLayers (rev history)) = length (nonEmptyLayers history).
Proof.
  unfold nonEmptyLayers. induction history as [|h history IH]; [reflexivity|].
  simpl. rewrite filter_app, length_app, IH. simpl.
  destruct (negb (hist_EmptyLayer h)); simpl; lia.
Qed.

Section Loop.
Variables (desc : Descriptor) (history : list History) (layers : list Descriptor).
Variables (info : Digest -> Result Z) (size : Digest -> Z).
Hypothesis Hinfo :
  forall l, In l layers -> info (desc_Digest l) = Ok (size (desc_Digest l)).

Let n := length history.
Let k := length layers.

Lemma layerPointer_next (a : nat) :
  a < n ->
  layerPointer history layers (Datatypes.S a)
  = (layerPointer history layers a
     - if hist_EmptyLayer (nth a (rev history) zeroHistory) then 0 else 1)%Z.
Proof.
  intros Ha. unfold layerPointer.
  rewrite (firstn_nth (rev history) zeroHistory) by (rewrite length_rev; exact Ha).
  unfold nonEmptyLayers. rewrite filter_app, length_app. simpl.
  destruct (hist_EmptyLayer (nth a (rev history) zeroHistory)); simpl; lia.
Qed.

Lemma remaining_next (a : nat) :
  a < n ->
  length (nonEmptyLayers (skipn a (rev history)))
  = ((if hist_EmptyLayer (nth a (rev history) zeroHistory) then 0 else 1)
     + length (nonEmptyLayers (skipn (Datatypes.S a) (rev history))))%nat.
Proof.
  intros Ha.
  rewrite (skipn_nth (rev history) zeroHistory) by (rewrite length_rev; exact Ha).
  unfold nonEmptyLayers. simpl.
  now destruct (hist_EmptyLayer (nth a (rev history) zeroHistory)).
Qed.

(** One iteration of the loop. *)
Lemma historyLoop_cons (i : nat) (rest : list nat) (j : Z) (slice : list HistoryResultItem) :
  historyLoop desc history layers info (i :: rest) j slice
  = let h := nth (n - i - 1) history zeroHistory in
    if hist_EmptyLayer h
    then historyLoop desc history layers info rest j (setIndex slice i (itemOf desc h i 0))
    else if (j <? 0)%Z then Err tooFewLayers
    else match info (desc_Digest (nth (Z.to_nat j) layers zeroDescriptor)) with
         | Ok sz => historyLoop desc history layers info rest (j - 1)
                                (setIndex slice i (itemOf desc h i sz))
         | Err e => Err e
         end.
Proof.
  cbn [historyLoop]. fold n. cbv zeta.
  destruct (i =? 0)%nat eqn:Hi;
    destruct (hist_EmptyLayer (nth (n - i - 1) history zeroHistory)) eqn:Hh;
    cbn [hri_EmptyLayer setID negb]; rewrite ?Hh; cbn [negb];
    unfold itemOf; rewrite ?Hi, ?Hh; try reflexivity;
    destruct (j <? 0)%Z; try reflexivity;
    destruct (info _); reflexivity.
Qed.

(** The loop from index [a] on, entered with the pointer the spec gives
    for [a]: it fails when more entries with a layer remain than layers
    down from the pointer, and otherwise fills the slice with the items
    of the spec and leaves the pointer lowered by their number. *)
Lemma historyLoop_spec (b : nat) :
  forall (a : nat) (j : Z) (done pend : list HistoryResultItem),
    (a + b = n)%nat -> length done = a -> length pend = b ->
    j = layerPointer history layers a -> (-1 <= j)%Z ->
    historyLoop desc history layers info (seq a b) j (done ++ pend)
    = let c := Z.of_nat (length (nonEmptyLayers (skipn a (rev history)))) in
      if (c <=? j + 1)%Z
      then Ok ((j - c)%Z,
               (done ++ map (expectedItem desc history layers size) (seq a b))%list)
      else Err tooFewLayers.
Proof.
  induction b as [|b IH]; intros a j done pend Hab Hdone Hpend Hj Hlow.
  - destruct pend; [|discriminate]. simpl.
    rewrite skipn_all2 by (rewrite length_rev; fold n; lia). simpl.
    replace (0 <=? j + 1)%Z with true by (symmetry; apply Z.leb_le; lia).
    now rewrite Z.sub_0_r.
  - destruct pend as [|y pend]; [discriminate|]. simpl in Hpend.
    assert (Ha : a < n) by lia.
    cbn [seq]. rewrite historyLoop_cons. cbv zeta.
    assert (Hnth : nth (n - a - 1) history zeroHistory = nth a (rev history) zeroHistory).
    { rewrite (rev_nth history zeroHistory) by exact Ha. fold n. f_equal. lia. }
    rewrite Hnth. clear Hnth.
    rewrite (remaining_next Ha).
    pose proof (layerPointer_next Ha) as Hnext.
    cbn [map]. unfold expectedItem at 1. cbv zeta.
    set (h := nth a (rev history) zeroHistory) in *.
    assert (Hhead : forall item rest,
      (done ++ item :: rest)%list = ((done ++ [item]) ++ rest)%list).
    { intros. now rewrite <- app_assoc. }
    destruct (hist_EmptyLayer h) eqn:Hh.
    + rewrite (setIndex_app _ _ _ _ Hdone).
      rewrite (IH (Datatypes.S a) j); try lia.
      * cbv zeta. rewrite Nat.add_0_l, <- Hhead. reflexivity.
      * rewrite length_app. simpl. lia.
    + destruct (j <? 0)%Z eqn:Hneg.
      * apply Z.ltb_lt in Hneg.
        replace (_ <=? _)%Z with false; [reflexivity|].
        symmetry. apply Z.leb_gt. lia.
      * apply Z.ltb_ge in Hneg.
        assert (Hin : In (nth (Z.to_nat j) layers zeroDescriptor) layers).
        { apply nth_In. unfold layerPointer in Hj. lia. }
        rewrite (Hinfo _ Hin).
        rewrite (setIndex_app _ _ _ _ Hdone).
        rewrite (IH (Datatypes.S a) (j - 1)%Z); try lia.
        -- cbv zeta. rewrite <- Hhead, <- Hj.
           set (c' := length (nonEmptyLayers (skipn (Datatypes.S a) (rev history)))).
           replace (Z.of_nat (1 + c') <=? j + 1)%Z with (Z.of_nat c' <=? j - 1 + 1)%Z.
           2:{ destruct (Z.of_nat c' <=? j - 1 + 1)%Z eqn:Hle; symmetry.
               - apply Z.leb_le in Hle. apply Z.leb_le. lia.
               - apply Z.leb_gt in Hle. apply Z.leb_gt. lia. }
           destruct (_ <=? _)%Z; [|reflexivity].
           do 2 f_equal. lia.
        -- rewrite length_app. simpl. lia.
Qed.

(** The reconstruction succeeds exactly when the manifest has as many
    layers as the history has entries with a layer. *)
Lemma reconstructHistory_spec :
  reconstructHistory desc history layers info
  = if (k <? length (nonEmptyLayers history))%nat then Err tooFewLayers
    else if (length (nonEmptyLayers history) <? k)%nat then Err tooManyLayers
    else Ok (map (expectedItem desc history layers size) (seq 0 n)).
Proof.
  unfold reconstructHistory. fold n k.
  pose proof (@historyLoop_spec n 0 (Z.of_nat k - 1) [] (repeat zeroItem n)) as Hloop.
  simpl app in Hloop. rewrite Hloop; clear Hloop.
  - cbn zeta. simpl skipn. rewrite nonEmptyLayers_rev.
    set (m := length (nonEmptyLayers history)).
    destruct (k <? m)%nat eqn:Hkm.
    + apply Nat.ltb_lt in Hkm.
      replace (_ <=? _)%Z with false; [reflexivity|]. symmetry. apply Z.leb_gt. lia.
    + apply Nat.ltb_ge in Hkm.
      replace (_ <=? _)%Z with true by (symmetry; apply Z.leb_le; lia).
      cbn [bind]. destruct (m <? k)%nat eqn:Hmk.
      * apply Nat.ltb_lt in Hmk.
        replace (_ =? -1)%Z with false; [reflexivity|]. symmetry. apply Z.eqb_neq. lia.
      * apply Nat.ltb_ge in Hmk.
        replace (_ =? -1)%Z with true; [reflexivity|]. symmetry. apply Z.eqb_eq. lia.
  - reflexivity.
  - reflexivity.
  - apply repeat_length.
  - unfold layerPointer. simpl. fold k. lia.
  - lia.
Qed.

End Loop.

(** C2.  For an image whose fetches succeed, with [n] history entries of
    which [m] have a layer and a manifest of [k] layers whose sizes the
    content store gives: the call fails with the error of too few layers
    when [k < m], where the pointer would go below 0, and with the error
    of too many layers when [m < k], where it does not end at -1;
    otherwise it returns [n] items, top-most first, the item at index
    [i] being [expectedItem]: size 0 for an empty layer and else the size
    of the layer at the pointer, the config digest as ID at index 0 and
    the placeholder elsewhere. *)
Theorem ImageHistory_reconstruction (mgr : Mgr) (idOrRef : string) (img : Image)
        (desc : Descriptor) (ociImg : ociImage) (manifest : Manifest) (size : Digest -> Z) :
  fetchContainerdImage mgr idOrRef = Ok img ->
  img_Config img = Ok desc ->
  img_OciImage img = Ok ociImg ->
  getManifest img = Ok manifest ->
  (forall l, In l (man_Layers manifest) ->
             img_ContentInfo img (desc_Digest l) = Ok (size (desc_Digest l))) ->
  let history := oci_History ociImg in
  let layers := man_Layers manifest in
  let n := length history in
  let m := length (nonEmptyLayers history) in
  let k := length layers in
  ImageHistory mgr idOrRef
  = if (k <? m)%nat then Err tooFewLayers
    else if (m <? k)%nat then Err tooManyLayers
    else Ok (map (expectedItem desc history layers size) (seq 0 n)).
Proof.
  intros Hfetch Hcfg Hoci Hman Hinfo history layers n m k.
  unfold ImageHistory. rewrite Hfetch. cbn [bind].
  rewrite Hcfg. cbn [bind]. rewrite Hoci. cbn [bind]. rewrite Hman. cbn [bind].
  now apply reconstructHistory_spec.
Qed.

End HistoryFacts.

(* ===================================================================== *)
(** ** Listing and filtering *)
(* ===================================================================== *)

Section ListingFacts.
Context {S C : Type} {store : ImageStore S} {api : APIClient C} {imp : Imports}.

Local Abbreviation Mgr := (ImageManager S C).

Variable matches : string -> string -> bool.

Lemma matchPatterns_Ok (patterns : list string) (name : string) :
  (forall p, In p patterns -> FamiliarMatch p name = Ok (matches p name)) ->
  matchPatterns patterns name = Ok (existsb (fun p => matches p name) patterns).
Proof.
  induction patterns as [|p patterns IH]; intros Hm; [reflexivity|].
  simpl. rewrite (Hm p) by now left. cbn [bind].
  destruct (matches p name); [reflexivity|]. apply IH. intros q Hq. apply Hm. now right.
Qed.

Lemma filterLoop_Ok (patterns names acc : list string) :
  (forall p name, In p patterns -> FamiliarMatch p name = Ok (matches p name)) ->
  filterLoop patterns names acc = Ok (acc ++ matching matches patterns names)%list.
Proof.
  intros Hm. revert acc. induction names as [|name names IH]; intros acc.
  - simpl. now rewrite app_nil_r.
  - simpl. rewrite matchPatterns_Ok by (intros p Hp; now apply Hm). cbn [bind].
    rewrite IH. unfold matching. simpl.
    destruct (existsb (fun p => matches p name) patterns); [|reflexivity].
    unfold append. now rewrite <- app_assoc.
Qed.

(** With patterns that all can be matched, [filterReference] keeps the
    names that match one of them, in their order. *)
Lemma filterReference_Ok (patterns names : list string) :
  patterns <> [] ->
  (forall p name, In p patterns -> FamiliarMatch p name = Ok (matches p name)) ->
  filterReference patterns names = Ok (matching matches patterns names).
Proof.
  intros Hne Hm. unfold filterReference.
  destruct patterns as [|p patterns]; [congruence|]. cbn [length Nat.eqb].
  now rewrite filterLoop_Ok.
Qed.

Lemma not_before (created t : Time) :
  time_Equal created t || time_After created t = negb (created <? t)%Z.
Proof.
  unfold time_Equal, time_After. rewrite Z.gtb_ltb.
  destruct (Z.eqb_spec created t), (Z.ltb_spec t created), (Z.ltb_spec created t);
    simpl; try reflexivity; lia.
Qed.

Lemma not_after (created t : Time) :
  time_Equal created t || time_Before created t = negb (t <? created)%Z.
Proof.
  unfold time_Equal, time_Before.
  destruct (Z.eqb_spec created t), (Z.ltb_spec t created), (Z.ltb_spec created t);
    simpl; try reflexivity; lia.
Qed.

Lemma narrowed_lengths (patterns : list string) (info : ImageInfo) :
  let tags := matching matches patterns (ii_RepoTags info) in
  let digests := matching matches patterns (ii_RepoDigests info) in
  narrowed matches patterns info
  = if (0 <? length tags)%nat || (0 <? length digests)%nat
    then [setRepoTags (setRepoDigests info digests) tags]
    else [].
Proof.
  unfold narrowed. cbv zeta.
  destruct (matching matches patterns (ii_RepoTags info));
    destruct (matching matches patterns (ii_RepoDigests info)); reflexivity.
Qed.

(** One iteration of the loop of [ListImages]. *)
Lemma listLoop_cons (mgr : Mgr) (beforeFilter sinceFilter : option ImageInfo)
      (beforeTime sinceTime : Time) (patterns : list string)
      (img : CtrdImageInfo) (imgs : list CtrdImageInfo) (acc : list ImageInfo) :
  let continue :=
    listLoop mgr beforeFilter sinceFilter beforeTime sinceTime patterns imgs in
  listLoop mgr beforeFilter sinceFilter beforeTime sinceTime patterns (img :: imgs) acc
  = if strictlyBetween (timeBound (sinceFilter, sinceTime))
                       (timeBound (beforeFilter, beforeTime)) img
    then match containerdImageToImageInfo mgr (info_ID img) with
         | Err _ => continue acc
         | Ok info =>
             if (length patterns =? 0)%nat then continue (append acc info)
             else
               match filterReference patterns (ii_RepoDigests info) with
               | Err e => Err e
               | Ok digests =>
                   match filterReference patterns (ii_RepoTags info) with
                   | Err e => Err e
                   | Ok tags =>
                       if (0 <? length tags)%nat || (0 <? length digests)%nat
                       then continue (append acc (setRepoTags (setRepoDigests info digests) tags))
                       else continue acc
                   end
               end
         end
    else continue acc.
Proof.
  cbn [listLoop]. cbv zeta. rewrite not_before, not_after.
  unfold strictlyBetween, timeBound. cbn [fst snd].
  destruct beforeFilter as [bf|], sinceFilter as [sf|]; cbn [isSome andb];
    try destruct (oci_Created (info_OCISpec img) <? beforeTime)%Z;
    try destruct (sinceTime <? oci_Created (info_OCISpec img))%Z;
    cbn [negb andb]; reflexivity.
Qed.

(** The loop of [ListImages] appends, for each cached entry created
    strictly between the bounds, what [reported] gives for it. *)
Lemma listLoop_Ok (mgr : Mgr) (beforeFilter sinceFilter : option ImageInfo)
      (beforeTime sinceTime : Time) (patterns : list string) :
  (forall p name, In p patterns -> FamiliarMatch p name = Ok (matches p name)) ->
  forall (imgs : list CtrdImageInfo) (acc : list ImageInfo),
    listLoop mgr beforeFilter sinceFilter beforeTime sinceTime patterns imgs acc
    = Ok (acc ++ flat_map (reported mgr matches patterns)
                   (filter (strictlyBetween (timeBound (sinceFilter, sinceTime))
                                            (timeBound (beforeFilter, beforeTime)))
                           imgs))%list.
Proof.
  intros Hm. induction imgs as [|img imgs IH]; intros acc.
  - simpl. now rewrite app_nil_r.
  - rewrite listLoop_cons. cbv zeta. cbn [filter].
    destruct (strictlyBetween _ _ img); [|apply IH].
    cbn [flat_map]. unfold reported at 1.
    destruct (containerdImageToImageInfo mgr (info_ID img)) as [info|]; [|apply IH].
    destruct patterns as [|p ps] eqn:Hp.
    + cbn [length Nat.eqb]. rewrite IH. unfold append. now rewrite <- app_assoc.
    + rewrite <- Hp in *.
      assert (Hne : patterns <> []) by (rewrite Hp; discriminate).
      replace (length patterns =? 0)%nat with false by (rewrite Hp; reflexivity).
      rewrite !(filterReference_Ok _ Hne Hm).
      rewrite narrowed_lengths. cbv zeta.
      destruct (_ || _); rewrite IH; [|reflexivity].
      unfold append. now rewrite <- app_assoc.
Qed.

(** The listing for a valid filter set with at most one [before] and one
    [since] value, both resolved, and patterns that can be matched. *)
Lemma ListImages_Ok (mgr : Mgr) (filter : Args) (before since : option ImageInfo * Time) :
  filter_Validate filter acceptedImageFilterTags = None ->
  (length (filter_Get filter "before") <= 1)%nat ->
  (length (filter_Get filter "since") <= 1)%nat ->
  resolveTimeFilter mgr (filter_Get filter "before") = Ok before ->
  resolveTimeFilter mgr (filter_Get filter "since") = Ok since ->
  (forall p name, In p (filter_Get filter "reference") ->
                  FamiliarMatch p name = Ok (matches p name)) ->
  ListImages mgr filter
  = Ok (flat_map (reported mgr matches (filter_Get filter "reference"))
          (List.filter (strictlyBetween (timeBound since) (timeBound before))
                  (ListCtrdImageInfo (localStore mgr)))).
Proof.
  intros Hv Hb Hs Hrb Hrs Hm. unfold ListImages. rewrite Hv.
  apply Nat.ltb_ge in Hb, Hs. rewrite Hb, Hs, Hrb. cbn [bind].
  destruct before as [bf bt]. rewrite Hrs. cbn [bind]. destruct since as [sf st].
  now rewrite (listLoop_Ok _ _ _ _ _ _ Hm).
Qed.

(** The creation time that a [before] or [since] value resolves to is
    that of the cached entry of the image it names, when the time layout
    reads back what it writes. *)
Lemma resolveTimeFilter_created (mgr : Mgr) (image : string) (rest : list string)
      (resolved : option ImageInfo * Time) (id : Digest) (m p : Reference)
      (img : CtrdImageInfo) :
  (forall t, time_Parse (time_Format t) = Ok t) ->
  resolveTimeFilter mgr (image :: rest) = Ok resolved ->
  CheckReference mgr image = Ok (id, m, p) ->
  GetCtrdImageInfo (localStore mgr) id = Ok img ->
  timeBound resolved = Some (oci_Created (info_OCISpec img)).
Proof.
  intros Hrt Hres Hcheck Hget. unfold resolveTimeFilter, GetImage in Hres.
  rewrite Hcheck in Hres. cbn [bind] in Hres.
  unfold containerdImageToImageInfo in Hres. rewrite Hget in Hres.
  destruct (splitReferences _ _ _) as [tags digests]. cbn [bind ii_CreatedAt] in Hres.
  rewrite Hrt in Hres. cbn [bind] in Hres. inversion Hres. reflexivity.
Qed.

Lemma strictlyBetween_iff (since before : option Time) (img : CtrdImageInfo) :
  strictlyBetween since before img = true
  <-> (forall tb, before = Some tb -> (oci_Created (info_OCISpec img) < tb)%Z)
      /\ (forall ts, since = Some ts -> (ts < oci_Created (info_OCISpec img))%Z).
Proof.
  unfold strictlyBetween. rewrite andb_true_iff. split.
  - intros [Hb Hs]. split.
    + intros tb ->. now apply Z.ltb_lt.
    + intros ts ->. now apply Z.ltb_lt.
  - intros [Hb Hs]. split.
    + destruct before as [tb|]; [|reflexivity]. apply Z.ltb_lt. now apply Hb.
    + destruct since as [ts|]; [|reflexivity]. apply Z.ltb_lt. now apply Hs.
Qed.

(** C8.  More than one [before] value or more than one [since] value
    makes the listing fail, with an InvalidParam error when the keys of
    the filter set are accepted.  Otherwise, for accepted keys and with
    the values resolved to the bounds [before] and [since], the listing
    reports the cached entries created strictly before the one and
    strictly after the other, in the order of the cache; an entry
    created at a bound is left out, and so is the image that a filter
    value names. *)
Theorem ListImages_before_since (mgr : Mgr) (filter : Args) :
  let befores := filter_Get filter "before" in
  let sinces := filter_Get filter "since" in
  let patterns := filter_Get filter "reference" in
  let cached := ListCtrdImageInfo (localStore mgr) in
  ((1 < length befores)%nat \/ (1 < length sinces)%nat ->
   exists e, ListImages mgr filter = Err e
             /\ (filter_Validate filter acceptedImageFilterTags = None ->
                 IsInvalidParam e = true))
  /\ (forall before since,
        filter_Validate filter acceptedImageFilterTags = None ->
        (length befores <= 1)%nat -> (length sinces <= 1)%nat ->
        resolveTimeFilter mgr befores = Ok before ->
        resolveTimeFilter mgr sinces = Ok since ->
        (forall p name, In p patterns -> FamiliarMatch p name = Ok (matches p name)) ->
        let kept :=
          List.filter (strictlyBetween (timeBound since) (timeBound before)) cached in
        ListImages mgr filter = Ok (flat_map (reported mgr matches patterns) kept)
        /\ (forall img,
              In img kept
              <-> In img cached
                  /\ (forall tb, timeBound before = Some tb ->
                                 (oci_Created (info_OCISpec img) < tb)%Z)
                  /\ (forall ts, timeBound since = Some ts ->
                                 (ts < oci_Created (info_OCISpec img))%Z))
        /\ ((forall t, time_Parse (time_Format t) = Ok t) ->
            forall image rest id m p img,
              befores = image :: rest \/ sinces = image :: rest ->
              CheckReference mgr image = Ok (id, m, p) ->
              GetCtrdImageInfo (localStore mgr) id = Ok img ->
              ~ In img kept)).
Proof.
  intros befores sinces patterns cached. split.
  - intros Hmany. unfold ListImages. fold befores sinces.
    destruct (filter_Validate filter acceptedImageFilterTags) as [ev|].
    + exists ev. split; [reflexivity|discriminate].
    + destruct (1 <? length befores)%nat eqn:Hb.
      * eexists. split; reflexivity.
      * destruct Hmany as [Hmany|Hmany].
        -- apply Nat.ltb_lt in Hmany. congruence.
        -- apply Nat.ltb_lt in Hmany. rewrite Hmany. eexists. split; reflexivity.
  - intros before since Hv Hb Hs Hrb Hrs Hm kept. split; [|split].
    + now apply ListImages_Ok.
    + intros img. unfold kept. rewrite filter_In, strictlyBetween_iff. tauto.
    + intros Hrt image rest id m p img Hwhich Hcheck Hget Hin.
      unfold kept in Hin. apply filter_In in Hin. destruct Hin as [_ Hin].
      apply strictlyBetween_iff in Hin. destruct Hin as [Hlt Hgt].
      destruct Hwhich as [Hw|Hw].
      * rewrite Hw in Hrb.
        pose proof (@resolveTimeFilter_created mgr _ _ _ _ _ _ _ Hrt Hrb Hcheck Hget)
          as Hbound.
        specialize (Hlt _ Hbound). lia.
      * rewrite Hw in Hrs.
        pose proof (@resolveTimeFilter_created mgr _ _ _ _ _ _ _ Hrt Hrs Hcheck Hget)
          as Hbound.
        specialize (Hgt _ Hbound). lia.
Qed.

Lemma matching_In (patterns names : list string) (name : string) :
  In name (matching matches patterns names)
  <-> In name names /\ exists p, In p patterns /\ matches p name = true.
Proof.
  unfold matching. rewrite filter_In, existsb_exists. reflexivity.
Qed.

Lemma matching_nil (patterns names : list string) :
  matching matches patterns names = []
  <-> forall name p, In name names -> In p patterns -> matches p name = false.
Proof.
  split.
  - intros Hnil name p Hn Hp. destruct (matches p name) eqn:Hmt; [|reflexivity].
    assert (Hin : In name (matching matches patterns names)).
    { apply matching_In. eauto. }
    rewrite Hnil in Hin. contradiction.
  - intros Hnone. destruct (matching matches patterns names) as [|name l] eqn:Hl;
      [reflexivity|].
    assert (Hin : In name (matching matches patterns names)) by (rewrite Hl; now left).
    apply matching_In in Hin. destruct Hin as [Hn [p [Hp Hmt]]].
    rewrite (Hnone _ _ Hn Hp) in Hmt. discriminate.
Qed.

Lemma reported_narrowed (mgr : Mgr) (patterns : list string) (img : CtrdImageInfo)
      (info : ImageInfo) :
  patterns <> [] ->
  containerdImageToImageInfo mgr (info_ID img) = Ok info ->
  reported mgr matches patterns img = narrowed matches patterns info.
Proof.
  intros Hne Hconv. unfold reported. rewrite Hconv.
  destruct patterns; [congruence|reflexivity].
Qed.

(** C9.  With at least one reference pattern, the listing reports, for
    the cached entries that pass the time filters, what [reported] gives:
    an entry one of whose tag-form or digest-form names matches one of
    the patterns is kept, with each of the two lists narrowed to its
    names that match some pattern, and an entry of which no name matches
    any pattern is dropped. *)
Theorem ListImages_reference (mgr : Mgr) (filter : Args)
        (before since : option ImageInfo * Time) :
  filter_Validate filter acceptedImageFilterTags = None ->
  (length (filter_Get filter "before") <= 1)%nat ->
  (length (filter_Get filter "since") <= 1)%nat ->
  resolveTimeFilter mgr (filter_Get filter "before") = Ok before ->
  resolveTimeFilter mgr (filter_Get filter "since") = Ok since ->
  let patterns := filter_Get filter "reference" in
  patterns <> [] ->
  (forall p name, In p patterns -> FamiliarMatch p name = Ok (matches p name)) ->
  ListImages mgr filter
  = Ok (flat_map (reported mgr matches patterns)
          (List.filter (strictlyBetween (timeBound since) (timeBound before))
                  (ListCtrdImageInfo (localStore mgr))))
  /\ (forall img info,
        containerdImageToImageInfo mgr (info_ID img) = Ok info ->
        let matched :=
          exists name p, In name (ii_RepoTags info ++ ii_RepoDigests info)%list
                         /\ In p patterns /\ matches p name = true in
        (matched ->
         reported mgr matches patterns img
         = [setRepoTags
              (setRepoDigests info (matching matches patterns (ii_RepoDigests info)))
              (matching matches patterns (ii_RepoTags info))])
        /\ (~ matched -> reported mgr matches patterns img = [])).
Proof.
  intros Hv Hb Hs Hrb Hrs patterns Hne Hm. split; [now apply ListImages_Ok|].
  intros img info Hconv matched.
  rewrite (reported_narrowed mgr img Hne Hconv). unfold narrowed. split.
  - intros (name & p & Hin & Hpat & Hmt).
    destruct (matching matches patterns (ii_RepoTags info)) as [|t ts] eqn:Ht;
      [|reflexivity].
    destruct (matching matches patterns (ii_RepoDigests info)) as [|d ds] eqn:Hd;
      [|reflexivity].
    exfalso. apply in_app_or in Hin. destruct Hin as [Hin|Hin].
    + rewrite (proj1 (matching_nil _ _) Ht _ _ Hin Hpat) in Hmt. discriminate.
    + rewrite (proj1 (matching_nil _ _) Hd _ _ Hin Hpat) in Hmt. discriminate.
  - intros Hnone.
    assert (Ht : matching matches patterns (ii_RepoTags info) = []).
    { apply matching_nil. intros name p Hin Hpat.
      destruct (matches p name) eqn:Hmt; [|reflexivity].
      exfalso. apply Hnone. exists name, p. repeat split; auto.
      apply in_or_app. now left. }
    assert (Hd : matching matches patterns (ii_RepoDigests info) = []).
    { apply matching_nil. intros name p Hin Hpat.
      destruct (matches p name) eqn:Hmt; [|reflexivity].
      exfalso. apply Hnone. exists name, p. repeat split; auto.
      apply in_or_app. now right. }
    now rewrite Ht, Hd.
Qed.

End ListingFacts.

(* ===================================================================== *)
(** ** The local reference store of the spec *)
(* ===================================================================== *)

Section LocalStoreFacts.
Import LocalStore.
Context {C : Type} {api : APIClient C} {imp : Imports}.

Local Abbreviation Mgr := (ImageManager imageStore C).

Lemma find_filter_same {A} (f : A -> bool) (l : list A) :
  find f (filter (fun x => negb (f x)) l) = None.
Proof.
  induction l as [|x l IH]; [reflexivity|]. simpl.
  destruct (f x) eqn:Hf; simpl; [exact IH|]. now rewrite Hf.
Qed.

Lemma find_filter_other {A} (f g : A -> bool) (l : list A) :
  (forall x, f x = true -> g x = true) ->
  find f (filter g l) = find f l.
Proof.
  intros Hfg. induction l as [|x l IH]; [reflexivity|]. simpl.
  destruct (g x) eqn:Hg; simpl.
  - now rewrite IH.
  - destruct (f x) eqn:Hf; [|exact IH]. rewrite (Hfg _ Hf) in Hg. discriminate.
Qed.

(** The store of the spec keeps the cache apart from the references. *)
#[global] Instance imageStore_laws : @ImageStoreLaws imageStore imageStore_ops.
Proof.
  constructor.
  - reflexivity.
  - intros s id. cbn. unfold getMetadata, evictMetadata. cbn [infos].
    now rewrite (find_filter_same (fun p => String.eqb (fst p) id)).
  - intros s id d Hd. cbn. unfold getMetadata, evictMetadata. cbn [infos].
    rewrite find_filter_other; [reflexivity|].
    intros [k v] Hk. cbn in *. apply String.eqb_eq in Hk. subst k.
    apply negb_true_iff. now apply String.eqb_neq.
  - reflexivity.
Qed.

Lemma NoDup_map_In {A B} (f : A -> B) (l : list A) (x y : A) :
  NoDup (map f l) -> In x l -> In y l -> f x = f y -> x = y.
Proof.
  induction l as [|a l IH]; intros Hnd Hx Hy Hf; [contradiction|].
  simpl in Hnd. inversion Hnd as [|b l' Hnotin Hnd']; subst.
  destruct Hx as [Hx|Hx], Hy as [Hy|Hy]; subst.
  - reflexivity.
  - exfalso. apply Hnotin. rewrite Hf. now apply in_map.
  - exfalso. apply Hnotin. rewrite <- Hf. now apply in_map.
  - now apply IH.
Qed.

Lemma NoDup_map_filter {A B} (f : A -> B) (g : A -> bool) (l : list A) :
  NoDup (map f l) -> NoDup (map f (filter g l)).
Proof.
  induction l as [|a l IH]; intros Hnd; [constructor|].
  simpl in *. inversion Hnd as [|b l' Hnotin Hnd']; subst.
  destruct (g a); [|now apply IH]. simpl. constructor; [|now apply IH].
  intros Hin. apply Hnotin. apply in_map_iff in Hin. destruct Hin as [x [Hx Hin]].
  apply filter_In in Hin. apply in_map_iff. exists x. tauto.
Qed.

Lemma uniqueRefs_empty : uniqueRefs empty.
Proof. constructor. Qed.

(** [removeReference] keeps the references registered once. *)
Lemma uniqueRefs_removeReference (s : imageStore) (id : Digest) (r : Reference) :
  uniqueRefs s -> uniqueRefs (fst (removeReference s id r)).
Proof. unfold uniqueRefs. cbn. apply NoDup_map_filter. Qed.

(** [addReference] keeps the references registered once. *)
Lemma uniqueRefs_addReference (s : imageStore) (id : Digest) (candidate stored : Reference) :
  uniqueRefs s -> uniqueRefs (fst (addReference s id candidate stored)).
Proof.
  unfold uniqueRefs, addReference, lookupRef. intros Hnd.
  assert (Hfresh : forall l,
    (forall e, In e l -> ref_eqb (ent_ref e) stored = false) ->
    NoDup (map (fun e => RefString (ent_ref e)) l) ->
    NoDup (map (fun e => RefString (ent_ref e))
               (append l {| ent_id := id; ent_candidate := candidate; ent_ref := stored |}))).
  { intros l Hl Hndl. unfold append. rewrite map_app. simpl.
    apply NoDup_app; [exact Hndl | repeat constructor; auto | ].
    intros x Hx Hx'. destruct Hx' as [Hx'|[]]. subst x.
    apply in_map_iff in Hx. destruct Hx as [e [He Hin]].
    specialize (Hl _ Hin). unfold ref_eqb in Hl. apply String.eqb_neq in Hl.
    now apply Hl. }
  destruct (find (fun e => ref_eqb (ent_ref e) stored) (refs s)) as [e|] eqn:Hfind.
  - destruct (String.eqb (ent_id e) id); [|exact Hnd]. cbn [fst refs].
    apply Hfresh.
    + intros e' He'. apply filter_In in He'. destruct He' as [_ He'].
      now apply negb_true_iff in He'.
    + now apply NoDup_map_filter.
  - cbn [fst refs]. apply Hfresh; [|exact Hnd].
    intros e' He'. apply (find_none _ _ Hfind e' He').
Qed.

(** C10.  [ListReferences] never returns an error, and for a store that
    registers each reference once it returns exactly the references
    registered as primary for the digest: a reference registered as
    searchable is not in its result. *)
Theorem ListReferences_primary_only (mgr : Mgr) (id : Digest) :
  uniqueRefs (localStore mgr) ->
  snd (ListReferences mgr id) = None
  /\ (forall r, In r (fst (ListReferences mgr id))
                <-> exists e, In e (refs (localStore mgr))
                              /\ ent_id e = id /\ isPrimary e = true /\ ent_ref e = r)
  /\ (forall e, In e (refs (localStore mgr)) -> isPrimary e = false ->
                ~ In (ent_ref e) (fst (ListReferences mgr id))).
Proof.
  intros Hu. split; [reflexivity|].
  assert (Hiff : forall r, In r (fst (ListReferences mgr id))
            <-> exists e, In e (refs (localStore mgr))
                          /\ ent_id e = id /\ isPrimary e = true /\ ent_ref e = r).
  { intros r. cbn. unfold getPrimaryReferences. rewrite in_map_iff. split.
    - intros [e [He Hin]]. apply filter_In in Hin. destruct Hin as [Hin Hb].
      apply andb_prop in Hb. destruct Hb as [Hid Hp]. apply String.eqb_eq in Hid.
      exists e. tauto.
    - intros [e (Hin & Hid & Hp & He)]. exists e. split; [exact He|].
      apply filter_In. split; [exact Hin|]. rewrite Hp, andb_true_r.
      now apply String.eqb_eq. }
  split; [exact Hiff|].
  intros e Hin Hsearch Hlisted. apply Hiff in Hlisted.
  destruct Hlisted as [e' (Hin' & _ & Hp & He)].
  assert (e' = e).
  { apply (NoDup_map_In (fun e => RefString (ent_ref e)) _ _ _ Hu Hin' Hin).
    now rewrite He. }
  subst e'. congruence.
Qed.

(** On the store of the spec, a tag target that is not registered, or is
    registered as a searchable reference only, passes the validation. *)
Lemma validateTagReference_alias_or_new (mgr : Mgr) (ref : Reference) :
  isDigested ref = false ->
  (lookupRef (localStore mgr) ref = None
   \/ exists e, lookupRef (localStore mgr) ref = Some e /\ isPrimary e = false) ->
  validateTagReference mgr ref = None.
Proof.
  intros Hd Hreg. unfold validateTagReference. rewrite Hd. cbn.
  unfold getPrimaryReference.
  destruct Hreg as [Hnone|[e [Hsome Hp]]].
  - now rewrite Hnone.
  - rewrite Hsome. unfold lookupRef in Hsome. apply find_some in Hsome.
    destruct Hsome as [_ Heq]. unfold ref_eqb in Heq. apply String.eqb_eq in Heq.
    rewrite <- Heq. unfold isPrimary, ref_eqb in Hp. now rewrite Hp.
Qed.

(** On the store of the spec, a tag target registered as a primary
    reference is rejected. *)
Lemma validateTagReference_primary (mgr : Mgr) (ref : Reference) (e : entry) :
  lookupRef (localStore mgr) ref = Some e -> isPrimary e = true ->
  exists err, validateTagReference mgr ref = Some err /\ IsInvalidParam err = true.
Proof.
  intros Hsome Hp. unfold validateTagReference.
  destruct (isDigested ref); [eexists; split; reflexivity|]. cbn.
  unfold getPrimaryReference. rewrite Hsome.
  unfold lookupRef in Hsome. apply find_some in Hsome.
  destruct Hsome as [_ Heq]. unfold ref_eqb in Heq. apply String.eqb_eq in Heq.
  rewrite <- Heq. unfold isPrimary, ref_eqb in Hp. rewrite Hp.
  eexists; split; reflexivity.
Qed.

End LocalStoreFacts.

(* ===================================================================== *)
(** ** The properties on the sample daemon *)
(* ===================================================================== *)

Section Runs.
Import Sample.

Local Abbreviation busyboxTag := (mkRef "reg.example/library/busybox" (Some "latest") None).
Local Abbreviation busyboxDigest :=
  (mkRef "reg.example/library/busybox" None (Some "sha256:mb")).
Local Abbreviation busyboxAlias := (mkRef "localhost:5000/busybox" None None).
Local Abbreviation redisDigest :=
  (mkRef "reg.example/library/redis" None (Some "sha256:mr")).

Example path_Join_examples :
  path_Join ["m1"; "ubuntu"] = "m1/ubuntu"
  /\ path_Join ["https://m1"; "ns/ubuntu"] = "https:/m1/ns/ubuntu"
  /\ path_Join ["a/b/"; "../c"] = "a/c"
  /\ path_Join ["/"; ".."] = "/"
  /\ path_Join [""; ""] = ""
  /\ path_Join ["../.."; "a/./.."] = "../..".
Proof. repeat split. Qed.

(** The expansion of [ubuntu] of section 8 of the spec, and that of a
    name in the default registry. *)
Lemma LookupImageReferences_ubuntu :
  hasDomain "ubuntu" = false
  /\ LookupImageReferences booted "ubuntu"
     = ["m1/ubuntu"; "m2/ubuntu"; "reg.example/library/ubuntu"]
  /\ hasDomain "reg.example/ubuntu" = true
  /\ LookupImageReferences booted "reg.example/ubuntu" = ["reg.example/library/ubuntu"].
Proof.
  split; [reflexivity|]. split.
  - exact (proj1 (LookupImageReferences_mirrors_then_default booted "ubuntu") eq_refl).
  - split; [reflexivity|].
    exact (proj2 (LookupImageReferences_mirrors_then_default booted "reg.example/ubuntu")
                 eq_refl).
Defined.

Example LookupImageReferences_domain :
  LookupImageReferences booted "reg.example/ubuntu" = ["reg.example/library/ubuntu"]
  /\ LookupImageReferences booted "other.io/ubuntu" = ["other.io/ubuntu"]
  /\ LookupImageReferences booted "ns/ubuntu"
     = ["m1/ns/ubuntu"; "m2/ns/ubuntu"; "reg.example/ns/ubuntu"].
Proof. repeat split. Qed.

(** A short name is found on the second pass, a full name on the first,
    an alias without tag gives the first primary reference, and a name
    that qualification leaves as it is gives the not-found error. *)
Lemma CheckReference_runs :
  CheckReference booted "busybox:latest" = Ok ("sha256:b1", busyboxTag, busyboxTag)
  /\ CheckReference booted "reg.example/library/busybox@sha256:mb"
     = Ok ("sha256:b1", busyboxDigest, busyboxTag)
  /\ CheckReference aliased "localhost:5000/busybox"
     = Ok ("sha256:b1", busyboxAlias, busyboxTag)
  /\ CheckReference booted "reg.example/library/none:1" = Err ErrNotfound
  /\ CheckReference booted "none:1" = Err ErrNotfound.
Proof.
  split; [|split; [|split; [|split]]].
  - pose proof (CheckReference_two_passes booted "busybox:latest"
                  (namedRef := mkRef "busybox" (Some "latest") None) eq_refl) as [_ Hmiss].
    destruct (Hmiss ErrNotfound eq_refl eq_refl) as [_ Hsecond].
    assert (Hneq : addDefaultRegistryIfMissing "busybox:latest" (DefaultRegistry booted)
                     (DefaultNamespace booted) <> "busybox:latest") by discriminate.
    destruct (Hsecond Hneq busyboxTag eq_refl) as [Hhit _].
    exact (Hhit "sha256:b1" busyboxTag eq_refl).
  - pose proof (CheckReference_two_passes booted "reg.example/library/busybox@sha256:mb"
                  (namedRef := busyboxDigest) eq_refl) as [Hhit _].
    exact (Hhit "sha256:b1" busyboxDigest eq_refl).
  - pose proof (CheckReference_two_passes aliased "localhost:5000/busybox"
                  (namedRef := busyboxAlias) eq_refl) as [Hhit _].
    exact (Hhit "sha256:b1" busyboxAlias eq_refl).
  - pose proof (CheckReference_two_passes booted "reg.example/library/none:1"
                  (namedRef := mkRef "reg.example/library/none" (Some "1") None) eq_refl)
      as [_ Hmiss].
    destruct (Hmiss ErrNotfound eq_refl eq_refl) as [Hsame _].
    exact (Hsame eq_refl).
  - pose proof (CheckReference_two_passes booted "none:1"
                  (namedRef := mkRef "none" (Some "1") None) eq_refl) as [_ Hmiss].
    destruct (Hmiss ErrNotfound eq_refl eq_refl) as [_ Hsecond].
    assert (Hneq : addDefaultRegistryIfMissing "none:1" (DefaultRegistry booted)
                     (DefaultNamespace booted) <> "none:1") by discriminate.
    destruct (Hsecond Hneq (mkRef "reg.example/library/none" (Some "1") None) eq_refl)
      as [_ Hmiss2].
    exact (Hmiss2 ErrNotfound eq_refl).
Defined.

(** Section 8 of the spec, item 5: three history entries of which the
    middle one is empty, over two layers; and the two mismatches. *)
Lemma ImageHistory_runs :
  ImageHistory booted "busybox:latest"
  = Ok [itemOf (mkLayer "sha256:b1" 0%Z) (mkHistory 30%Z "RUN install" false) 0 20%Z;
        itemOf (mkLayer "sha256:b1" 0%Z) (mkHistory 20%Z "ENV PATH" true) 1 0%Z;
        itemOf (mkLayer "sha256:b1" 0%Z) (mkHistory 10%Z "ADD rootfs" false) 2 10%Z]
  /\ ImageHistory (boot [shortManifest]) "short:1" = Err tooFewLayers
  /\ ImageHistory (boot [longManifest]) "long:1" = Err tooManyLayers.
Proof.
  split; [|split].
  - refine (ImageHistory_reconstruction booted "busybox:latest" (img := busybox)
              (desc := mkLayer "sha256:b1" 0%Z) (sizeIn busybox)
              eq_refl eq_refl eq_refl eq_refl _).
    intros l [<-|[<-|[]]]; reflexivity.
  - refine (ImageHistory_reconstruction (boot [shortManifest]) "short:1"
              (img := shortManifest) (desc := mkLayer "sha256:s1" 0%Z)
              (sizeIn shortManifest) eq_refl eq_refl eq_refl eq_refl _).
    intros l [<-|[]]; reflexivity.
  - refine (ImageHistory_reconstruction (boot [longManifest]) "long:1"
              (img := longManifest) (desc := mkLayer "sha256:g1" 0%Z)
              (sizeIn longManifest) eq_refl eq_refl eq_refl eq_refl _).
    intros l [<-|[<-|[<-|[]]]]; reflexivity.
Defined.

(** C4 as the spec states it fails: the busybox image has one primary
    reference, hence one locator among its primary references, and its
    removal by the alias without tag is refused without force, because
    of the searchable reference in the other registry. *)
Lemma identity_refusal_counts_aliases :
  ~ refusedByPrimaryLocators aliased "localhost:5000/busybox".
Proof.
  intros Hclaim.
  specialize (Hclaim "sha256:b1" busyboxAlias busyboxTag eq_refl eq_refl).
  destruct Hclaim as [Hclaim _].
  assert (Hrefused : refused aliased "localhost:5000/busybox" false).
  { eexists. split; reflexivity. }
  apply Hclaim in Hrefused. vm_compute in Hrefused. discriminate.
Qed.

(** The removal by the alias is refused without force, and with force
    removes the one primary reference, from the remote store and from
    the local index.  On the store that resolves IDs, the forced removal
    by ID of the image with two names removes both, each without
    failure; when the content store has lost the second name, the
    removal stops there with the error of the content store, the first
    name removed and the second still in the local index. *)
Lemma RemoveImage_by_identity_runs :
  refused aliased "localhost:5000/busybox" false
  /\ ~ refused aliased "localhost:5000/busybox" true
  /\ (exists mgr1,
        fst (RemoveImage aliased "localhost:5000/busybox" true)
        = clearIfNoPrimary mgr1 "sha256:b1"
        /\ removedAll aliased "sha256:b1" [busyboxTag] mgr1)
  /\ (exists mgr1,
        fst (RemoveImage SampleDaemon.taggedID "sha256:b1" true)
        = clearIfNoPrimary mgr1 "sha256:b1"
        /\ removedAll SampleDaemon.taggedID "sha256:b1"
                      [busyboxTag; mkRef "reg.example/library/mybox" (Some "v1") None] mgr1)
  /\ (exists mgr1,
        fst (RemoveImage SampleDaemon.halfGone "sha256:b1" true)
        = clearIfNoPrimary mgr1 "sha256:b1"
        /\ stoppedAt SampleDaemon.halfGone "sha256:b1"
                     [busyboxTag; mkRef "reg.example/library/mybox" (Some "v1") None] mgr1
                     (ErrNew "image reg.example/library/mybox:v1: not found"))
  /\ GetPrimaryReferences
       (localStore (fst (RemoveImage SampleDaemon.halfGone "sha256:b1" true))) "sha256:b1"
     = [mkRef "reg.example/library/mybox" (Some "v1") None].
Proof.
  pose proof (RemoveImage_by_identity aliased "localhost:5000/busybox" false
                (id := "sha256:b1") (namedRef := busyboxAlias) (primaryRef := busyboxTag)
                eq_refl eq_refl) as [Hblocked _].
  pose proof (RemoveImage_by_identity aliased "localhost:5000/busybox" true
                (id := "sha256:b1") (namedRef := busyboxAlias) (primaryRef := busyboxTag)
                eq_refl eq_refl) as [Hforced Hremoved].
  assert (Hfree : forall P : Prop, ~ (true = false /\ P))
    by (intros P [Hforce _]; discriminate Hforce).
  assert (Hid : byIdentity "sha256:b1" (mkRef "sha256" (Some "b1") None) = true)
    by reflexivity.
  split; [|split; [|split; [|split; [|split; [|vm_compute; reflexivity]]]]].
  - apply Hblocked. split; reflexivity.
  - intros Hrefused. apply Hforced in Hrefused. destruct Hrefused as [Hforce _].
    discriminate Hforce.
  - apply Hremoved. apply Hfree.
  - assert (Hcheck : CheckReference SampleDaemon.taggedID "sha256:b1"
                     = Ok ("sha256:b1", mkRef "sha256" (Some "b1") None, busyboxTag))
      by (vm_compute; reflexivity).
    assert (Hprim : GetPrimaryReferences (localStore SampleDaemon.taggedID) "sha256:b1"
                    = [busyboxTag; mkRef "reg.example/library/mybox" (Some "v1") None])
      by (vm_compute; reflexivity).
    assert (Hdone : snd (RemoveImage SampleDaemon.taggedID "sha256:b1" true) = None)
      by (vm_compute; reflexivity).
    destruct (RemoveImage_by_identity SampleDaemon.taggedID "sha256:b1" true Hcheck Hid)
      as [_ Hall].
    destruct (Hall (Hfree _)) as (mgr1 & Hfst & Hrun).
    rewrite Hdone, Hprim in Hrun. exists mgr1. split; assumption.
  - assert (Hcheck : CheckReference SampleDaemon.halfGone "sha256:b1"
                     = Ok ("sha256:b1", mkRef "sha256" (Some "b1") None, busyboxTag))
      by (vm_compute; reflexivity).
    assert (Hprim : GetPrimaryReferences (localStore SampleDaemon.halfGone) "sha256:b1"
                    = [busyboxTag; mkRef "reg.example/library/mybox" (Some "v1") None])
      by (vm_compute; reflexivity).
    assert (Hfail : snd (RemoveImage SampleDaemon.halfGone "sha256:b1" true)
                    = Some (ErrNew "image reg.example/library/mybox:v1: not found"))
      by (vm_compute; reflexivity).
    destruct (RemoveImage_by_identity SampleDaemon.halfGone "sha256:b1" true Hcheck Hid)
      as [_ Hall].
    destruct (Hall (Hfree _)) as (mgr1 & Hfst & Hrun).
    rewrite Hfail, Hprim in Hrun. exists mgr1. split; assumption.
Defined.

(** C5 as the spec states it fails: the redis image was pulled by digest,
    so that its primary reference has a digest; removing it by that
    reference calls the remote store, where the digest stripped would
    leave a reference that is not primary, to be untagged only. *)
Lemma named_removal_keeps_digest :
  ~ untagsStrippedDigest booted "reg.example/library/redis@sha256:mr" false.
Proof.
  intros Hclaim.
  specialize (Hclaim "sha256:r1" redisDigest redisDigest eq_refl eq_refl).
  cbv zeta in Hclaim.
  assert (Hneq : RefString (StripDigest redisDigest) <> RefString redisDigest)
    by discriminate.
  apply Hclaim in Hneq. vm_compute in Hneq. discriminate.
Qed.

(** The removal of the redis image by its primary reference removes it
    from the local index and calls the remote store; the removal of the
    digest alias of the busybox image is an untag that does not. *)
Lemma RemoveImage_by_name_runs :
  effects (fst (RemoveImage booted "reg.example/library/redis@sha256:mr" false))
  = [CallRemoveImage "reg.example/library/redis@sha256:mr"]
  /\ Search (localStore (fst (RemoveImage booted "reg.example/library/redis@sha256:mr" false)))
            redisDigest = Err ErrNotfound
  /\ effects (fst (RemoveImage booted "busybox@sha256:mb" false))
     = [ImageEvent "reg.example/library/busybox@sha256:mb"
                   "reg.example/library/busybox@sha256:mb" "untag"]
  /\ client (fst (RemoveImage booted "busybox@sha256:mb" false)) = content.
Proof.
  pose proof (RemoveImage_by_name booted "reg.example/library/redis@sha256:mr" false
                (id := "sha256:r1") (namedRef := redisDigest) (primaryRef := redisDigest)
                eq_refl eq_refl) as [Hprimary _].
  pose proof (RemoveImage_by_name booted "busybox@sha256:mb" false
                (id := "sha256:b1") (namedRef := busyboxDigest) (primaryRef := busyboxTag)
                eq_refl eq_refl) as [_ Huntag].
  specialize (Hprimary eq_refl). cbv zeta in Hprimary, Huntag.
  assert (Hneq : RefString busyboxTag <> RefString (TrimTagForDigest busyboxDigest))
    by discriminate.
  destruct (Huntag Hneq) as (_ & Heffects & Hclient).
  split; [|split; [|split]].
  - change (effects (fst (RemoveImage booted "reg.example/library/redis@sha256:mr" false))
            = effects (fst (clearIfNoPrimary
                              (withClient
                                 (withStore booted
                                    (fst (RemoveReference (localStore booted) "sha256:r1"
                                                          redisDigest)))
                                 (fst (client_RemoveImage (client booted)
                                         (RefString redisDigest)))
                                 (CallRemoveImage (RefString redisDigest)))
                              "sha256:r1",
                            snd (client_RemoveImage (client booted) (RefString redisDigest))))).
    exact (f_equal (fun out => effects (fst out)) Hprimary).
  - exact (f_equal (fun out => Search (localStore (fst out)) redisDigest) Hprimary).
  - exact Heffects.
  - exact Hclient.
Defined.

(** Tagging onto a digest or onto a primary reference is refused with an
    InvalidParam error; a new name and a name registered as a searchable
    reference are accepted. *)
Lemma AddTag_validation_runs :
  (exists e, AddTag booted "busybox:latest" "ubuntu:16.04" = (booted, Some e)
             /\ IsInvalidParam e = true)
  /\ (exists e, AddTag booted "busybox:latest" "busybox@sha256:mb" = (booted, Some e)
                /\ IsInvalidParam e = true)
  /\ AddTag booted "busybox:latest" "mybox:v1"
     = addValidatedTag booted "busybox:latest"
                       (mkRef "reg.example/library/mybox" (Some "v1") None)
  /\ AddTag mirrored "busybox:latest" "localhost:5000/busybox"
     = addValidatedTag mirrored "busybox:latest"
                       (mkRef "localhost:5000/busybox" (Some "latest") None).
Proof.
  assert (Hubuntu : parseTagReference
            (addDefaultRegistryIfMissing "ubuntu:16.04" (DefaultRegistry booted)
                                         (DefaultNamespace booted))
          = Ok (mkRef "reg.example/library/ubuntu" (Some "16.04") None)) by reflexivity.
  assert (Hdigest : parseTagReference
            (addDefaultRegistryIfMissing "busybox@sha256:mb" (DefaultRegistry booted)
                                         (DefaultNamespace booted))
          = Ok busyboxDigest) by reflexivity.
  assert (Hmybox : parseTagReference
            (addDefaultRegistryIfMissing "mybox:v1" (DefaultRegistry booted)
                                         (DefaultNamespace booted))
          = Ok (mkRef "reg.example/library/mybox" (Some "v1") None)) by reflexivity.
  assert (Halias : parseTagReference
            (addDefaultRegistryIfMissing "localhost:5000/busybox" (DefaultRegistry mirrored)
                                         (DefaultNamespace mirrored))
          = Ok (mkRef "localhost:5000/busybox" (Some "latest") None)) by reflexivity.
  split; [|split; [|split]].
  - apply (AddTag_validation booted "busybox:latest" "ubuntu:16.04" Hubuntu).
    right. eexists. split; reflexivity.
  - apply (AddTag_validation booted "busybox:latest" "busybox@sha256:mb" Hdigest).
    left. reflexivity.
  - apply (AddTag_validation booted "busybox:latest" "mybox:v1" Hmybox).
    intros [Hd|[p [Hp _]]]; discriminate.
  - apply (AddTag_validation mirrored "busybox:latest" "localhost:5000/busybox" Halias).
    intros [Hd|[p [Hp Heq]]]; [discriminate|].
    vm_compute in Hp. inversion Hp; subst p. discriminate Heq.
Defined.

(** Removing the only primary reference of the busybox image evicts its
    cache entry and leaves that of the ubuntu image; untagging its digest
    alias leaves the primary reference and the cache entry. *)
Lemma RemoveImage_cache_cleanup_runs :
  GetCtrdImageInfo (localStore (fst (RemoveImage booted "busybox:latest" false))) "sha256:b1"
  = Err errCtrdImageInfoNotExist
  /\ GetCtrdImageInfo (localStore (fst (RemoveImage booted "busybox:latest" false)))
                      "sha256:u1"
     = GetCtrdImageInfo (localStore booted) "sha256:u1"
  /\ GetCtrdImageInfo (localStore (fst (RemoveImage booted "busybox@sha256:mb" false)))
                      "sha256:b1"
     = GetCtrdImageInfo (localStore booted) "sha256:b1".
Proof.
  pose proof (RemoveImage_cache_cleanup booted "busybox:latest" false
                (id := "sha256:b1") (namedRef := busyboxTag) (primaryRef := busyboxTag)
                eq_refl) as [Hevicted Hkept].
  pose proof (RemoveImage_cache_cleanup booted "busybox@sha256:mb" false
                (id := "sha256:b1") (namedRef := busyboxDigest) (primaryRef := busyboxTag)
                eq_refl) as [_ Hkept'].
  split; [|split].
  - apply Hevicted. reflexivity.
  - apply Hkept. left. discriminate.
  - apply Hkept'. right. discriminate.
Defined.

Lemma time_roundtrip (t : Time) : time_Parse (time_Format t) = Ok t.
Proof.
  cbn. unfold time_parse, time_format. rewrite NilEmpty.isi.
  now rewrite DecimalZ.of_to.
Qed.

(** Section 8 of the spec, item 6: since the busybox image, created at
    100, and before the alpine image, created at 300, the listing has
    the ubuntu image only; two [before] values are refused. *)
Lemma ListImages_before_since_runs :
  (exists e, ListImages booted [("before", ["busybox:latest"; "alpine:latest"])] = Err e
             /\ IsInvalidParam e = true)
  /\ (exists l, ListImages booted [("since", ["busybox:latest"]);
                                   ("before", ["alpine:latest"])] = Ok l
                /\ map ii_ID l = ["sha256:u1"])
  /\ (forall img, GetCtrdImageInfo (localStore booted) "sha256:b1" = Ok img ->
                  ~ In img (List.filter (strictlyBetween (Some 100%Z) (Some 300%Z))
                                        (ListCtrdImageInfo (localStore booted)))).
Proof.
  pose proof (ListImages_before_since familiar booted
                [("before", ["busybox:latest"; "alpine:latest"])]) as [Hmany _].
  pose proof (ListImages_before_since familiar booted
                [("since", ["busybox:latest"]); ("before", ["alpine:latest"])])
    as [_ Hbounds].
  assert (Hvalid : filter_Validate [("since", ["busybox:latest"]);
                                    ("before", ["alpine:latest"])]
                                   acceptedImageFilterTags = None) by reflexivity.
  assert (Hbefore : resolveTimeFilter booted ["alpine:latest"]
                    = Ok (match GetImage booted "alpine:latest" with
                          | Ok info => Some info
                          | Err _ => None
                          end, 300%Z)) by reflexivity.
  assert (Hsince : resolveTimeFilter booted ["busybox:latest"]
                   = Ok (match GetImage booted "busybox:latest" with
                         | Ok info => Some info
                         | Err _ => None
                         end, 100%Z)) by reflexivity.
  destruct (Hbounds _ _ Hvalid (le_n 1) (le_n 1) Hbefore Hsince (fun p name _ => eq_refl))
    as (Hlist & _ & Hboundary).
  split; [|split].
  - destruct (Hmany (or_introl (le_n 2))) as (e & Herr & Hparam).
    exists e. split; [exact Herr|]. apply Hparam. reflexivity.
  - eexists. split; [exact Hlist|reflexivity].
  - intros img Hget.
    apply (Hboundary time_roundtrip "busybox:latest" [] "sha256:b1" busyboxTag busyboxTag).
    + right. reflexivity.
    + reflexivity.
    + exact Hget.
Defined.

(** Section 8 of the spec, item 6: under the pattern of the tag [latest]
    the listing keeps the busybox and alpine images, with that tag alone
    and no digest-form name, and drops the other two. *)
Lemma ListImages_reference_runs :
  exists l, ListImages booted [("reference", ["*:latest"])] = Ok l
            /\ map (fun i => (ii_ID i, ii_RepoTags i, ii_RepoDigests i)) l
               = [("sha256:b1", ["reg.example/library/busybox:latest"], []);
                  ("sha256:a1", ["reg.example/library/alpine:latest"], [])].
Proof.
  assert (Hnone : resolveTimeFilter booted [] = Ok (None, 0%Z)) by reflexivity.
  assert (Hpatterns : filter_Get [("reference", ["*:latest"])] "reference" <> [])
    by discriminate.
  assert (Hvalid : filter_Validate [("reference", ["*:latest"])] acceptedImageFilterTags
                   = None) by reflexivity.
  destruct (ListImages_reference familiar booted [("reference", ["*:latest"])]
              Hvalid (le_S _ _ (le_n 0)) (le_S _ _ (le_n 0)) Hnone Hnone Hpatterns
              (fun p name _ => eq_refl)) as [Hlist _].
  eexists. split; [exact Hlist|reflexivity].
Defined.

(** The references listed for the busybox image are its one primary
    reference: its digest alias is not among them. *)
Lemma ListReferences_runs :
  LocalStore.uniqueRefs (localStore booted)
  /\ ListReferences booted "sha256:b1" = ([busyboxTag], None)
  /\ ~ In busyboxDigest (fst (ListReferences booted "sha256:b1")).
Proof.
  assert (Hunique : LocalStore.uniqueRefs (localStore booted)).
  { unfold LocalStore.uniqueRefs. cbn.
    repeat (constructor; [cbn; intuition discriminate|]). constructor. }
  destruct (ListReferences_primary_only booted "sha256:b1" Hunique) as (_ & _ & Hsearch).
  split; [exact Hunique|]. split; [reflexivity|].
  apply (Hsearch {| LocalStore.ent_id := "sha256:b1";
                    LocalStore.ent_candidate := busyboxTag;
                    LocalStore.ent_ref := busyboxDigest |}).
  - cbn. right. left. reflexivity.
  - reflexivity.
Defined.

End Runs.

(* ===================================================================== *)
(** ** Further properties: expansion and resolution *)
(* ===================================================================== *)

Section MoreFacts.
Context {S C : Type} {store : ImageStore S} {api : APIClient C} {imp : Imports}.

Local Abbreviation Mgr := (ImageManager S C).

Lemma IndexRune_app (a b : string) :
  ContainsRune a slash = false ->
  IndexRune (a ++ String slash b) slash = Z.of_nat (String.length a).
Proof.
  induction a as [|c a IH]; intros Hno.
  - reflexivity.
  - simpl in Hno. apply orb_false_elim in Hno. destruct Hno as [Hc Ha].
    cbn [String.append IndexRune]. rewrite Hc, (IH Ha).
    replace (Z.of_nat (String.length a) =? -1)%Z with false
      by (symmetry; apply Z.eqb_neq; lia).
    cbn [String.length]. lia.
Qed.

Lemma substring_all (b : string) : String.substring 0 (String.length b) b = b.
Proof. induction b as [|c b IH]; simpl; [reflexivity|]. now rewrite IH. Qed.

Lemma sliceTo_app (a x : string) : sliceTo (a ++ x) (Z.of_nat (String.length a)) = a.
Proof.
  unfold sliceTo. rewrite Nat2Z.id.
  induction a as [|c a IH]; simpl.
  - now destruct x.
  - now rewrite IH.
Qed.

Lemma sliceFrom_app (a b : string) :
  sliceFrom (a ++ String slash b) (Z.of_nat (String.length a) + 1) = b.
Proof.
  unfold sliceFrom.
  replace (Z.to_nat (Z.of_nat (String.length a) + 1)) with (Datatypes.S (String.length a))
    by lia.
  induction a as [|c a IH]; simpl.
  - rewrite Nat.sub_0_r. apply substring_all.
  - exact IH.
Qed.

(** A string with a slash splits at its first slash. *)
Lemma IndexRune_split (ref : string) :
  IndexRune ref slash <> (-1)%Z ->
  exists a b, ref = a ++ String slash b /\ ContainsRune a slash = false.
Proof.
  induction ref as [|c ref IH]; intros Hidx; [now elim Hidx|].
  cbn [IndexRune] in Hidx. destruct (Ascii.eqb c slash) eqn:Hc.
  - apply Ascii.eqb_eq in Hc. subst c. exists "", ref. now split.
  - destruct (IndexRune ref slash =? -1)%Z eqn:Hi; [now elim Hidx|].
    apply Z.eqb_neq in Hi. destruct (IH Hi) as (a & b & -> & Ha).
    exists (String c a), b. split; [reflexivity|]. simpl. now rewrite Hc, Ha.
Qed.

Lemma ContainsAny_slash_app (x y : string) : ContainsAny (x ++ "/" ++ y) "/" = true.
Proof.
  induction x as [|c x IH]; [reflexivity|].
  change (String c x ++ "/" ++ y) with (String c (x ++ "/" ++ y)).
  cbn [ContainsAny]. rewrite IH. apply orb_true_r.
Qed.

(** The expansion of a candidate [registry/remainder] whose registry
    looks like a domain and whose remainder has a slash, or is not in
    the default registry, is that candidate alone. *)
Lemma LookupImageReferences_qualified (mgr : Mgr) (registry remainder : string) :
  ContainsRune registry slash = false ->
  ContainsAny registry ".:" = true ->
  String.eqb registry (DefaultRegistry mgr) && negb (ContainsAny remainder "/") = false ->
  LookupImageReferences mgr (registry ++ String slash remainder)
  = [registry ++ String slash remainder].
Proof.
  intros Hno Hdom Hkeep.
  assert (Hhas : hasDomain (registry ++ String slash remainder) = true).
  { unfold hasDomain. rewrite IndexRune_app by exact Hno. rewrite sliceTo_app, Hdom.
    replace (Z.of_nat (String.length registry) =? -1)%Z with false
      by (symmetry; apply Z.eqb_neq; lia).
    reflexivity. }
  rewrite (LookupImageReferences_with_domain mgr _ Hhas). cbv zeta.
  rewrite IndexRune_app by exact Hno.
  rewrite sliceTo_app, sliceFrom_app, Hkeep. reflexivity.
Qed.

(** X1.  The last candidate of an expansion is fully qualified: expanding
    it again gives that candidate alone, for a reference with a registry
    domain, and for any reference when the default registry looks like a
    domain (it has a dot or a colon and no slash). *)
Theorem LookupImageReferences_canonical (mgr : Mgr) (ref : string) :
  hasDomain ref = true
  \/ (ContainsAny (DefaultRegistry mgr) ".:" = true
      /\ ContainsRune (DefaultRegistry mgr) slash = false) ->
  let canonical := last (LookupImageReferences mgr ref) "" in
  LookupImageReferences mgr canonical = [canonical].
Proof.
  intros Hcase. destruct (hasDomain ref) eqn:Hdom.
  - clear Hcase. rewrite (LookupImageReferences_with_domain mgr _ Hdom). cbv zeta.
    cbn [last]. unfold hasDomain in Hdom. apply andb_prop in Hdom.
    destruct Hdom as [Hidx Hany]. apply negb_true_iff, Z.eqb_neq in Hidx.
    destruct (IndexRune_split _ Hidx) as (a & b & -> & Ha).
    rewrite IndexRune_app in * by exact Ha. rewrite sliceTo_app in *.
    rewrite sliceFrom_app.
    apply (LookupImageReferences_qualified mgr); try assumption.
    destruct (String.eqb a (DefaultRegistry mgr)); [|reflexivity].
    destruct (ContainsAny b "/") eqn:Hb; cbn [negb andb].
    + now rewrite Hb.
    + now rewrite ContainsAny_slash_app.
  - destruct Hcase as [Habs|[Hany Hno]]; [discriminate|].
    rewrite (LookupImageReferences_without_domain mgr _ Hdom). cbv zeta.
    rewrite last_last.
    apply (LookupImageReferences_qualified mgr); try assumption.
    rewrite String.eqb_refl. cbn [andb].
    destruct (ContainsAny ref "/") eqn:Hb.
    + now rewrite Hb.
    + now rewrite ContainsAny_slash_app.
Qed.

(** X2.  A resolution that succeeds returns what the store matched: the
    digest and the matched reference are the answer of the store for the
    parsed input, or, after a not-found miss, for the parsed qualified
    input; and the primary reference is the first primary reference of
    the digest for an ID, and else the one the store gives for the
    matched reference. *)
Theorem CheckReference_sound (mgr : Mgr) (idOrRef : string) (id : Digest) (m p : Reference) :
  CheckReference mgr idOrRef = Ok (id, m, p) ->
  let s := localStore mgr in
  let qualified :=
    addDefaultRegistryIfMissing idOrRef (DefaultRegistry mgr) (DefaultNamespace mgr) in
  (exists r, Parse idOrRef = Ok r
             /\ (Search s r = Ok (id, m)
                 \/ exists e r2, Search s r = Err e /\ IsNotfound e = true
                                 /\ qualified <> idOrRef
                                 /\ Parse qualified = Ok r2 /\ Search s r2 = Ok (id, m)))
  /\ (if byIdentity id m
      then hd_error (GetPrimaryReferences s id) = Some p
      else GetPrimaryReference s m = Ok p).
Proof.
  intros Hcheck s qualified. split; [|exact (CheckReference_Ok _ _ Hcheck)].
  unfold CheckReference in Hcheck. fold s qualified in Hcheck.
  destruct (Parse idOrRef) as [r|] eqn:Hparse; cbn [bind] in Hcheck; [|discriminate].
  exists r. split; [reflexivity|].
  assert (Htail : forall found : Result (Digest * Reference),
    bind found
      (fun x => let '(actualID, actualRef) := x in
         if IsNamedOnly actualRef || HasPrefix actualID (RefString actualRef)
         then match GetPrimaryReferences s actualID with
              | [] => Err ErrNotfound
              | primaryRef :: _ => Ok (actualID, actualRef, primaryRef)
              end
         else primaryRef <- GetPrimaryReference s actualRef ;;
              Ok (actualID, actualRef, primaryRef)) = Ok (id, m, p) ->
    found = Ok (id, m)).
  { intros [[id' m']|e] H; cbn [bind] in H; [|discriminate].
    destruct (IsNamedOnly m' || HasPrefix id' (RefString m')).
    - destruct (GetPrimaryReferences s id'); [discriminate|]. now inversion H.
    - destruct (GetPrimaryReference s m'); cbn [bind] in H; [|discriminate].
      now inversion H. }
  apply Htail in Hcheck. clear Htail.
  destruct (Search s r) as [found|e] eqn:Hs.
  - left. exact Hcheck.
  - right. destruct (IsNotfound e) eqn:Hnf; cbn [negb] in Hcheck; [|discriminate].
    destruct (String.eqb qualified idOrRef) eqn:Hq; [discriminate|].
    apply String.eqb_neq in Hq.
    destruct (Parse qualified) as [r2|] eqn:Hp2; cbn [bind] in Hcheck; [|discriminate].
    exists e, r2. repeat split; auto.
Qed.

End MoreFacts.

(* ===================================================================== *)
(** ** Further properties: removal and tagging *)
(* ===================================================================== *)

Section MoreRemovalFacts.
Context {S C : Type} {store : ImageStore S} {api : APIClient C} {imp : Imports}.

Local Abbreviation Mgr := (ImageManager S C).

(** X3.  A removal whose reference does not resolve returns the error of
    the resolution and changes nothing.  A removal that resolves only
    adds effects, each of them the removal of a primary reference from
    the remote store, one of the digest for a removal by identity and
    the primary reference of the named reference otherwise, or the untag
    event of the named reference: a searchable reference is never sent
    to the remote store, and nothing is created there. *)
Theorem RemoveImage_effects (mgr : Mgr) (idOrRef : string) (force : bool) :
  match CheckReference mgr idOrRef with
  | Err e => RemoveImage mgr idOrRef force = (mgr, Some e)
  | Ok (id, m, p) =>
      exists added,
        effects (fst (RemoveImage mgr idOrRef force)) = (effects mgr ++ added)%list
        /\ Forall (removalEffect mgr id m) added
  end.
Proof.
  destruct (CheckReference mgr idOrRef) as [[[id m] p]|e] eqn:Hcheck;
    [|unfold RemoveImage; now rewrite Hcheck].
  pose proof (CheckReference_Ok _ _ Hcheck) as Hprim.
  unfold RemoveImage. rewrite Hcheck. unfold removeResolved.
  fold (byIdentity id m). destruct (byIdentity id m) eqn:Hid.
  - destruct (negb force && _).
    + exists []. cbn [fst]. rewrite clearIfNoPrimary_effects, app_nil_r. now split.
    + pose proof (removePrimaryReferences_spec
                    (GetPrimaryReferences (localStore mgr) id) mgr id) as Hspec.
      destruct (removePrimaryReferences mgr id (GetPrimaryReferences (localStore mgr) id))
        as [mgr1 [e|]]; cbn [fst snd] in *; rewrite clearIfNoPrimary_effects.
      * destruct Hspec as (before & r & rest & mid & Hrefs & (Hmid & _) & Heff & _).
        exists (map (fun q => CallRemoveImage (RefString q)) (before ++ [r])).
        split.
        -- rewrite Heff, Hmid, map_app. unfold append. now rewrite <- app_assoc.
        -- apply Forall_forall. intros ev Hev. apply in_map_iff in Hev.
           destruct Hev as (q & <- & Hq). cbn. rewrite Hid. exists q. split; [reflexivity|].
           rewrite Hrefs. apply in_app_or in Hq. apply in_or_app.
           destruct Hq as [Hq|[<-|[]]]; [now left|right; now left].
      * destruct Hspec as (Heff & _).
        exists (map (fun q => CallRemoveImage (RefString q))
                    (GetPrimaryReferences (localStore mgr) id)).
        split; [exact Heff|]. apply Forall_forall. intros ev Hev.
        apply in_map_iff in Hev. destruct Hev as (q & <- & Hq).
        cbn. rewrite Hid. now exists q.
  - destruct (String.eqb (RefString p) (RefString (TrimTagForDigest m))).
    + unfold storeRemoveReference.
      destruct (RemoveReference (localStore mgr) id p) as [s1 [e|]]; cbn [fst].
      * exists []. rewrite clearIfNoPrimary_effects, app_nil_r. now split.
      * unfold clientRemoveImage. cbn [client withStore].
        destruct (client_RemoveImage (client mgr) (RefString p)) as [c err]. cbn [fst].
        exists [CallRemoveImage (RefString p)].
        rewrite clearIfNoPrimary_effects. split; [reflexivity|].
        constructor; [|constructor]. cbn. rewrite Hid. now exists p.
    + unfold storeRemoveReference. cbn [localStore LogImageEvent].
      destruct (RemoveReference (localStore mgr) id (TrimTagForDigest m)) as [s1 err].
      cbn [fst]. eexists. rewrite clearIfNoPrimary_effects. split; [reflexivity|].
      constructor; [|constructor]. cbn. now rewrite Hid.
Qed.

Lemma addReferenceIntoStore_frame (mgr : Mgr) (id : Digest) (ref : Reference) (dig : Digest) :
  let mgr' := fst (addReferenceIntoStore mgr id ref dig) in
  effects mgr' = effects mgr /\ client mgr' = client mgr
  /\ DefaultRegistry mgr' = DefaultRegistry mgr
  /\ DefaultNamespace mgr' = DefaultNamespace mgr
  /\ RegistryMirrors mgr' = RegistryMirrors mgr.
Proof.
  unfold addReferenceIntoStore.
  destruct (AddReference (localStore mgr) id ref ref) as [s1 [e|]]; [now cbn|].
  destruct (IsNameTagged ref); [|now cbn].
  destruct (Search s1 (WithDigest ref dig)) as [found|e]; [now cbn|].
  destruct (IsNotfound e); [|now cbn].
  now destruct (AddReference s1 id ref (WithDigest ref dig)).
Qed.

(** X4.  [AddTag] calls the remote store at most once, to create the
    target name for the target of the source image, and only after the
    target has been registered in the local store without error; when it
    makes no call it leaves the client as it was, and when it fails
    before the registration it changes nothing. *)
Theorem AddTag_effects (mgr : Mgr) (sourceImage targetTag : string) :
  let out := AddTag mgr sourceImage targetTag in
  (fst out = mgr /\ exists e, snd out = Some e)
  \/ exists tagRef img cfg,
       parseTagReference
         (addDefaultRegistryIfMissing targetTag (DefaultRegistry mgr) (DefaultNamespace mgr))
       = Ok tagRef
       /\ validateTagReference mgr tagRef = None
       /\ fetchContainerdImage mgr sourceImage = Ok img
       /\ img_Config img = Ok cfg
       /\ let registered :=
            addReferenceIntoStore mgr (desc_Digest cfg) tagRef
                                  (desc_Digest (img_Target img)) in
          match snd registered with
          | Some e =>
              out = (fst registered, Some e)
              /\ effects (fst out) = effects mgr /\ client (fst out) = client mgr
          | None =>
              effects (fst out)
              = append (effects mgr)
                       (CallCreateImageReference (RefString tagRef) (img_Target img))
              /\ localStore (fst out) = localStore (fst registered)
              /\ snd out
                 = snd (client_CreateImageReference (client mgr) (RefString tagRef)
                                                    (img_Target img))
          end.
Proof.
  cbv zeta. unfold AddTag.
  destruct (parseTagReference _) as [tagRef|e] eqn:Hparse; [|left; cbn; eauto].
  destruct (validateTagReference mgr tagRef) as [e|] eqn:Hval; [left; cbn; eauto|].
  unfold addValidatedTag.
  destruct (fetchContainerdImage mgr sourceImage) as [img|e] eqn:Hfetch;
    [|left; cbn; eauto].
  destruct (img_Config img) as [cfg|e] eqn:Hcfg; [|left; cbn; eauto].
  right. exists tagRef, img, cfg. repeat (split; [reflexivity|]).
  pose proof (addReferenceIntoStore_frame mgr (desc_Digest cfg) tagRef
                (desc_Digest (img_Target img))) as (Heff & Hcl & _).
  destruct (addReferenceIntoStore mgr (desc_Digest cfg) tagRef
              (desc_Digest (img_Target img))) as [mgr1 [e|]]; cbn [fst snd] in *.
  - now repeat split.
  - unfold clientCreateImageReference. rewrite Hcl.
    destruct (client_CreateImageReference (client mgr) (RefString tagRef) (img_Target img))
      as [c err]. cbn. now rewrite Heff.
Qed.

End MoreRemovalFacts.

(* ===================================================================== *)
(** ** Further properties: what is registered can be resolved *)
(* ===================================================================== *)

Section RoundTrips.
Context {S C : Type} {store : ImageStore S} {api : APIClient C} {imp : Imports}.
Context {laws : @ImageStoreLaws S store} {removal : @ImageStoreRemovalLaws S store}.
Context {asID : S -> Reference -> bool} {index : @ImageStoreIndexLaws S store asID}.

Local Abbreviation Mgr := (ImageManager S C).

Lemma append_inv_head (a b c : string) : a ++ b = a ++ c -> b = c.
Proof.
  induction a as [|x a IH]; simpl; intros H; [exact H|]. inversion H. now apply IH.
Qed.

(** The digest alias of a tagged reference is another string. *)
Lemma WithDigest_differs (ref : Reference) (dig : Digest) :
  IsNameTagged ref = true -> RefString (WithDigest ref dig) <> RefString ref.
Proof.
  unfold IsNameTagged, isTagged, RefString, WithDigest. cbn [Name Tag RefDigest].
  destruct (Tag ref) as [t|]; [|discriminate]. intros _ Heq.
  apply append_inv_head in Heq. discriminate Heq.
Qed.

(** A reference registered without error, which the store does not take
    for an ID of one of its images, is found under the digest, as its
    own primary reference. *)
Lemma addReferenceIntoStore_registers (mgr mgr1 : Mgr) (id : Digest) (ref : Reference)
      (dig : Digest) :
  addReferenceIntoStore mgr id ref dig = (mgr1, None) ->
  asID (localStore mgr1) ref = false ->
  Search (localStore mgr1) ref = Ok (id, ref)
  /\ GetPrimaryReference (localStore mgr1) ref = Ok ref.
Proof.
  unfold addReferenceIntoStore.
  destruct (AddReference (localStore mgr) id ref ref) as [s1 [e|]] eqn:Hadd;
    [discriminate|].
  pose proof (AddReference_search _ _ _ _ Hadd) as Hs.
  pose proof (AddReference_primary _ _ _ _ Hadd) as Hp.
  destruct (IsNameTagged ref) eqn:Htag;
    [|intros H Has; inversion H; subst; split; [now apply Hs|exact Hp]].
  destruct (Search s1 (WithDigest ref dig)) as [found|e];
    [intros H Has; inversion H; subst; split; [now apply Hs|exact Hp]|].
  destruct (IsNotfound e);
    [|intros H Has; inversion H; subst; split; [now apply Hs|exact Hp]].
  assert (Hne : RefString ref <> RefString (WithDigest ref dig)).
  { intros Heq. now apply (WithDigest_differs ref dig Htag). }
  pose proof (AddReference_other_search s1 id ref (WithDigest ref dig) ref Hne) as Hos.
  pose proof (AddReference_other_primary s1 id ref (WithDigest ref dig) ref Hne) as Hop.
  pose proof (AddReference_asID s1 id ref (WithDigest ref dig) ref) as Hmono.
  destruct (AddReference s1 id ref (WithDigest ref dig)) as [s2 err2]. cbn [fst] in *.
  intros H Has; inversion H; subst. cbn [localStore withStore] in *.
  rewrite (Hos Has), Hop. split; [apply Hs; now apply Hmono|exact Hp].
Qed.

(** A string that parses to a reference the store finds, which is not an
    ID, resolves by the first pass. *)
Lemma CheckReference_found (mgr : Mgr) (x : string) (id : Digest) (ref p : Reference) :
  Parse x = Ok ref -> Search (localStore mgr) ref = Ok (id, ref) ->
  GetPrimaryReference (localStore mgr) ref = Ok p -> byIdentity id ref = false ->
  CheckReference mgr x = Ok (id, ref, p).
Proof.
  intros Hparse Hs Hp Hid. unfold CheckReference. rewrite Hparse. cbn [bind].
  rewrite Hs. cbn [bind]. unfold byIdentity in Hid. now rewrite Hid, Hp.
Qed.

(** X5.  After [StoreImageReference] has stored an image without error,
    the name of the image resolves to the config digest of the image,
    with the parsed name as matched and as primary reference, and
    [GetImage] by that name returns the ID, size and creation time that
    were cached.  This for a name that is not an ID of the image and
    that the store, as it is then, does not take for an ID of one of its
    images either; on any store that finds by [Search] what was
    registered, whether or not it resolves IDs too. *)
Theorem StoreImageReference_resolves (mgr mgr' : Mgr) (img : Image) (namedRef : Reference)
        (cfg : Descriptor) (size : Z) (ociImg : ociImage) :
  StoreImageReference mgr img = (mgr', None) ->
  Parse (img_Name img) = Ok namedRef ->
  img_Config img = Ok cfg -> img_Size img = Ok size -> img_OciImage img = Ok ociImg ->
  byIdentity (desc_Digest cfg) namedRef = false ->
  asID (localStore mgr') namedRef = false ->
  CheckReference mgr' (img_Name img) = Ok (desc_Digest cfg, namedRef, namedRef)
  /\ exists info, GetImage mgr' (img_Name img) = Ok info
                  /\ ii_ID info = desc_Digest cfg
                  /\ ii_Size info = size
                  /\ ii_CreatedAt info = time_Format (oci_Created ociImg).
Proof.
  intros Hstore Hparse Hcfg Hsize Hoci Hid Has. unfold StoreImageReference in Hstore.
  rewrite Hcfg, Hparse, Hsize, Hoci in Hstore.
  destruct (addReferenceIntoStore mgr (desc_Digest cfg) namedRef
              (desc_Digest (img_Target img))) as [mgr1 [e|]] eqn:Hreg; [discriminate|].
  inversion Hstore; subst mgr'. clear Hstore. cbn [localStore withStore] in Has.
  destruct (addReferenceIntoStore_registers _ _ _ Hreg (Cache_asID _ _ _ _ Has))
    as [Hs Hp].
  assert (Hcheck : CheckReference
            (withStore mgr1
               (CacheCtrdImageInfo (localStore mgr1) (desc_Digest cfg)
                  {| info_ID := desc_Digest cfg; info_Size := size;
                     info_OCISpec := ociImg |})) (img_Name img)
          = Ok (desc_Digest cfg, namedRef, namedRef)).
  { apply CheckReference_found; cbn [localStore withStore]; try assumption.
    - now rewrite Cache_search by exact Has.
    - now rewrite Cache_primary. }
  split; [exact Hcheck|].
  unfold GetImage. rewrite Hcheck. cbn [bind]. unfold containerdImageToImageInfo.
  cbn [localStore withStore]. rewrite Cache_get. cbn [info_ID info_OCISpec info_Size].
  destruct (splitReferences _ _ _) as [tags digests]. eexists. split; [reflexivity|].
  now cbn.
Qed.

(** X6.  After [AddTag] has succeeded, the target, as parsed and
    default-tagged, is found in the local store under the config digest
    of the source image, as its own primary reference: a string that
    parses to it resolves to that digest, whatever happens to the other
    names of the image.  This for a target that the store, as it is
    then, does not take for an ID of one of its images; on any store
    that finds by [Search] what was registered, whether or not it
    resolves IDs too. *)
Theorem AddTag_resolves (mgr mgr' : Mgr) (sourceImage targetTag : string)
        (tagRef : Reference) (img : Image) (cfg : Descriptor) :
  AddTag mgr sourceImage targetTag = (mgr', None) ->
  parseTagReference
    (addDefaultRegistryIfMissing targetTag (DefaultRegistry mgr) (DefaultNamespace mgr))
  = Ok tagRef ->
  fetchContainerdImage mgr sourceImage = Ok img ->
  img_Config img = Ok cfg ->
  asID (localStore mgr') tagRef = false ->
  Search (localStore mgr') tagRef = Ok (desc_Digest cfg, tagRef)
  /\ GetPrimaryReference (localStore mgr') tagRef = Ok tagRef
  /\ (forall x, Parse x = Ok tagRef -> byIdentity (desc_Digest cfg) tagRef = false ->
                CheckReference mgr' x = Ok (desc_Digest cfg, tagRef, tagRef)).
Proof.
  intros Htag Hparse Hfetch Hcfg Has. unfold AddTag in Htag. rewrite Hparse in Htag.
  destruct (validateTagReference mgr tagRef); [discriminate|].
  unfold addValidatedTag in Htag. rewrite Hfetch, Hcfg in Htag.
  destruct (addReferenceIntoStore mgr (desc_Digest cfg) tagRef
              (desc_Digest (img_Target img))) as [mgr1 [e|]] eqn:Hreg; [discriminate|].
  unfold clientCreateImageReference in Htag.
  destruct (client_CreateImageReference (client mgr1) (RefString tagRef) (img_Target img))
    as [c err]. inversion Htag; subst. cbn [localStore withClient] in *.
  destruct (addReferenceIntoStore_registers _ _ _ Hreg Has) as [Hs Hp].
  split; [exact Hs|]. split; [exact Hp|].
  intros x Hx Hid. now apply CheckReference_found.
Qed.

Lemma removePrimaryReferences_primaries (refs : list Reference) (mgr mgr1 : Mgr)
      (id : Digest) :
  removePrimaryReferences mgr id refs = (mgr1, None) ->
  GetPrimaryReferences (localStore mgr1) id
  = filter (fun r' => negb (existsb (fun r => String.eqb (RefString r') (RefString r)) refs))
           (GetPrimaryReferences (localStore mgr) id).
Proof.
  revert mgr. induction refs as [|r refs IH]; intros mgr Hrm.
  - inversion Hrm; subst. cbn.
    induction (GetPrimaryReferences (localStore mgr1) id) as [|x l IHl];
      [reflexivity|]. cbn. now rewrite <- IHl.
  - cbn [removePrimaryReferences] in Hrm. unfold clientRemoveImage in Hrm.
    destruct (client_RemoveImage (client mgr) (RefString r)) as [c [e|]]; [discriminate|].
    unfold storeRemoveReference in Hrm. cbn [localStore withClient] in Hrm.
    destruct (RemoveReference (localStore mgr) id r) as [s [e|]] eqn:Hs; [discriminate|].
    rewrite (IH _ Hrm). cbn [localStore withStore].
    rewrite (RemoveReference_primaries _ _ _ Hs).
    induction (GetPrimaryReferences (localStore mgr) id) as [|x l IHl];
      [reflexivity|]. cbn.
    destruct (String.eqb (RefString x) (RefString r)); cbn; [exact IHl|].
    destruct (existsb _ refs); cbn; [exact IHl|]. now rewrite IHl.
Qed.

(** X7.  A removal by identity, by an ID, a short ID or a name without
    tag, that returns no error leaves the digest without primary
    reference and without cache entry; on any store whose removal takes
    a reference out of the primary references of its digest. *)
Theorem RemoveImage_by_identity_complete (mgr : Mgr) (idOrRef : string) (force : bool)
        (id : Digest) (namedRef primaryRef : Reference) :
  CheckReference mgr idOrRef = Ok (id, namedRef, primaryRef) ->
  byIdentity id namedRef = true ->
  snd (RemoveImage mgr idOrRef force) = None ->
  let mgr' := fst (RemoveImage mgr idOrRef force) in
  GetPrimaryReferences (localStore mgr') id = []
  /\ GetCtrdImageInfo (localStore mgr') id = Err errCtrdImageInfoNotExist.
Proof.
  intros Hcheck Hid Hnone. cbv zeta. unfold RemoveImage in *. rewrite Hcheck in *.
  unfold removeResolved in *. unfold byIdentity in Hid. rewrite Hid in *.
  destruct (negb force && _); [discriminate Hnone|].
  destruct (removePrimaryReferences mgr id (GetPrimaryReferences (localStore mgr) id))
    as [mgr1 err] eqn:Hrm. cbn [fst snd] in *. subst err.
  pose proof (removePrimaryReferences_primaries _ _ _ Hrm) as Hleft.
  assert (Hempty : GetPrimaryReferences (localStore mgr1) id = []).
  { rewrite Hleft.
    assert (Hall : forall l l', incl l l' ->
      filter (fun r' => negb (existsb (fun r => String.eqb (RefString r') (RefString r)) l'))
             l = []).
    { induction l as [|x l IHl]; intros l' Hincl; [reflexivity|]. cbn.
      replace (existsb (fun r => String.eqb (RefString x) (RefString r)) l') with true.
      - cbn. apply IHl. intros y Hy. apply Hincl. now right.
      - symmetry. apply existsb_exists. exists x. split.
        + apply Hincl. now left.
        + apply String.eqb_refl. }
    apply Hall. apply incl_refl. }
  unfold clearIfNoPrimary. rewrite Hempty. cbn.
  split; [now rewrite Clear_refs | apply Clear_cache_same].
Qed.

End RoundTrips.

(* ===================================================================== *)
(** ** Further properties: history, listing and image information *)
(* ===================================================================== *)

Section MoreViews.
Context {S C : Type} {store : ImageStore S} {api : APIClient C} {imp : Imports}.

Local Abbreviation Mgr := (ImageManager S C).

Lemma layerPointer_prefix (history : list History) (layers : list Descriptor)
      (pre suf : list History) :
  rev history = (pre ++ suf)%list ->
  layerPointer history layers (length pre)
  = (Z.of_nat (length layers) - 1 - Z.of_nat (length (nonEmptyLayers pre)))%Z.
Proof.
  intros Hrev. unfold layerPointer. rewrite Hrev.
  rewrite firstn_app, Nat.sub_diag, firstn_all. cbn [firstn]. now rewrite app_nil_r.
Qed.

(** The sizes given to the entries with a layer, from the index
    [length pre] on, are those of the layers below the pointer, going
    down. *)
Lemma layerSizes_from (desc : Descriptor) (history : list History)
      (layers : list Descriptor) (size : Digest -> Z) (suf : list History) :
  forall pre, rev history = (pre ++ suf)%list ->
    layerSizes (map (expectedItem desc history layers size) (seq (length pre) (length suf)))
    = map (fun t => size (desc_Digest
                            (nth (Z.to_nat (Z.of_nat (length layers) - 1 - Z.of_nat t))
                                 layers zeroDescriptor)))
          (seq (length (nonEmptyLayers pre)) (length (nonEmptyLayers suf))).
Proof.
  induction suf as [|h suf IH]; intros pre Hrev; [reflexivity|].
  cbn [length seq map]. unfold layerSizes. cbn [filter].
  assert (Hh : nth (length pre) (rev history) zeroHistory = h).
  { rewrite Hrev, app_nth2, Nat.sub_diag by lia. reflexivity. }
  assert (Hnext : rev history = ((pre ++ [h]) ++ suf)%list)
    by (now rewrite <- app_assoc).
  specialize (IH (pre ++ [h])%list Hnext). rewrite length_app in IH.
  cbn [length] in IH. rewrite Nat.add_1_r in IH. unfold layerSizes in IH.
  unfold expectedItem at 1. rewrite Hh. cbn [itemOf hri_EmptyLayer hri_Size].
  unfold nonEmptyLayers in *. rewrite filter_app, length_app in IH. cbn [filter] in *.
  destruct (hist_EmptyLayer h) eqn:He; cbn [negb length map] in *.
  - rewrite IH, Nat.add_0_r. reflexivity.
  - rewrite IH, Nat.add_1_r. cbn [seq map]. f_equal.
    unfold expectedItem. rewrite Hh, He. cbn [itemOf hri_Size].
    rewrite (layerPointer_prefix history layers pre (h :: suf) Hrev).
    reflexivity.
Qed.

Lemma map_from_top {A} (f : Descriptor -> A) (layers : list Descriptor) :
  map (fun t => f (nth (Z.to_nat (Z.of_nat (length layers) - 1 - Z.of_nat t))
                       layers zeroDescriptor))
      (seq 0 (length layers))
  = rev (map f layers).
Proof.
  induction layers as [|x layers IH] using rev_ind; [reflexivity|].
  rewrite length_app. cbn [length]. rewrite Nat.add_1_r. cbn [seq map].
  rewrite map_app, rev_app_distr. cbn [map rev app]. f_equal.
  - replace (Z.to_nat (Z.of_nat (Datatypes.S (length layers)) - 1 - Z.of_nat 0))
      with (length layers) by lia.
    now rewrite app_nth2, Nat.sub_diag by lia.
  - rewrite <- IH, <- seq_shift, map_map. apply map_ext_in. intros t Ht.
    apply in_seq in Ht.
    replace (Z.to_nat (Z.of_nat (Datatypes.S (length layers)) - 1
                       - Z.of_nat (Datatypes.S t)))
      with (Z.to_nat (Z.of_nat (length layers) - 1 - Z.of_nat t)) by lia.
    rewrite app_nth1 by lia. reflexivity.
Qed.

(** X8.  When the manifest has as many layers as the history has entries
    with a layer, and the content store gives their sizes, the
    reconstruction succeeds and the sizes reported for the entries with
    a layer, top-most first, are the sizes of the layers of the manifest
    in reverse order: each layer is given to one entry, in order. *)
Theorem reconstructHistory_layer_sizes (desc : Descriptor) (history : list History)
        (layers : list Descriptor) (info : Digest -> Result Z) (size : Digest -> Z) :
  (forall l, In l layers -> info (desc_Digest l) = Ok (size (desc_Digest l))) ->
  length (nonEmptyLayers history) = length layers ->
  exists items,
    reconstructHistory desc history layers info = Ok items
    /\ length items = length history
    /\ layerSizes items = rev (map (fun l => size (desc_Digest l)) layers).
Proof.
  intros Hinfo Hsame.
  rewrite (reconstructHistory_spec desc history layers info size Hinfo).
  rewrite Hsame, Nat.ltb_irrefl. eexists. split; [reflexivity|]. split.
  - now rewrite length_map, length_seq.
  - pose proof (layerSizes_from desc history layers size (rev history) []
                  (eq_refl : rev history = ([] ++ rev history)%list)) as Hsizes.
    cbn [length] in Hsizes. rewrite length_rev in Hsizes. rewrite Hsizes.
    cbn [nonEmptyLayers filter length]. rewrite nonEmptyLayers_rev, Hsame.
    exact (map_from_top (fun l => size (desc_Digest l)) layers).
Qed.

(** X9.  An image whose root filesystem does not have as many diff IDs as
    its manifest has layers has no history: [ImageHistory] fails with the
    mismatch error of [getManifest], whatever the history says. *)
Theorem ImageHistory_rootfs_mismatch (mgr : Mgr) (idOrRef : string) (img : Image)
        (desc : Descriptor) (ociImg : ociImage) (manifest : Manifest)
        (diffIDs : list Digest) :
  fetchContainerdImage mgr idOrRef = Ok img ->
  img_Config img = Ok desc ->
  img_OciImage img = Ok ociImg ->
  img_Manifest img = Ok manifest ->
  img_RootFS img = Ok diffIDs ->
  length (man_Layers manifest) <> length diffIDs ->
  ImageHistory mgr idOrRef = Err (ErrNew "mismatched image rootfs and manifest layers").
Proof.
  intros Hfetch Hcfg Hoci Hman Hroot Hne. unfold ImageHistory.
  rewrite Hfetch. cbn [bind]. rewrite Hcfg. cbn [bind]. rewrite Hoci. cbn [bind].
  unfold getManifest. rewrite Hman. cbn [bind]. rewrite Hroot. cbn [bind].
  apply Nat.eqb_neq in Hne. now rewrite Hne.
Qed.

Lemma historyLoop_info_fails (desc : Descriptor) (history : list History)
      (layers : list Descriptor) (info : Digest -> Result Z) (e : error) (j : Z) :
  (forall l, In l layers -> info (desc_Digest l) = Err e) ->
  (0 <= j < Z.of_nat (length layers))%Z ->
  forall (todo : list nat) (slice : list HistoryResultItem),
    (exists i, In i todo
               /\ hist_EmptyLayer (nth (length history - i - 1) history zeroHistory) = false) ->
    historyLoop desc history layers info todo j slice = Err e.
Proof.
  intros Hinfo Hj. induction todo as [|i todo IH]; intros slice [i0 [Hin Hne]];
    [contradiction|].
  rewrite historyLoop_cons. cbv zeta.
  destruct (hist_EmptyLayer (nth (length history - i - 1) history zeroHistory)) eqn:Hi.
  - apply IH. exists i0. split; [|exact Hne].
    destruct Hin as [<-|Hin]; [congruence|exact Hin].
  - replace (j <? 0)%Z with false by (symmetry; apply Z.ltb_ge; lia).
    rewrite Hinfo; [reflexivity|]. apply nth_In. lia.
Qed.

(** X10.  When the content store fails on the layers of the manifest, the
    reconstruction of a history with at least one entry with a layer,
    over a manifest with at least one layer, returns the error of the
    content store, not an integrity error: the layer counts are not
    compared before the sizes are read. *)
Theorem reconstructHistory_info_error (desc : Descriptor) (history : list History)
        (layers : list Descriptor) (info : Digest -> Result Z) (e : error) :
  (forall l, In l layers -> info (desc_Digest l) = Err e) ->
  layers <> [] -> nonEmptyLayers history <> [] ->
  reconstructHistory desc history layers info = Err e.
Proof.
  intros Hinfo Hlayers Hhist. unfold reconstructHistory.
  rewrite (historyLoop_info_fails desc history layers info (e := e)); try assumption.
  - reflexivity.
  - destruct layers; [congruence|]. cbn [length]. lia.
  - destruct (nonEmptyLayers history) as [|h l] eqn:Hne; [congruence|].
    assert (Hin : In h (nonEmptyLayers history)) by (rewrite Hne; now left).
    unfold nonEmptyLayers in Hin. apply filter_In in Hin. destruct Hin as [Hin Hh].
    apply negb_true_iff in Hh.
    destruct (In_nth _ _ zeroHistory Hin) as (p & Hp & Hnth).
    exists (length history - p - 1)%nat. split.
    + apply in_seq. lia.
    + replace (length history - (length history - p - 1) - 1)%nat with p by lia.
      now rewrite Hnth.
Qed.

Lemma matchPatterns_sound (filter : list string) (name : string) :
  match matchPatterns filter name with
  | Ok found => found = matchedBy filter name
  | Err e => exists p, In p filter /\ FamiliarMatch p name = Err e
  end.
Proof.
  induction filter as [|p filter IH]; [reflexivity|].
  cbn [matchPatterns matchedBy existsb].
  destruct (FamiliarMatch p name) as [[|]|e] eqn:Hp; cbn [bind].
  - reflexivity.
  - destruct (matchPatterns filter name) as [found|e].
    + exact IH.
    + destruct IH as [q [Hq He]]. exists q. split; [now right|exact He].
  - exists p. split; [now left|exact Hp].
Qed.

Lemma filterLoop_sound (filter refs acc : list string) :
  match filterLoop filter refs acc with
  | Ok kept => kept = (acc ++ List.filter (matchedBy filter) refs)%list
  | Err e => exists name p, In name refs /\ In p filter /\ FamiliarMatch p name = Err e
  end.
Proof.
  revert acc. induction refs as [|name refs IH]; intros acc.
  - cbn. now rewrite app_nil_r.
  - cbn [filterLoop List.filter].
    pose proof (matchPatterns_sound filter name) as Hm.
    destruct (matchPatterns filter name) as [found|e]; cbn [bind].
    + subst found. specialize (IH (if matchedBy filter name then append acc name else acc)).
      destruct (filterLoop filter refs _) as [kept|e].
      * rewrite IH. destruct (matchedBy filter name); [|reflexivity].
        unfold append. now rewrite <- app_assoc.
      * destruct IH as (n & p & Hn & Hp & He). exists n, p. repeat split; auto.
        now right.
    + destruct Hm as [p [Hp He]]. exists name, p. repeat split; auto. now left.
Qed.

(** X11.  [filterReference] returns the names as they are for an empty
    filter, without matching any.  For patterns, an answer without error
    keeps exactly the names that some pattern matches, in their order,
    and an error is one that [FamiliarMatch] returned for a pattern of
    the filter on one of the names. *)
Theorem filterReference_sound (filter ref : list string) :
  match filterReference filter ref with
  | Ok kept =>
      kept = match filter with
             | [] => ref
             | _ => List.filter (matchedBy filter) ref
             end
  | Err e => exists name p, In name ref /\ In p filter /\ FamiliarMatch p name = Err e
  end.
Proof.
  unfold filterReference. destruct filter as [|p filter]; [reflexivity|].
  cbn [length Nat.eqb]. exact (filterLoop_sound (p :: filter) ref []).
Qed.

(** X12.  A [before] or [since] value that names an image that cannot be
    resolved makes the listing fail with the error of the resolution,
    whatever the cache holds: the filter is not ignored. *)
Theorem ListImages_unresolved (mgr : Mgr) (filter : Args) (image : string) (e : error) :
  filter_Validate filter acceptedImageFilterTags = None ->
  GetImage mgr image = Err e ->
  (filter_Get filter "before" = [image] ->
   (length (filter_Get filter "since") <= 1)%nat ->
   ListImages mgr filter = Err e)
  /\ (filter_Get filter "since" = [image] ->
      forall before, (length (filter_Get filter "before") <= 1)%nat ->
                     resolveTimeFilter mgr (filter_Get filter "before") = Ok before ->
                     ListImages mgr filter = Err e).
Proof.
  intros Hv Hget. unfold ListImages. rewrite Hv. cbv zeta.
  assert (Hone : (1 <? length [image])%nat = false) by reflexivity.
  split.
  - intros Hb Hs. apply Nat.ltb_ge in Hs. rewrite Hs, Hb, Hone.
    cbn [resolveTimeFilter]. now rewrite Hget.
  - intros Hs before Hb Hrb. apply Nat.ltb_ge in Hb. rewrite Hb, Hrb, Hs, Hone.
    cbn [bind resolveTimeFilter]. destruct before. now rewrite Hget.
Qed.

Lemma splitReferences_spec (refs : list Reference) (repoTags repoDigests : list string) :
  splitReferences refs repoTags repoDigests
  = ((repoTags ++ map RefString (List.filter isTagged refs))%list,
     (repoDigests
      ++ map RefString
           (List.filter (fun r => negb (isTagged r) && isCanonicalDigested r) refs))%list).
Proof.
  revert repoTags repoDigests. induction refs as [|r refs IH]; intros tags digests.
  - cbn. now rewrite !app_nil_r.
  - cbn [splitReferences List.filter]. destruct (isTagged r); cbn [negb andb].
    + rewrite IH. unfold append. cbn [map]. now rewrite <- app_assoc.
    + destruct (isCanonicalDigested r); rewrite IH; [|reflexivity].
      unfold append. cbn [map]. now rewrite <- app_assoc.
Qed.

(** X13.  The information of a cached image lists each reference of the
    image once at most, in the order of the store: a reference with a
    tag among the tag-form names, also when it has a digest too, a
    reference with a digest and no tag among the digest-form names, and
    a reference with neither nowhere.  The references are those of the
    ID recorded in the cache entry, which is the ID reported. *)
Theorem containerdImageToImageInfo_names (mgr : Mgr) (id : Digest) (cached : CtrdImageInfo) :
  GetCtrdImageInfo (localStore mgr) id = Ok cached ->
  let refs := GetReferences (localStore mgr) (info_ID cached) in
  exists info,
    containerdImageToImageInfo mgr id = Ok info
    /\ ii_ID info = info_ID cached
    /\ ii_RepoTags info = map RefString (List.filter isTagged refs)
    /\ ii_RepoDigests info
       = map RefString (List.filter (fun r => negb (isTagged r) && isDigested r) refs).
Proof.
  intros Hget refs. unfold containerdImageToImageInfo. rewrite Hget.
  fold refs. rewrite splitReferences_spec. eexists. split; [reflexivity|].
  now cbn.
Qed.

End MoreViews.

(* ===================================================================== *)
(** ** Further properties: the removal handler, pulling and start-up *)
(* ===================================================================== *)

Section DaemonFacts.
Context {S C K : Type} {store : ImageStore S} {api : APIClient C}
        {puller : ImagePuller C} {ctrs : ContainerMgr K} {imp : Imports}.

Local Abbreviation Mgr := (ImageManager S C).

Lemma StoreImageReference_frame (mgr : Mgr) (img : Image) :
  let mgr' := fst (StoreImageReference mgr img) in
  effects mgr' = effects mgr /\ client mgr' = client mgr
  /\ DefaultRegistry mgr' = DefaultRegistry mgr
  /\ DefaultNamespace mgr' = DefaultNamespace mgr
  /\ RegistryMirrors mgr' = RegistryMirrors mgr.
Proof.
  unfold StoreImageReference.
  destruct (img_Config img) as [cfg|e]; [|now cbn].
  destruct (Parse (img_Name img)) as [namedRef|e]; [|now cbn].
  destruct (img_Size img) as [size|e]; [|now cbn].
  destruct (img_OciImage img) as [ociImg|e]; [|now cbn].
  pose proof (addReferenceIntoStore_frame mgr (desc_Digest cfg) namedRef
                (desc_Digest (img_Target img))) as Hframe.
  destruct (addReferenceIntoStore mgr (desc_Digest cfg) namedRef
              (desc_Digest (img_Target img))) as [mgr1 [e|]]; exact Hframe.
Qed.

Lemma checksContainers_true (refs : list Reference) (imageID name : string) :
  length refs = 1%nat \/ isImageIDPrefix imageID name = Returned true ->
  checksContainers refs imageID name = Returned true.
Proof.
  intros [Hone|Hprefix]; unfold checksContainers.
  - now rewrite Hone.
  - destruct (length refs =? 1)%nat; [reflexivity|exact Hprefix].
Qed.

(** X14.  An image with a single primary reference, or one named by a
    prefix of its ID, the ID taken with its algorithm or as its
    hexadecimal part alone, is checked against the containers before
    anything is removed: when listing the containers fails the handler
    returns that error, also with force, and when a container uses the
    image and force is not set it refuses, naming the first such
    container; in both cases the manager is left as it was.  Otherwise
    the request is handed over to [RemoveImage]. *)
Theorem server_removeImage_in_use (mgr : Mgr) (k : K) (name : string) (isForce : bool)
        (image : ImageInfo) :
  GetImage mgr name = Ok image ->
  length (fst (ListReferences mgr (ii_ID image))) = 1%nat
  \/ isImageIDPrefix (ii_ID image) name = Returned true ->
  let inUse := container_List k (fun c => String.eqb (ctr_Image c) (ii_ID image)) in
  (forall err, inUse = Err err ->
               server_removeImage mgr k name isForce = Returned (mgr, Err err))
  /\ (forall c0 rest,
         inUse = Ok (c0 :: rest) -> isForce = false ->
         server_removeImage mgr k name isForce
         = Returned (mgr, Err (ErrNew ("Unable to remove the image " ++ fmt_q (ii_ID image)
                                       ++ " (must force) - container (" ++ ctr_ID c0
                                       ++ ", " ++ ctr_Name c0
                                       ++ ") is using this image"))))
  /\ (forall found, inUse = Ok found -> found = [] \/ isForce = true ->
                    server_removeImage mgr k name isForce
                    = Returned (handedOver mgr name isForce)).
Proof.
  intros Hget Hcheck inUse. unfold server_removeImage. rewrite Hget.
  rewrite ListReferences_eq in *. cbn [fst] in Hcheck.
  rewrite (checksContainers_true _ _ _ Hcheck). fold inUse. unfold handedOver.
  repeat split.
  - intros err ->. reflexivity.
  - intros c0 rest -> ->. reflexivity.
  - intros found -> Hwhy.
    destruct (RemoveImage mgr name isForce) as [mgr' [e|]]; cbn [fst snd];
      destruct found as [|c0 rest]; try reflexivity;
      destruct Hwhy as [Hnil| ->]; try discriminate; reflexivity.
Qed.

(** X15.  For an image with several primary references, or none, named
    by something that is not a prefix of its ID, the containers are not
    consulted: whatever the container manager holds, and also without
    force, the request is handed over to [RemoveImage]. *)
Theorem server_removeImage_unchecked (mgr : Mgr) (name : string) (isForce : bool)
        (image : ImageInfo) :
  GetImage mgr name = Ok image ->
  length (fst (ListReferences mgr (ii_ID image))) <> 1%nat ->
  isImageIDPrefix (ii_ID image) name = Returned false ->
  forall k : K, server_removeImage mgr k name isForce = Returned (handedOver mgr name isForce).
Proof.
  intros Hget Hmany Hprefix k. unfold server_removeImage. rewrite Hget.
  rewrite ListReferences_eq in *. cbn [fst] in Hmany.
  unfold checksContainers. apply Nat.eqb_neq in Hmany. rewrite Hmany, Hprefix.
  unfold handedOver. now destruct (RemoveImage mgr name isForce) as [mgr' [e|]].
Qed.

(** X16.  Once the reference has been parsed, every run of [PullImage]
    starts with the call to the client, for the reference with its
    default tag or its digest alone and the candidates of
    [LookupImageReferences], and closes the stream and cancels the
    context exactly once.  An object is written to the stream only for
    an error of the client, with code 500 and the text of the error that
    is returned, and then neither the events nor the local store have
    changed.  The plugin runs last, after the stream was closed. *)
Theorem PullImage_stream (mgr : Mgr) (imagePlugin : option (Image -> option error))
        (ref : string) (named : Reference) :
  Parse ref = Ok named ->
  let out := PullImage mgr imagePlugin ref in
  let ops := snd (fst out) in
  hd_error ops
  = Some (CallPullImage (RefString (TrimTagForDigest (WithDefaultTagIfMissing named)))
                        (LookupImageReferences mgr ref))
  /\ closes ops = 1%nat /\ cancels ops = 1%nat
  /\ (forall code msg,
         In (WriteObject code msg) ops ->
         exists e, snd out = Some e /\ code = 500%Z /\ msg = Error e
                   /\ effects (fst (fst out)) = effects mgr
                   /\ localStore (fst (fst out)) = localStore mgr)
  /\ (forall name,
         In (PostPull name) ops ->
         exists before, ops = (before ++ [PostPull name])%list /\ In StreamClose before).
Proof.
  intros Hparse out ops. subst ops out. unfold PullImage. rewrite Hparse.
  destruct (client_PullImage _ _ _) as [c [img|e]].
  - destruct imagePlugin as [postPull|]; cbn [snd fst].
    + destruct (postPull img) as [e|].
      * cbn. repeat split; try reflexivity.
        -- intros code msg [H|[H|[H|[H|[H|[]]]]]]; discriminate.
        -- intros name [H|[H|[H|[H|[H|[]]]]]]; try discriminate.
           inversion H; subst. eexists [_; _; _; _]. split; [reflexivity|].
           cbn. tauto.
      * destruct (StoreImageReference _ img) as [mgr' err]. cbn.
        repeat split; try reflexivity.
        -- intros code msg [H|[H|[H|[H|[H|[]]]]]]; discriminate.
        -- intros name [H|[H|[H|[H|[H|[]]]]]]; try discriminate.
           inversion H; subst. eexists [_; _; _; _]. split; [reflexivity|].
           cbn. tauto.
    + destruct (StoreImageReference _ img) as [mgr' err]. cbn.
      repeat split; try reflexivity.
      * intros code msg [H|[H|[H|[H|[]]]]]; discriminate.
      * intros name [H|[H|[H|[H|[]]]]]; discriminate.
  - cbn. repeat split; try reflexivity.
    + intros code msg [H|[H|[H|[H|[H|[]]]]]]; try discriminate.
      inversion H; subst. exists e. repeat split; reflexivity.
    + intros name [H|[H|[H|[H|[H|[]]]]]]; discriminate.
Qed.

(** X17.  [PullImage] publishes the pull event exactly when the client
    has pulled the image and the plugin, if any, has accepted it, and it
    does so before the image is stored: the event is there also when
    storing the image then fails, and that failure is what is returned.
    Without the event the local store is untouched. *)
Theorem PullImage_event (mgr : Mgr) (imagePlugin : option (Image -> option error))
        (ref : string) (named : Reference) (c : C) (pulled : Result Image) :
  Parse ref = Ok named ->
  let target := RefString (TrimTagForDigest (WithDefaultTagIfMissing named)) in
  client_PullImage (client mgr) target (LookupImageReferences mgr ref) = (c, pulled) ->
  let out := PullImage mgr imagePlugin ref in
  let mgr' := fst (fst out) in
  client mgr' = c
  /\ match pulled with
     | Ok img =>
         if pluginAccepts imagePlugin img
         then effects mgr' = append (effects mgr) (ImageEvent (img_Name img) target "pull")
              /\ snd out
                 = snd (StoreImageReference
                          (LogImageEvent (setClient mgr c) (img_Name img) target "pull") img)
         else effects mgr' = effects mgr /\ localStore mgr' = localStore mgr
              /\ exists e, snd out = Some e
     | Err e => effects mgr' = effects mgr /\ localStore mgr' = localStore mgr
                /\ snd out = Some e
     end.
Proof.
  intros Hparse target Hpull out mgr'. subst mgr' out. unfold PullImage.
  rewrite Hparse. fold target. rewrite Hpull.
  destruct pulled as [img|e]; [|now cbn].
  unfold pluginAccepts.
  destruct imagePlugin as [postPull|]; cbn [snd fst].
  - destruct (postPull img) as [e|].
    + cbn. repeat split; eauto.
    + pose proof (StoreImageReference_frame
                    (LogImageEvent (setClient mgr c) (img_Name img) target "pull") img)
        as Hframe.
      destruct (StoreImageReference _ img) as [m err]. cbn [fst snd] in *.
      destruct Hframe as (He & Hc & _). now rewrite He, Hc.
  - pose proof (StoreImageReference_frame
                  (LogImageEvent (setClient mgr c) (img_Name img) target "pull") img)
      as Hframe.
    destruct (StoreImageReference _ img) as [m err]. cbn [fst snd] in *.
    destruct Hframe as (He & Hc & _). now rewrite He, Hc.
Qed.

Lemma storeImageReferences_frame (imgs : list Image) :
  forall mgr : Mgr,
    let mgr' := storeImageReferences mgr imgs in
    effects mgr' = effects mgr /\ client mgr' = client mgr
    /\ DefaultRegistry mgr' = DefaultRegistry mgr
    /\ DefaultNamespace mgr' = DefaultNamespace mgr
    /\ RegistryMirrors mgr' = RegistryMirrors mgr.
Proof.
  induction imgs as [|img imgs IH]; intros mgr; [now cbn|].
  cbn [storeImageReferences].
  destruct (IH (fst (StoreImageReference mgr img))) as (H1 & H2 & H3 & H4 & H5).
  destruct (StoreImageReference_frame mgr img) as (G1 & G2 & G3 & G4 & G5).
  cbv zeta. rewrite H1, H2, H3, H4, H5. auto.
Qed.

(** X19.  Loading the images at start-up fails only when the client
    cannot list them, with that error and without any change; a failure
    to store one of the images is not reported.  It changes nothing but
    the local store: no call to remove or create a name in the remote
    store, no event, the same client and configuration. *)
Theorem updateLocalStore_frame (mgr : Mgr) :
  let out := updateLocalStore mgr in
  match client_ListImages (client mgr) with
  | Err e => out = (mgr, Some e)
  | Ok imgs => snd out = None
  end
  /\ effects (fst out) = effects mgr /\ client (fst out) = client mgr
  /\ DefaultRegistry (fst out) = DefaultRegistry mgr
  /\ DefaultNamespace (fst out) = DefaultNamespace mgr
  /\ RegistryMirrors (fst out) = RegistryMirrors mgr.
Proof.
  unfold updateLocalStore. destruct (client_ListImages (client mgr)) as [imgs|e].
  - cbn [fst snd]. split; [reflexivity|]. apply storeImageReferences_frame.
  - now cbn.
Qed.

End DaemonFacts.

(* ===================================================================== *)
(** ** The store of the spec finds what was registered *)
(* ===================================================================== *)

Section LocalStoreIndex.
Import LocalStore.

Lemma find_append {A} (f : A -> bool) (l l' : list A) :
  find f (l ++ l')%list = match find f l with Some x => Some x | None => find f l' end.
Proof.
  induction l as [|x l IH]; [reflexivity|]. cbn. now destruct (f x).
Qed.

Lemma lookupRef_addReference_same (s : imageStore) (id : Digest) (candidate r : Reference)
      (s' : imageStore) :
  addReference s id candidate r = (s', None) ->
  lookupRef s' r = Some {| ent_id := id; ent_candidate := candidate; ent_ref := r |}.
Proof.
  unfold addReference, lookupRef. intros Hadd.
  destruct (find (fun e => ref_eqb (ent_ref e) r) (refs s)) as [e|] eqn:Hfind.
  - destruct (String.eqb (ent_id e) id); [|discriminate].
    inversion Hadd; subst s'. cbn [refs]. unfold append. rewrite find_append.
    rewrite (find_filter_same (fun e => ref_eqb (ent_ref e) r)). cbn.
    unfold ref_eqb. now rewrite String.eqb_refl.
  - inversion Hadd; subst s'. cbn [refs]. unfold append. rewrite find_append, Hfind.
    cbn. unfold ref_eqb. now rewrite String.eqb_refl.
Qed.

Lemma lookupRef_addReference_other (s : imageStore) (id : Digest)
      (candidate r r' : Reference) :
  RefString r' <> RefString r ->
  lookupRef (fst (addReference s id candidate r)) r' = lookupRef s r'.
Proof.
  intros Hne. unfold addReference.
  assert (Hnew : ref_eqb r r' = false).
  { unfold ref_eqb. apply String.eqb_neq. congruence. }
  destruct (lookupRef s r) as [e|].
  - destruct (String.eqb (ent_id e) id); [|reflexivity].
    cbn [fst]. unfold lookupRef. cbn [refs]. unfold append. rewrite find_append.
    rewrite find_filter_other.
    + destruct (find _ (refs s)); [reflexivity|]. cbn. now rewrite Hnew.
    + intros x Hx. unfold ref_eqb in *. apply String.eqb_eq in Hx.
      apply negb_true_iff, String.eqb_neq. congruence.
  - cbn [fst]. unfold lookupRef. cbn [refs]. unfold append. rewrite find_append.
    destruct (find _ (refs s)); [reflexivity|]. cbn. now rewrite Hnew.
Qed.

(** The store of the spec takes a reference out of the primary
    references of its digest when it removes it. *)
#[global] Instance imageStore_removal_laws
  : @ImageStoreRemovalLaws imageStore imageStore_ops.
Proof.
  constructor.
  intros s id r s' Hrm. cbn in *. unfold removeReference in Hrm.
  inversion Hrm; subst s'. clear Hrm. unfold getPrimaryReferences. cbn [refs].
  induction (refs s) as [|e l IH]; [reflexivity|]. cbn [filter].
  destruct (String.eqb (ent_id e) id) eqn:Hid; cbn [andb negb].
  - unfold ref_eqb at 1.
    destruct (String.eqb (RefString (ent_ref e)) (RefString r)) eqn:Hr; cbn [negb].
    + destruct (isPrimary e); cbn [map filter]; [|exact IH].
      rewrite Hr. cbn [negb]. exact IH.
    + cbn [filter]. rewrite Hid. cbn [andb].
      destruct (isPrimary e); cbn [map filter]; [|exact IH].
      rewrite Hr. cbn [negb]. now rewrite IH.
  - cbn [filter]. rewrite Hid. cbn [andb]. exact IH.
Qed.

(** The store of the spec, which takes no reference for an ID, finds a
    reference once it is registered. *)
#[global] Instance imageStore_index_laws
  : @ImageStoreIndexLaws imageStore imageStore_ops (fun _ _ => false).
Proof.
  constructor.
  - intros s id candidate r s' Hadd _. cbn in *. unfold search.
    now rewrite (lookupRef_addReference_same _ _ _ _ Hadd).
  - intros s id candidate r s' Hadd. cbn in *. unfold getPrimaryReference.
    now rewrite (lookupRef_addReference_same _ _ _ _ Hadd).
  - intros s id candidate r r' Hne _. cbn. unfold search.
    now rewrite lookupRef_addReference_other.
  - intros s id candidate r r' Hne. cbn. unfold getPrimaryReference.
    now rewrite lookupRef_addReference_other.
  - reflexivity.
  - intros s id info. cbn. unfold getMetadata, cacheMetadata, evictMetadata.
    cbn [infos]. unfold append. rewrite find_append.
    rewrite (find_filter_same (fun p : Digest * CtrdImageInfo => String.eqb (fst p) id)).
    cbn. now rewrite String.eqb_refl.
  - reflexivity.
  - reflexivity.
  - reflexivity.
Qed.

(** The store that resolves IDs keeps the cache apart from the
    references, as the store it extends. *)
#[global] Instance idStore_laws : @ImageStoreLaws IDStore.idStore IDStore.idStore_ops.
Proof.
  constructor.
  - intros s id r d.
    exact (@RemoveReference_cache _ _ imageStore_laws (IDStore.base s) id r d).
  - intros s id. exact (@Clear_cache_same _ _ imageStore_laws (IDStore.base s) id).
  - intros s id d Hd.
    exact (@Clear_cache_other _ _ imageStore_laws (IDStore.base s) id d Hd).
  - intros s id d. exact (@Clear_refs _ _ imageStore_laws (IDStore.base s) id d).
Qed.

#[global] Instance idStore_removal_laws
  : @ImageStoreRemovalLaws IDStore.idStore IDStore.idStore_ops.
Proof.
  constructor. intros s id r s' Hrm. cbn in Hrm. inversion Hrm; subst s'. clear Hrm.
  cbn [GetPrimaryReferences IDStore.idStore_ops IDStore.base].
  exact (@RemoveReference_primaries _ _ imageStore_removal_laws (IDStore.base s) id r _
           eq_refl).
Qed.

Lemma find_existsb_false {A} (f : A -> bool) (l : list A) :
  existsb f l = false -> find f l = None.
Proof.
  induction l as [|x l IH]; [reflexivity|]. cbn.
  destruct (f x); [discriminate|exact IH].
Qed.

(** A registration adds no digest but its own to those of the store. *)
Lemma asID_addReference (s : IDStore.idStore) (id : Digest) (candidate r r' : Reference) :
  IDStore.asID (fst (IDStore.addReference s id candidate r)) r' = false ->
  IDStore.asID s r' = false.
Proof.
  unfold IDStore.asID, IDStore.addReference. cbn [fst IDStore.ids].
  destruct (snd (addReference (IDStore.base s) id candidate r)); [tauto|].
  destruct (existsb (String.eqb id) (IDStore.ids s)); [tauto|].
  cbn [existsb]. intros H. now apply orb_false_elim in H.
Qed.

(** The store that resolves IDs finds a reference once it is
    registered, unless it takes it for an ID of one of its images. *)
#[global] Instance idStore_index_laws
  : @ImageStoreIndexLaws IDStore.idStore IDStore.idStore_ops IDStore.asID.
Proof.
  constructor.
  - intros s id candidate r s' Hadd Has. cbn in Hadd. unfold IDStore.addReference in Hadd.
    inversion Hadd as [[Hs' Herr]]. rewrite Hs'. cbn. unfold IDStore.search.
    rewrite (find_existsb_false _ _ Has). subst s'. cbn [IDStore.base]. unfold search.
    rewrite (lookupRef_addReference_same (IDStore.base s) id candidate r
               (s' := fst (addReference (IDStore.base s) id candidate r))); [reflexivity|].
    rewrite <- Herr. now destruct (addReference (IDStore.base s) id candidate r).
  - intros s id candidate r s' Hadd. cbn in Hadd. unfold IDStore.addReference in Hadd.
    inversion Hadd as [[Hs' Herr]]. cbn. unfold getPrimaryReference.
    rewrite (lookupRef_addReference_same (IDStore.base s) id candidate r
               (s' := fst (addReference (IDStore.base s) id candidate r))); [reflexivity|].
    rewrite <- Herr. now destruct (addReference (IDStore.base s) id candidate r).
  - intros s id candidate r r' Hne Has.
    change (IDStore.search (fst (IDStore.addReference s id candidate r)) r'
            = IDStore.search s r').
    change (IDStore.asID (fst (IDStore.addReference s id candidate r)) r' = false) in Has.
    pose proof (asID_addReference _ _ _ _ _ Has) as Hbefore.
    unfold IDStore.asID in Has, Hbefore. unfold IDStore.search.
    rewrite (find_existsb_false _ _ Has), (find_existsb_false _ _ Hbefore).
    unfold IDStore.addReference. cbn [fst IDStore.base]. unfold search.
    now rewrite lookupRef_addReference_other.
  - intros s id candidate r r' Hne. cbn. unfold getPrimaryReference.
    now rewrite lookupRef_addReference_other.
  - intros s id candidate r r'. exact (asID_addReference s id candidate r r').
  - intros s id info.
    exact (@Cache_get _ _ _ imageStore_index_laws (IDStore.base s) id info).
  - reflexivity.
  - reflexivity.
  - intros s id info r Has. exact Has.
Qed.

End LocalStoreIndex.

(* ===================================================================== *)
(** ** Further properties: the digest alias of a tagged image *)
(* ===================================================================== *)

Section DigestAlias.
Context {S C : Type} {store : ImageStore S} {api : APIClient C} {imp : Imports}.
Context {laws : @ImageStoreLaws S store} {removal : @ImageStoreRemovalLaws S store}.
Context {asID : S -> Reference -> bool} {index : @ImageStoreIndexLaws S store asID}.

Local Abbreviation Mgr := (ImageManager S C).

(** X20.  When a tagged reference has been registered without error,
    its digest alias is registered as a searchable reference of the
    same digest, with the tagged reference as primary reference, if the
    store did not know the alias.  An alias the store knew already is
    left as it was, also under another digest, and an error of the
    lookup other than not-found leaves the alias unregistered; neither
    is reported.  This for an alias that the store, as it is then, does
    not take for an ID of one of its images; on any store that finds by
    [Search] what was registered, whether or not it resolves IDs too. *)
Theorem addReferenceIntoStore_digest_alias (mgr mgr1 : Mgr) (id : Digest) (ref : Reference)
        (dig : Digest) :
  addReferenceIntoStore mgr id ref dig = (mgr1, None) ->
  IsNameTagged ref = true ->
  asID (localStore mgr1) (WithDigest ref dig) = false ->
  let digRef := WithDigest ref dig in
  match Search (localStore mgr) digRef with
  | Ok found =>
      Search (localStore mgr1) digRef = Ok found
      /\ GetPrimaryReference (localStore mgr1) digRef
         = GetPrimaryReference (localStore mgr) digRef
  | Err e =>
      if IsNotfound e
      then Search (localStore mgr1) digRef = Ok (id, digRef)
           /\ GetPrimaryReference (localStore mgr1) digRef = Ok ref
      else Search (localStore mgr1) digRef = Err e
  end.
Proof.
  intros Hreg Htag Has digRef. unfold addReferenceIntoStore in Hreg.
  pose proof (WithDigest_differs ref dig Htag) as Hne. fold digRef in Hne, Has.
  pose proof (AddReference_other_search (localStore mgr) id ref ref digRef Hne) as Hs.
  pose proof (AddReference_other_primary (localStore mgr) id ref ref digRef Hne) as Hp.
  destruct (AddReference (localStore mgr) id ref ref) as [s1 [e|]]; [discriminate|].
  cbn [fst] in Hs, Hp. rewrite Htag in Hreg. fold digRef in Hreg.
  assert (Has1 : asID s1 digRef = false).
  { destruct (Search s1 digRef) as [found|e].
    - inversion Hreg; subst mgr1. exact Has.
    - destruct (IsNotfound e).
      + pose proof (AddReference_asID s1 id ref digRef digRef) as Hmono.
        destruct (AddReference s1 id ref digRef) as [s2 err2].
        inversion Hreg; subst mgr1 err2. now apply Hmono.
      + inversion Hreg; subst mgr1. exact Has. }
  rewrite <- (Hs Has1), <- Hp. clear Hs Hp.
  destruct (Search s1 digRef) as [found|e] eqn:Hfound.
  - inversion Hreg; subst mgr1. cbn [localStore withStore]. now split.
  - destruct (IsNotfound e).
    + destruct (AddReference s1 id ref digRef) as [s2 err2] eqn:Hadd.
      inversion Hreg; subst mgr1 err2. cbn [localStore withStore] in *. split.
      * exact (AddReference_search _ _ _ _ Hadd Has).
      * exact (AddReference_primary _ _ _ _ Hadd).
    + inversion Hreg; subst mgr1. exact Hfound.
Qed.

(** X21.  Removing an image by a reference that is not its primary
    reference, such as the digest alias of an image pulled by tag,
    keeps the image: when the removal returns no error, the primary
    reference is still a primary reference of the digest and the cache
    entry of the digest is as it was; the client is not called.  On any
    store whose removal takes a reference out of the primary references
    of its digest and leaves the cache alone. *)
Theorem RemoveImage_untag_keeps_image (mgr : Mgr) (idOrRef : string) (force : bool)
        (id : Digest) (namedRef primaryRef : Reference) :
  CheckReference mgr idOrRef = Ok (id, namedRef, primaryRef) ->
  byIdentity id namedRef = false ->
  RefString primaryRef <> RefString (TrimTagForDigest namedRef) ->
  In primaryRef (GetPrimaryReferences (localStore mgr) id) ->
  snd (RemoveImage mgr idOrRef force) = None ->
  let mgr' := fst (RemoveImage mgr idOrRef force) in
  In primaryRef (GetPrimaryReferences (localStore mgr') id)
  /\ GetCtrdImageInfo (localStore mgr') id = GetCtrdImageInfo (localStore mgr) id
  /\ client mgr' = client mgr.
Proof.
  intros Hcheck Hid Hne Hin. unfold RemoveImage. rewrite Hcheck.
  unfold removeResolved. unfold byIdentity in Hid. rewrite Hid.
  apply String.eqb_neq in Hne. rewrite Hne.
  unfold storeRemoveReference. cbn [localStore LogImageEvent].
  pose proof (RemoveReference_cache (localStore mgr) id (TrimTagForDigest namedRef) id)
    as Hcache.
  destruct (RemoveReference (localStore mgr) id (TrimTagForDigest namedRef))
    as [s1 err] eqn:Hrm.
  cbn [fst snd] in *. intros ->.
  assert (Hkept : In primaryRef (GetPrimaryReferences s1 id)).
  { rewrite (RemoveReference_primaries _ _ _ Hrm). apply filter_In. split; [exact Hin|].
    now rewrite Hne. }
  unfold clearIfNoPrimary. cbn [localStore withStore LogImageEvent].
  destruct (GetPrimaryReferences s1 id) as [|q l] eqn:Hq; [contradiction|].
  cbn [length]. replace (Z.of_nat (Datatypes.S (length l)) =? 0)%Z with false
    by (symmetry; apply Z.eqb_neq; lia).
  cbn [localStore withStore client]. rewrite Hq. repeat split; assumption.
Qed.

End DigestAlias.

(* ===================================================================== *)
(** ** The further properties on the sample daemon *)
(* ===================================================================== *)

Section MoreRuns.
Import Sample SampleDaemon.

Local Abbreviation busyboxTag := (mkRef "reg.example/library/busybox" (Some "latest") None).
Local Abbreviation busyboxAlias := (mkRef "localhost:5000/busybox" None None).
Local Abbreviation nginxTag := (mkRef "reg.example/library/nginx" (Some "latest") None).
Local Abbreviation myboxTag := (mkRef "reg.example/library/mybox" (Some "v1") None).

(** The last candidate for a short name and the one for a name with a
    domain expand to themselves. *)
Lemma LookupImageReferences_canonical_runs :
  LookupImageReferences booted "reg.example/library/ubuntu" = ["reg.example/library/ubuntu"]
  /\ LookupImageReferences booted "localhost:5000/busybox" = ["localhost:5000/busybox"].
Proof.
  assert (Hdefault : ContainsAny (DefaultRegistry booted) ".:" = true
                     /\ ContainsRune (DefaultRegistry booted) slash = false)
    by (split; reflexivity).
  assert (Hdomain : hasDomain "localhost:5000/busybox" = true) by reflexivity.
  split.
  - exact (LookupImageReferences_canonical booted "ubuntu" (or_intror Hdefault)).
  - exact (LookupImageReferences_canonical booted "localhost:5000/busybox"
             (or_introl Hdomain)).
Defined.

(** The short name of the busybox image is found on the second pass,
    and its primary reference is the one the store gives for it. *)
Lemma CheckReference_sound_runs :
  (exists r, Parse "busybox:latest" = Ok r
             /\ exists e r2, Search (localStore booted) r = Err e
                             /\ Search (localStore booted) r2 = Ok ("sha256:b1", busyboxTag))
  /\ GetPrimaryReference (localStore booted) busyboxTag = Ok busyboxTag.
Proof.
  assert (Hcheck : CheckReference booted "busybox:latest"
                   = Ok ("sha256:b1", busyboxTag, busyboxTag)) by reflexivity.
  destruct (CheckReference_sound booted "busybox:latest" Hcheck) as [[r [Hparse Hfound]] Hp].
  split; [|exact Hp].
  exists r. split; [exact Hparse|].
  destruct Hfound as [Hfirst|(e & r2 & Hmiss & _ & _ & _ & Hsecond)].
  - exfalso. inversion Hparse; subst r. discriminate Hfirst.
  - exists e, r2. split; assumption.
Defined.

(** The nginx image resolves by its name once it is stored, on the
    store that resolves IDs. *)
Lemma StoreImageReference_resolves_runs :
  let mgr' := fst (StoreImageReference bootedID nginx) in
  CheckReference mgr' "reg.example/library/nginx:latest" = Ok ("sha256:n1", nginxTag, nginxTag)
  /\ exists info, GetImage mgr' "reg.example/library/nginx:latest" = Ok info
                  /\ ii_ID info = "sha256:n1"
                  /\ ii_Size info = 40%Z
                  /\ ii_CreatedAt info = "700".
Proof.
  assert (Hstore : StoreImageReference bootedID nginx
                   = (fst (StoreImageReference bootedID nginx), None))
    by (vm_compute; reflexivity).
  assert (Hparse : Parse (img_Name nginx) = Ok nginxTag) by reflexivity.
  assert (Hcfg : img_Config nginx = Ok (mkLayer "sha256:n1" 0%Z)) by reflexivity.
  assert (Hsize : img_Size nginx = Ok 40%Z) by reflexivity.
  assert (Hid : byIdentity (desc_Digest (mkLayer "sha256:n1" 0%Z)) nginxTag = false)
    by reflexivity.
  assert (Has : IDStore.asID (localStore (fst (StoreImageReference bootedID nginx)))
                             nginxTag = false) by (vm_compute; reflexivity).
  destruct (img_OciImage nginx) as [ociImg|e] eqn:Hoci; [|discriminate Hoci].
  assert (Hcreated : time_Format (oci_Created ociImg) = "700")
    by (inversion Hoci; reflexivity).
  rewrite <- Hcreated.
  exact (StoreImageReference_resolves bootedID nginx Hstore Hparse Hcfg Hsize Hoci Hid
           Has).
Defined.

(** The second name given to the busybox image resolves to its digest,
    on the store that resolves IDs. *)
Lemma AddTag_resolves_runs :
  CheckReference taggedID "reg.example/library/mybox:v1"
  = Ok ("sha256:b1", myboxTag, myboxTag).
Proof.
  assert (Htag : AddTag bootedID "busybox:latest" "mybox:v1" = (taggedID, None))
    by (vm_compute; reflexivity).
  assert (Hparse : parseTagReference
                     (addDefaultRegistryIfMissing "mybox:v1" (DefaultRegistry bootedID)
                                                  (DefaultNamespace bootedID))
                   = Ok myboxTag) by reflexivity.
  assert (Hfetch : fetchContainerdImage bootedID "busybox:latest" = Ok busybox)
    by (vm_compute; reflexivity).
  assert (Hcfg : img_Config busybox = Ok (mkLayer "sha256:b1" 0%Z)) by reflexivity.
  assert (Has : IDStore.asID (localStore taggedID) myboxTag = false)
    by (vm_compute; reflexivity).
  destruct (AddTag_resolves bootedID "busybox:latest" "mybox:v1" Htag Hparse Hfetch Hcfg
              Has) as (_ & _ & Hresolves).
  apply Hresolves; reflexivity.
Defined.

(** The removal of the busybox image by its ID, and the forced removal
    of the image with two names by its short ID, leave the digest
    without primary reference and without cache entry. *)
Lemma RemoveImage_by_identity_complete_runs :
  (let mgr' := fst (RemoveImage bootedID "sha256:b1" false) in
   GetPrimaryReferences (localStore mgr') "sha256:b1" = []
   /\ GetCtrdImageInfo (localStore mgr') "sha256:b1" = Err errCtrdImageInfoNotExist)
  /\ (let mgr' := fst (RemoveImage taggedID "b1" true) in
      GetPrimaryReferences (localStore mgr') "sha256:b1" = []
      /\ GetCtrdImageInfo (localStore mgr') "sha256:b1" = Err errCtrdImageInfoNotExist).
Proof.
  assert (Hcheck : CheckReference bootedID "sha256:b1"
                   = Ok ("sha256:b1", mkRef "sha256" (Some "b1") None, busyboxTag))
    by (vm_compute; reflexivity).
  assert (Hid : byIdentity "sha256:b1" (mkRef "sha256" (Some "b1") None) = true)
    by reflexivity.
  assert (Hdone : snd (RemoveImage bootedID "sha256:b1" false) = None)
    by (vm_compute; reflexivity).
  assert (Hcheck2 : CheckReference taggedID "b1"
                    = Ok ("sha256:b1", mkRef "b1" None None, busyboxTag))
    by (vm_compute; reflexivity).
  assert (Hid2 : byIdentity "sha256:b1" (mkRef "b1" None None) = true) by reflexivity.
  assert (Hdone2 : snd (RemoveImage taggedID "b1" true) = None)
    by (vm_compute; reflexivity).
  split.
  - exact (RemoveImage_by_identity_complete bootedID "sha256:b1" false Hcheck Hid Hdone).
  - exact (RemoveImage_by_identity_complete taggedID "b1" true Hcheck2 Hid2 Hdone2).
Defined.

(** The two layers of the busybox image, of 10 and 20 bytes, give the
    sizes 20 and 10 to the two entries with a layer, top-most first. *)
Lemma reconstructHistory_layer_sizes_runs :
  exists items,
    reconstructHistory (mkLayer "sha256:b1" 0%Z)
      [mkHistory 10%Z "ADD rootfs" false; mkHistory 20%Z "ENV PATH" true;
       mkHistory 30%Z "RUN install" false]
      [mkLayer "sha256:l0" 10%Z; mkLayer "sha256:l1" 20%Z]
      (img_ContentInfo busybox) = Ok items
    /\ length items = 3%nat
    /\ layerSizes items = [20%Z; 10%Z].
Proof.
  apply (reconstructHistory_layer_sizes (mkLayer "sha256:b1" 0%Z)
           [mkHistory 10%Z "ADD rootfs" false; mkHistory 20%Z "ENV PATH" true;
            mkHistory 30%Z "RUN install" false]
           [mkLayer "sha256:l0" 10%Z; mkLayer "sha256:l1" 20%Z]
           (img_ContentInfo busybox) (sizeIn busybox)).
  - intros l [<-|[<-|[]]]; reflexivity.
  - reflexivity.
Defined.

(** The image that has lost a diff ID has no history. *)
Lemma ImageHistory_rootfs_mismatch_runs :
  ImageHistory damaged "truncated:1"
  = Err (ErrNew "mismatched image rootfs and manifest layers").
Proof.
  assert (Hfetch : fetchContainerdImage damaged "truncated:1" = Ok truncated)
    by reflexivity.
  assert (Hcfg : img_Config truncated = Ok (mkLayer "sha256:b1" 0%Z)) by reflexivity.
  assert (Hroot : img_RootFS truncated = Ok ["sha256:l0"]) by reflexivity.
  assert (Hman : img_Manifest truncated
                 = Ok {| man_Layers := [mkLayer "sha256:l0" 10%Z;
                                        mkLayer "sha256:l1" 20%Z] |}) by reflexivity.
  destruct (img_OciImage truncated) as [ociImg|e] eqn:Hoci; [|discriminate Hoci].
  apply (ImageHistory_rootfs_mismatch damaged "truncated:1" Hfetch Hcfg Hoci Hman Hroot).
  discriminate.
Defined.

(** With a content store that has lost the layers, the history of the
    ubuntu image fails with the error of the content store. *)
Lemma reconstructHistory_info_error_runs :
  reconstructHistory (mkLayer "sha256:u1" 0%Z) [mkHistory 40%Z "ADD rootfs" false]
                     [mkLayer "sha256:l2" 30%Z] (fun _ => Err ErrNotfound)
  = Err ErrNotfound.
Proof.
  apply reconstructHistory_info_error.
  - intros l _. reflexivity.
  - discriminate.
  - discriminate.
Defined.

(** A listing before or since an image that is not there fails with
    the not-found error of the resolution. *)
Lemma ListImages_unresolved_runs :
  ListImages booted [("before", ["none:1"])] = Err ErrNotfound
  /\ ListImages booted [("since", ["none:1"]); ("before", ["alpine:latest"])]
     = Err ErrNotfound.
Proof.
  assert (Hget : GetImage booted "none:1" = Err ErrNotfound)
    by (vm_compute; reflexivity).
  assert (Hv1 : filter_Validate [("before", ["none:1"])] acceptedImageFilterTags = None)
    by reflexivity.
  assert (Hv2 : filter_Validate [("since", ["none:1"]); ("before", ["alpine:latest"])]
                                acceptedImageFilterTags = None) by reflexivity.
  split.
  - destruct (ListImages_unresolved booted [("before", ["none:1"])] "none:1" Hv1 Hget)
      as [Hbefore _].
    apply Hbefore; [reflexivity|]. cbn. lia.
  - destruct (ListImages_unresolved booted
                [("since", ["none:1"]); ("before", ["alpine:latest"])] "none:1" Hv2 Hget)
      as [_ Hsince].
    eassert (Hb : resolveTimeFilter booted ["alpine:latest"] = Ok _)
      by (vm_compute; reflexivity).
    refine (Hsince eq_refl _ _ Hb). cbn. lia.
Defined.

(** The ubuntu image has its tag among the tag-form names and the
    digest reference derived at the pull among the digest-form names. *)
Lemma containerdImageToImageInfo_names_runs :
  exists info,
    containerdImageToImageInfo booted "sha256:u1" = Ok info
    /\ ii_ID info = "sha256:u1"
    /\ ii_RepoTags info = ["reg.example/library/ubuntu:16.04"]
    /\ ii_RepoDigests info = ["reg.example/library/ubuntu@sha256:mu"].
Proof.
  eassert (Hget : GetCtrdImageInfo (localStore booted) "sha256:u1" = Ok _)
    by (vm_compute; reflexivity).
  destruct (containerdImageToImageInfo_names booted "sha256:u1" Hget)
    as (info & Hinfo & Hii & Htags & Hdigests).
  vm_compute in Hii, Htags, Hdigests.
  exists info. repeat split; assumption.
Defined.

(** The ubuntu image, with one primary reference and a container that
    runs it, is not removed without force, and the daemon is as it was;
    nor is the busybox image with its two names when it is named by the
    hexadecimal part of its ID, which is no prefix of the ID with its
    algorithm. *)
Lemma server_removeImage_in_use_runs :
  server_removeImage booted running "ubuntu:16.04" false
  = Returned (booted,
              Err (ErrNew ("Unable to remove the image " ++ fmt_q "sha256:u1"
                           ++ " (must force) - container (c1, web) is using this image")))
  /\ HasPrefix "sha256:b1" "b1" = false
  /\ length (fst (ListReferences taggedID "sha256:b1")) = 2%nat
  /\ server_removeImage taggedID running "b1" false
     = Returned (taggedID,
                 Err (ErrNew ("Unable to remove the image " ++ fmt_q "sha256:b1"
                              ++ " (must force) - container (c2, db) is using this image"))).
Proof.
  split; [|split; [reflexivity|split; [vm_compute; reflexivity|]]].
  - eassert (Hget : GetImage booted "ubuntu:16.04" = Ok _) by (vm_compute; reflexivity).
    assert (Hone : length (fst (ListReferences booted "sha256:u1")) = 1%nat)
      by (vm_compute; reflexivity).
    destruct (server_removeImage_in_use booted running "ubuntu:16.04" false Hget
                (or_introl Hone)) as (_ & Hused & _).
    assert (Hlist : container_List running (fun c => String.eqb (ctr_Image c) "sha256:u1")
                    = Ok [{| ctr_ID := "c1"; ctr_Name := "web"; ctr_Image := "sha256:u1" |}])
      by reflexivity.
    exact (Hused _ _ Hlist eq_refl).
  - eassert (Hget : GetImage taggedID "b1" = Ok _) by (vm_compute; reflexivity).
    assert (Hshort : isImageIDPrefix "sha256:b1" "b1" = Returned true) by reflexivity.
    destruct (server_removeImage_in_use taggedID running "b1" false Hget
                (or_intror Hshort)) as (_ & Hused & _).
    assert (Hlist : container_List running (fun c => String.eqb (ctr_Image c) "sha256:b1")
                    = Ok [{| ctr_ID := "c2"; ctr_Name := "db"; ctr_Image := "sha256:b1" |}])
      by reflexivity.
    exact (Hused _ _ Hlist eq_refl).
Defined.

(** The busybox image with its two names loses the second one without
    force although a container runs it. *)
Lemma server_removeImage_unchecked_runs :
  server_removeImage tagged running "mybox:v1" false
  = Returned (handedOver tagged "mybox:v1" false)
  /\ snd (handedOver tagged "mybox:v1" false) = Ok 204%Z.
Proof.
  split; [|vm_compute; reflexivity].
  eassert (Hget : GetImage tagged "mybox:v1" = Ok _) by (vm_compute; reflexivity).
  apply (server_removeImage_unchecked tagged "mybox:v1" false Hget).
  - vm_compute. discriminate.
  - vm_compute. reflexivity.
Defined.

(** Pulling nginx calls the client for the name with its default tag,
    and closes the stream and cancels once. *)
Lemma PullImage_stream_runs :
  let ops := snd (fst (PullImage booted None "nginx")) in
  hd_error ops
  = Some (CallPullImage "nginx:latest" ["m1/nginx"; "m2/nginx"; "reg.example/library/nginx"])
  /\ closes ops = 1%nat /\ cancels ops = 1%nat.
Proof.
  assert (Hparse : Parse "nginx" = Ok (mkRef "nginx" None None)) by reflexivity.
  destruct (PullImage_stream booted None "nginx" Hparse) as (Hhd & Hclose & Hcancel & _).
  repeat split; assumption.
Defined.

(** The pull of nginx publishes its event; with a plugin that refuses
    the image there is none. *)
Lemma PullImage_event_runs :
  effects (fst (fst (PullImage booted None "nginx")))
  = [ImageEvent "reg.example/library/nginx:latest" "nginx:latest" "pull"]
  /\ effects (fst (fst (PullImage booted (Some refusing) "nginx"))) = [].
Proof.
  assert (Hparse : Parse "nginx" = Ok (mkRef "nginx" None None)) by reflexivity.
  assert (Hpull : client_PullImage (client booted) "nginx:latest"
                                   (LookupImageReferences booted "nginx")
                  = (append content nginx, Ok nginx)) by reflexivity.
  split.
  - destruct (PullImage_event booted None "nginx" Hparse Hpull) as [_ [Hevent _]].
    exact Hevent.
  - destruct (PullImage_event booted (Some refusing) "nginx" Hparse Hpull)
      as [_ [Hnone _]].
    exact Hnone.
Defined.

(** Registering the tag of the nginx image registers its digest alias,
    with the tag as primary reference, on the store that resolves IDs. *)
Lemma addReferenceIntoStore_digest_alias_runs :
  let mgr1 := fst (addReferenceIntoStore bootedID "sha256:n1" nginxTag "sha256:mn") in
  Search (localStore mgr1) (WithDigest nginxTag "sha256:mn")
  = Ok ("sha256:n1", WithDigest nginxTag "sha256:mn")
  /\ GetPrimaryReference (localStore mgr1) (WithDigest nginxTag "sha256:mn") = Ok nginxTag.
Proof.
  assert (Hreg : addReferenceIntoStore bootedID "sha256:n1" nginxTag "sha256:mn"
                 = (fst (addReferenceIntoStore bootedID "sha256:n1" nginxTag "sha256:mn"),
                    None)) by (vm_compute; reflexivity).
  assert (Htag : IsNameTagged nginxTag = true) by reflexivity.
  assert (Has : IDStore.asID
                   (localStore
                      (fst (addReferenceIntoStore bootedID "sha256:n1" nginxTag "sha256:mn")))
                   (WithDigest nginxTag "sha256:mn") = false) by (vm_compute; reflexivity).
  assert (Hmiss : Search (localStore bootedID) (WithDigest nginxTag "sha256:mn")
                  = Err ErrNotfound) by (vm_compute; reflexivity).
  pose proof (addReferenceIntoStore_digest_alias bootedID "sha256:n1" nginxTag "sha256:mn"
                Hreg Htag Has) as Halias.
  cbv zeta in Halias. rewrite Hmiss in Halias. exact Halias.
Defined.

(** Removing the busybox image by its digest alias keeps its tag and
    its cache entry, on the store that resolves IDs. *)
Lemma RemoveImage_untag_keeps_image_runs :
  let mgr' := fst (RemoveImage bootedID "reg.example/library/busybox@sha256:mb" false) in
  In busyboxTag (GetPrimaryReferences (localStore mgr') "sha256:b1")
  /\ GetCtrdImageInfo (localStore mgr') "sha256:b1"
     = GetCtrdImageInfo (localStore bootedID) "sha256:b1"
  /\ client mgr' = client bootedID.
Proof.
  assert (Hcheck : CheckReference bootedID "reg.example/library/busybox@sha256:mb"
                   = Ok ("sha256:b1",
                         mkRef "reg.example/library/busybox" None (Some "sha256:mb"),
                         busyboxTag)) by (vm_compute; reflexivity).
  assert (Hid : byIdentity "sha256:b1"
                  (mkRef "reg.example/library/busybox" None (Some "sha256:mb")) = false)
    by reflexivity.
  assert (Hin : In busyboxTag (GetPrimaryReferences (localStore bootedID) "sha256:b1"))
    by (left; reflexivity).
  assert (Hdone : snd (RemoveImage bootedID "reg.example/library/busybox@sha256:mb" false)
                  = None) by (vm_compute; reflexivity).
  apply (RemoveImage_untag_keeps_image bootedID "reg.example/library/busybox@sha256:mb"
           false Hcheck Hid); [discriminate|exact Hin|exact Hdone].
Defined.

End MoreRuns.
